(** * Ollama Chat: streaming client, session store and context tracker

    A shallow embedding of the TypeScript sources
      - [src/src/ollamaClient.ts]: class [OllamaClient] ([chatStream], [chat],
        [getModelInfo]);
      - [src/unnamed/part_001], the module [./chatManager]: class
        [ChatManager];
      - the module [./contextTracker], which follows the provider in
        [src/src/sidebarProvider.ts] (lines 1370-1418): class
        [ContextTracker];
      - [src/src/sidebarProvider.ts]: [OllamaChatProvider.handleSendMessage];
    together with the parts of the JavaScript platform these functions call:
    strings of UTF-16 code units, IEEE-754 numbers, [TextDecoder],
    [JSON.parse], the coercions behind [+], [/], [>=] and template literals,
    and the local-time arithmetic of [Date]. *)

From Stdlib Require Import ZArith List String Ascii Bool Lia QArith Qround Qabs Lqa.
From Stdlib.Strings Require Import Byte.
From Stdlib Require Import PrimFloat FloatOps SpecFloat DecimalString.
From Stdlib Require DecimalFacts DecimalPos DecimalN.
From stdpp Require Import gmap.
Import ListNotations.

Local Open Scope Z_scope.
Set Warnings "-register-all,-inexact-float".

(* ===================================================================== *)
(** * JavaScript strings                                                  *)
(* ===================================================================== *)

(** A JavaScript string is a finite sequence of UTF-16 code units; [length],
    [slice], [split] and [trim] all count code units. *)
Definition jsstring := list Z.

(** ASCII literal: every character of [s] as one code unit. *)
Definition js (s : string) : jsstring :=
  List.map (fun a => Z.of_N (N_of_ascii a)) (list_ascii_of_string s).

(** The same, with every apostrophe read as a quotation mark, so that JSON
    text can be written as [jsq "{'done':true}"]. *)
Definition jsq (s : string) : jsstring :=
  List.map (fun c => if c =? 39 then 34 else c) (js s).

(** The bytes of an ASCII literal, apostrophes read as quotation marks. *)
Definition bytesq (s : string) : list byte :=
  List.map (fun a => if Ascii.eqb a "'"%char then Byte.x22 else byte_of_ascii a)
           (list_ascii_of_string s).

(** The byte of a line feed. *)
Definition LF : list byte := [Byte.x0a].

Module JsString.

(** ECMAScript [WhiteSpace] and [LineTerminator] code points, the set
    removed by [String.prototype.trim]. *)
Definition isWhiteSpace (c : Z) : bool :=
  (c =? 9) || (c =? 10) || (c =? 11) || (c =? 12) || (c =? 13) || (c =? 32)
  || (c =? 160) || (c =? 5760) || ((8192 <=? c) && (c <=? 8202))
  || (c =? 8232) || (c =? 8233) || (c =? 8239) || (c =? 8287)
  || (c =? 12288) || (c =? 65279).

Fixpoint trimStart (s : jsstring) : jsstring :=
  match s with
  | c :: r => if isWhiteSpace c then trimStart r else s
  | [] => []
  end.

Definition trimEnd (s : jsstring) : jsstring := rev (trimStart (rev s)).

(** [s.trim()] *)
Definition trim (s : jsstring) : jsstring := trimEnd (trimStart s).

(** Truthiness of a string: non-empty. *)
Definition nonEmpty (s : jsstring) : bool :=
  match s with [] => false | _ => true end.

(** [s.split(sep)] for a one-code-unit separator.  The result is never
    empty: [''.split(sep)] is [['']]. *)
Fixpoint split (sep : Z) (s : jsstring) : list jsstring :=
  match s with
  | [] => [[]]
  | c :: r =>
      if c =? sep then [] :: split sep r
      else match split sep r with
           | l :: ls => (c :: l) :: ls
           | [] => [[c]]
           end
  end.

(** [s.slice(0, n)] for [0 <= n]. *)
Definition slice0 (n : nat) (s : jsstring) : jsstring := firstn n s.

Definition eqb (a b : jsstring) : bool := bool_decide (a = b).

(** Does [s] start with [p]? *)
Fixpoint isPrefix (p s : jsstring) : bool :=
  match p, s with
  | [], _ => true
  | a :: p', b :: s' => (a =? b) && isPrefix p' s'
  | _ :: _, [] => false
  end.

(** The code points of [s], as the string iterator ([for (const ch of s)],
    [[...s]]) reads them: a high surrogate followed by a low surrogate is
    one code point, every other code unit is one by itself. *)
Fixpoint codePoints (s : jsstring) : list Z :=
  match s with
  | [] => []
  | c :: r =>
      match r with
      | d :: r' =>
          if (55296 <=? c) && (c <=? 56319) && (56320 <=? d) && (d <=? 57343)
          then (65536 + (c - 55296) * 1024 + (d - 56320)) :: codePoints r'
          else c :: codePoints r
      | [] => [c]
      end
  end.

(** [s.includes(q)]: [q] occurs in [s] at some position. *)
Fixpoint includes (s q : jsstring) : bool :=
  isPrefix q s || match s with [] => false | _ :: r => includes r q end.

End JsString.

(* ===================================================================== *)
(** * TextDecoder (UTF-8, streaming)                                      *)
(* ===================================================================== *)

(** [new TextDecoder()] followed only by [decode(value, {stream: true})]
    calls, as [chatStream] uses it: the WHATWG UTF-8 decoder with error mode
    "replacement", whose state survives from one call to the next, followed
    by the removal of one leading byte order mark. *)
Module TextDecoder.

Record t := mk {
  codePoint : Z;
  bytesSeen : Z;
  bytesNeeded : Z;
  lowerBoundary : Z;
  upperBoundary : Z;
  bomSeen : bool
}.

(** The state of a freshly constructed decoder. *)
Definition create : t := mk 0 0 0 128 191 false.

Definition reset (d : t) : t := mk 0 0 0 128 191 (bomSeen d).

(** Steps 3 of the UTF-8 decoder's handler: a byte met when no sequence is
    pending.  [None] is the handler's "error". *)
Definition lead (d : t) (b : Z) : t * option Z :=
  if (0 <=? b) && (b <=? 127) then (d, Some b)
  else if (194 <=? b) && (b <=? 223) then
    (mk (Z.land b 31) 0 1 128 191 (bomSeen d), None)
  else if (224 <=? b) && (b <=? 239) then
    (mk (Z.land b 15) 0 2 (if b =? 224 then 160 else 128)
        (if b =? 237 then 159 else 191) (bomSeen d), None)
  else if (240 <=? b) && (b <=? 244) then
    (mk (Z.land b 7) 0 3 (if b =? 240 then 144 else 128)
        (if b =? 244 then 143 else 191) (bomSeen d), None)
  else (d, Some 65533).

(** One byte through the handler: the new state and the code points it
    emits (an ill-formed sequence gives U+FFFD and the offending byte is
    processed again as a lead byte). *)
Definition handler (d : t) (b : Z) : t * list Z :=
  if bytesNeeded d =? 0 then
    let '(d', o) := lead d b in (d', match o with Some c => [c] | None => [] end)
  else if negb ((lowerBoundary d <=? b) && (b <=? upperBoundary d)) then
    let '(d', o) := lead (reset d) b in
    (d', 65533 :: match o with Some c => [c] | None => [] end)
  else
    let cp := Z.lor (Z.shiftl (codePoint d) 6) (Z.land b 63) in
    let seen := bytesSeen d + 1 in
    if seen =? bytesNeeded d then (reset d, [cp])
    else (mk cp seen (bytesNeeded d) 128 191 (bomSeen d), []).

(** A code point as UTF-16 code units. *)
Definition utf16 (cp : Z) : jsstring :=
  if cp <? 65536 then [cp]
  else [55296 + Z.shiftr (cp - 65536) 10; 56320 + Z.land (cp - 65536) 1023].

(** Serialising the emitted code points: the first one of the whole stream
    is dropped when it is U+FEFF. *)
Definition serialize (d : t) (cp : Z) : t * jsstring :=
  if bomSeen d then (d, utf16 cp)
  else
    let d' := mk (codePoint d) (bytesSeen d) (bytesNeeded d)
                 (lowerBoundary d) (upperBoundary d) true in
    (d', if cp =? 65279 then [] else utf16 cp).

Fixpoint serializeAll (d : t) (cps : list Z) : t * jsstring :=
  match cps with
  | [] => (d, [])
  | cp :: r =>
      let '(d1, s1) := serialize d cp in
      let '(d2, s2) := serializeAll d1 r in
      (d2, s1 ++ s2)
  end.

Definition step (d : t) (b : byte) : t * jsstring :=
  let '(d1, cps) := handler d (Z.of_N (Byte.to_N b)) in
  serializeAll d1 cps.

(** [decoder.decode(value, {stream: true})]: the text produced by the bytes
    of [value]; an incomplete trailing sequence stays in the state. *)
Fixpoint decode (d : t) (value : list byte) : t * jsstring :=
  match value with
  | [] => (d, [])
  | b :: r =>
      let '(d1, s1) := step d b in
      let '(d2, s2) := decode d1 r in
      (d2, s1 ++ s2)
  end.

End TextDecoder.

(* ===================================================================== *)
(** * JavaScript numbers                                                  *)
(* ===================================================================== *)

(** Numbers are IEEE-754 binary64 values; [+], [-], [*] and [/] on numbers
    are the primitive operations of [PrimFloat].  The functions below are
    the ECMAScript algorithms the sources reach through [Math.round],
    [toFixed], [String(n)], template literals and numeric literals in JSON
    text; they work on the exact rational value of a number. *)
Module Number.

Definition isNaN (x : float) : bool := negb (PrimFloat.eqb x x).

Definition pow2 (e : Z) : Q :=
  if 0 <=? e then inject_Z (2 ^ e) else Qmake 1 (Z.to_pos (2 ^ (- e))).

Definition pow10 (e : Z) : Q :=
  if 0 <=? e then inject_Z (10 ^ e) else Qmake 1 (Z.to_pos (10 ^ (- e))).

Definition Qltb (a b : Q) : bool := negb (Qle_bool b a).

(** The mathematical value of a finite number (0 for the others). *)
Definition toQ (x : float) : Q :=
  match Prim2SF x with
  | S754_finite s m e =>
      Qmult (inject_Z (if s then Zneg m else Zpos m)) (pow2 e)
  | _ => inject_Z 0
  end.

(** The Number value for an integer: round to nearest, ties to even. *)
Definition ofZ (n : Z) : float :=
  SF2Prim (binary_normalize prec emax n 0 false).

(** The Number value for the decimal [m * 10^e] with [0 <= m], negated
    when [neg]. *)
Definition ofDecimal (neg : bool) (m e : Z) : float :=
  match m with
  | Zpos p =>
      if 0 <=? e then
        SF2Prim (binary_round prec emax neg (Z.to_pos (Zpos p * 10 ^ e)) 0)
      else
        SF2Prim (SFdiv prec emax (S754_finite neg p 0)
                       (S754_finite false (Z.to_pos (10 ^ (- e))) 0))
  | _ => if neg then (-0)%float else 0%float
  end.

(** [Math.round(x)]: the closest integral number, ties towards +Infinity;
    the sign of a zero result is the sign of [x] on [-0.5 <= x < 0]. *)
Definition round (x : float) : float :=
  match Prim2SF x with
  | S754_finite s m e =>
      if 0 <=? e then x
      else
        let sm := if s then Zneg m else Zpos m in
        let n := (2 * sm + 2 ^ (- e)) / 2 ^ (1 - e) in
        if n =? 0 then (if s then (-0)%float else 0%float) else ofZ n
  | _ => x
  end.

(** Decimal digits of a non-negative integer. *)
Definition digits (n : Z) : jsstring :=
  js (NilZero.string_of_uint (N.to_uint (Z.to_N n))).

Definition zeros (n : Z) : jsstring := repeat 48 (Z.to_nat n).

(** ** Number::toString

    For a positive finite [m * 2^e]: the integers [n], [k], [s] with
    [10^(k-1) <= s < 10^k], [s * 10^(n-k)] rounding to the number, [k] as
    small as possible and, among those, [s * 10^(n-k)] closest to it. *)

(** Does the real [v] round to [m * 2^e]? *)
Definition roundsTo (m : positive) (e : Z) (v : Q) : bool :=
  let x := Qmult (inject_Z (Zpos m)) (pow2 e) in
  let hi := Qplus x (pow2 (e - 1)) in
  let lo :=
    if (Zpos m =? 2 ^ (prec - 1)) && (SpecFloat.emin prec emax <? e)
    then Qminus x (pow2 (e - 2)) else Qminus x (pow2 (e - 1)) in
  if Z.even (Zpos m) then Qle_bool lo v && Qle_bool v hi
  else Qltb lo v && Qltb v hi.

(** The least [n >= start] with [x < 10^n]. *)
Fixpoint magnitudeFrom (fuel : nat) (x : Q) (n : Z) : Z :=
  match fuel with
  | O => n
  | S f => if Qltb x (pow10 n) then n else magnitudeFrom f x (n + 1)
  end.

(** The [n] with [10^(n-1) <= m * 2^e < 10^n]; the search starts below
    it, from the bit length of the number. *)
Definition magnitude (m : positive) (e : Z) : Z :=
  let bits := Z.log2 (Zpos m) + e in
  magnitudeFrom 8 (Qmult (inject_Z (Zpos m)) (pow2 e))
                (bits * 30103 / 100000 - 1).

(** The [k]-digit candidates around the number, if one rounds to it. *)
Definition candidate (m : positive) (e n0 k : Z) : option Z :=
  let x := Qmult (inject_Z (Zpos m)) (pow2 e) in
  let p := pow10 (n0 - k) in
  let sl := Qfloor (Qdiv x p) in
  let c1 := Qmult (inject_Z sl) p in
  let c2 := Qmult (inject_Z (sl + 1)) p in
  match roundsTo m e c1, roundsTo m e c2 with
  | true, true =>
      let d1 := Qminus x c1 in
      let d2 := Qminus c2 x in
      if Qltb d1 d2 then Some sl
      else if Qltb d2 d1 then Some (sl + 1)
      else if Z.even sl then Some sl else Some (sl + 1)
  | true, false => Some sl
  | false, true => Some (sl + 1)
  | false, false => None
  end.

Fixpoint shortest (fuel : nat) (m : positive) (e n0 k : Z) : Z * Z :=
  match fuel with
  | O => (Qfloor (Qdiv (Qmult (inject_Z (Zpos m)) (pow2 e)) (pow10 (n0 - k))), k)
  | S f =>
      match candidate m e n0 k with
      | Some s => (s, k)
      | None => shortest f m e n0 (k + 1)
      end
  end.

Definition format (s k n : Z) : jsstring :=
  let ds := digits s in
  if (-5 <=? n) && (n <=? 21) then
    if k <=? n then ds ++ zeros (n - k)
    else if 0 <? n then firstn (Z.to_nat n) ds ++ [46] ++ skipn (Z.to_nat n) ds
    else [48; 46] ++ zeros (- n) ++ ds
  else
    let ex := [101; if n <? 0 then 45 else 43] ++ digits (Z.abs (n - 1)) in
    if k =? 1 then ds ++ ex
    else firstn 1 ds ++ [46] ++ skipn 1 ds ++ ex.

Definition toStringPos (m : positive) (e : Z) : jsstring :=
  let n0 := magnitude m e in
  let '(s, k) := shortest 17 m e n0 1 in
  if s =? 10 ^ k then format 1 1 (n0 + 1) else format s k n0.

(** [String(x)], [`${x}`]. *)
Definition toString (x : float) : jsstring :=
  match Prim2SF x with
  | S754_nan => js "NaN"
  | S754_zero _ => js "0"
  | S754_infinity s => (if s then [45] else []) ++ js "Infinity"
  | S754_finite s m e => (if s then [45] else []) ++ toStringPos m e
  end.

(** The integer [n] for which [n / 10^f - a] is as close to zero as
    possible, the larger one if there are two. *)
Definition nearest (f : nat) (a : Q) : Z :=
  Qfloor (Qplus (Qmult a (pow10 (Z.of_nat f))) (Qmake 1 2)).

(** [x.toFixed(f)] for [0 <= f <= 100]. *)
Definition toFixed (f : nat) (x : float) : jsstring :=
  match Prim2SF x with
  | S754_nan | S754_infinity _ => toString x
  | _ =>
      let q := toQ x in
      let sgn := if Qltb q (inject_Z 0) then [45] else [] in
      let a := Qabs q in
      if Qle_bool (pow10 21) a then sgn ++ toString (PrimFloat.abs x)
      else
        let m := digits (nearest f a) in
        match f with
        | O => sgn ++ m
        | _ =>
            let m' := if (length m <=? f)%nat
                      then repeat 48 (f + 1 - length m)%nat ++ m else m in
            let a := (length m' - f)%nat in
            sgn ++ firstn a m' ++ [46] ++ skipn a m'
        end
  end.

End Number.

(* ===================================================================== *)
(** * JavaScript values, exceptions and JSON.parse                        *)
(* ===================================================================== *)

(** The values [JSON.parse] can return, and [undefined] (a missing
    property).  The members of an object are kept in source order. *)
Inductive jsval :=
| JUndefined
| JNull
| JBool (b : bool)
| JNum (x : float)
| JStr (s : jsstring)
| JArr (elems : list jsval)
| JObj (props : list (jsstring * jsval)).

(** A thrown [Error] object: its [name] and [message]. *)
Record JsError := mkError { errName : jsstring; errMessage : jsstring }.

Definition TypeError (msg : jsstring) : JsError := mkError (js "TypeError") msg.

(** The outcome of evaluating JavaScript code that may throw. *)
Inductive Completion (A : Type) :=
| Normal (a : A)
| Throw (e : JsError).
Arguments Normal {A} a.
Arguments Throw {A} e.

(** Sequencing: [x ← c; k] runs [k] unless [c] threw. *)
#[global] Instance Completion_bind : MBind Completion :=
  fun A B k c =>
    match c with
    | Normal a => k a
    | Throw e => Throw e
    end.

Module JSON.

Definition isWhiteSpace (c : Z) : bool :=
  (c =? 9) || (c =? 10) || (c =? 13) || (c =? 32).

Fixpoint skipWs (s : jsstring) : jsstring :=
  match s with
  | c :: r => if isWhiteSpace c then skipWs r else s
  | [] => []
  end.

Definition isDigit (c : Z) : bool := (48 <=? c) && (c <=? 57).

Definition hexVal (c : Z) : option Z :=
  if isDigit c then Some (c - 48)
  else if (97 <=? c) && (c <=? 102) then Some (c - 87)
  else if (65 <=? c) && (c <=? 70) then Some (c - 55)
  else None.

(** A run of digits appended to [acc]; also the number of digits read. *)
Fixpoint readDigits (acc n : Z) (s : jsstring) : Z * Z * jsstring :=
  match s with
  | c :: r =>
      if isDigit c then readDigits (acc * 10 + (c - 48)) (n + 1) r
      else (acc, n, s)
  | [] => (acc, n, [])
  end.

(** The rest of [s] after its first code unit, when that is [c]. *)
Definition eat (c : Z) (s : jsstring) : option jsstring :=
  match s with
  | x :: r => if x =? c then Some r else None
  | [] => None
  end.

(** The integer part of a JSONNumber: [0], or a non-zero digit followed by
    digits. *)
Definition intPart (s : jsstring) : option (Z * jsstring) :=
  match s with
  | c :: r =>
      if isDigit c then
        if c =? 48 then Some (0, r)
        else let '(v, _, rest) := readDigits 0 0 s in Some (v, rest)
      else None
  | [] => None
  end.

(** The optional fraction, a point and at least one digit, appended to the
    digits [ip] of the integer part; also the number of fraction digits. *)
Definition fraction (ip : Z) (s : jsstring) : option (Z * Z * jsstring) :=
  match eat 46 s with
  | Some r =>
      let '(v, n, rest) := readDigits ip 0 r in
      if n =? 0 then None else Some (v, n, rest)
  | None => Some (ip, 0, s)
  end.

(** The optional exponent: [e] or [E], an optional sign and at least one
    digit. *)
Definition exponent (s : jsstring) : option (Z * jsstring) :=
  match s with
  | e :: r =>
      if (e =? 101) || (e =? 69) then
        let '(neg, r1) :=
          match eat 43 r, eat 45 r with
          | Some r', _ => (false, r')
          | None, Some r' => (true, r')
          | None, None => (false, r)
          end in
        let '(ev, n, rest) := readDigits 0 0 r1 in
        if n =? 0 then None else Some (if neg then - ev else ev, rest)
      else Some (0, s)
  | [] => Some (0, s)
  end.

(** JSONNumber: an optional minus sign, the integer part, the optional
    fraction and the optional exponent. *)
Definition parseNumber (s : jsstring) : option (jsval * jsstring) :=
  let '(neg, s1) := match eat 45 s with Some r => (true, r) | None => (false, s) end in
  match intPart s1 with
  | Some (ip, s2) =>
      match fraction ip s2 with
      | Some (m, fd, s3) =>
          match exponent s3 with
          | Some (ex, s4) => Some (JNum (Number.ofDecimal neg m (ex - fd)), s4)
          | None => None
          end
      | None => None
      end
  | None => None
  end.

(** The character a one-letter escape stands for. *)
Definition simpleEscape (e : Z) : option Z :=
  if e =? 34 then Some 34
  else if e =? 92 then Some 92
  else if e =? 47 then Some 47
  else if e =? 98 then Some 8
  else if e =? 102 then Some 12
  else if e =? 110 then Some 10
  else if e =? 114 then Some 13
  else if e =? 116 then Some 9
  else None.

(** The code unit of four hexadecimal digits. *)
Definition hex4 (h1 h2 h3 h4 : Z) : option Z :=
  match hexVal h1, hexVal h2, hexVal h3, hexVal h4 with
  | Some a, Some b, Some c, Some d => Some (((a * 16 + b) * 16 + c) * 16 + d)
  | _, _, _, _ => None
  end.

(** The characters of a JSONString after its opening quotation mark, up to
    and including the closing one. *)
Fixpoint parseChars (s : jsstring) : option (jsstring * jsstring) :=
  match s with
  | [] => None
  | c :: r =>
      if c =? 34 then Some ([], r)
      else if c =? 92 then
        match r with
        | e :: r' =>
            if e =? 117 then
              match r' with
              | h1 :: h2 :: h3 :: h4 :: r'' =>
                  match hex4 h1 h2 h3 h4, parseChars r'' with
                  | Some x, Some (str, rest) => Some (x :: str, rest)
                  | _, _ => None
                  end
              | _ => None
              end
            else
              match simpleEscape e, parseChars r' with
              | Some x, Some (str, rest) => Some (x :: str, rest)
              | _, _ => None
              end
        | [] => None
        end
      else if c <? 32 then None
      else
        match parseChars r with
        | Some (str, rest) => Some (c :: str, rest)
        | None => None
        end
  end.

Definition literal (word : string) (v : jsval) (s : jsstring)
  : option (jsval * jsstring) :=
  if JsString.isPrefix (js word) s
  then Some (v, skipn (String.length word) s) else None.

(** JSONValue, JSONElementList and JSONMemberList by recursive descent;
    [fuel] bounds the nesting. *)
Fixpoint parseValue (fuel : nat) (s : jsstring) : option (jsval * jsstring) :=
  match fuel with
  | O => None
  | S f =>
      match skipWs s with
      | [] => None
      | c :: r =>
          if c =? 123 then
            match eat 125 (skipWs r) with
            | Some r' => Some (JObj [], r')
            | None => parseMembers f r []
            end
          else if c =? 91 then
            match eat 93 (skipWs r) with
            | Some r' => Some (JArr [], r')
            | None => parseElements f r []
            end
          else if c =? 34 then
            match parseChars r with
            | Some (str, rest) => Some (JStr str, rest)
            | None => None
            end
          else if c =? 116 then literal "true" (JBool true) (c :: r)
          else if c =? 102 then literal "false" (JBool false) (c :: r)
          else if c =? 110 then literal "null" JNull (c :: r)
          else parseNumber (c :: r)
      end
  end
with parseElements (fuel : nat) (s : jsstring) (acc : list jsval)
  : option (jsval * jsstring) :=
  match fuel with
  | O => None
  | S f =>
      match parseValue f s with
      | Some (v, rest) =>
          match eat 44 (skipWs rest), eat 93 (skipWs rest) with
          | Some rest', _ => parseElements f rest' (acc ++ [v])
          | None, Some rest' => Some (JArr (acc ++ [v]), rest')
          | None, None => None
          end
      | None => None
      end
  end
with parseMembers (fuel : nat) (s : jsstring) (acc : list (jsstring * jsval))
  : option (jsval * jsstring) :=
  match fuel with
  | O => None
  | S f =>
      match eat 34 (skipWs s) with
      | Some r =>
          match parseChars r with
          | Some (key, r1) =>
              match eat 58 (skipWs r1) with
              | Some r2 =>
                  match parseValue f r2 with
                  | Some (v, rest) =>
                      match eat 44 (skipWs rest), eat 125 (skipWs rest) with
                      | Some rest', _ => parseMembers f rest' (acc ++ [(key, v)])
                      | None, Some rest' => Some (JObj (acc ++ [(key, v)]), rest')
                      | None, None => None
                      end
                  | None => None
                  end
              | None => None
              end
          | None => None
          end
      | None => None
      end
  end.

(** [JSON.parse(text)]; [None] stands for the [SyntaxError] it throws. *)
Definition parse (text : jsstring) : option jsval :=
  match parseValue (S (2 * length text)) text with
  | Some (v, rest) =>
      match skipWs rest with
      | [] => Some v
      | _ :: _ => None
      end
  | None => None
  end.

End JSON.

(* ===================================================================== *)
(** * Operators and coercions on values                                   *)
(* ===================================================================== *)

Module Js.

(** ToBoolean. *)
Definition truthy (v : jsval) : bool :=
  match v with
  | JUndefined | JNull => false
  | JBool b => b
  | JNum x => negb (Number.isNaN x || PrimFloat.eqb x 0)
  | JStr s => JsString.nonEmpty s
  | JArr _ | JObj _ => true
  end.

(** [a || b] *)
Definition or (a b : jsval) : jsval := if truthy a then a else b.

(** The own property [key] of an object built by [JSON.parse]: of several
    members with the same name the last one stays. *)
Fixpoint lookup (key : jsstring) (props : list (jsstring * jsval))
  : option jsval :=
  match props with
  | [] => None
  | (k, v) :: r =>
      match lookup key r with
      | Some v' => Some v'
      | None => if JsString.eqb k key then Some v else None
      end
  end.

Definition cannotRead (v : jsval) (key : jsstring) : JsError :=
  TypeError (js "Cannot read properties of "
             ++ (match v with JNull => js "null" | _ => js "undefined" end)
             ++ js " (reading '" ++ key ++ js "')").

(** [v.key], for a property name that no built-in prototype defines (this
    holds for every name the sources read from parsed JSON). *)
Definition get (v : jsval) (key : jsstring) : Completion jsval :=
  match v with
  | JUndefined | JNull => Throw (cannotRead v key)
  | JObj props => Normal (default JUndefined (lookup key props))
  | _ => Normal JUndefined
  end.

(** The value of [v?.key]: the member of an object, [undefined] where
    there is none and for every value that is not an object. *)
Definition field (v : jsval) (key : jsstring) : jsval :=
  match v with
  | JObj props => default JUndefined (lookup key props)
  | _ => JUndefined
  end.

(** [v?.key] *)
Definition getOpt (v : jsval) (key : jsstring) : Completion jsval :=
  match v with
  | JUndefined | JNull => Normal JUndefined
  | _ => get v key
  end.

Definition cannotConvert : JsError :=
  TypeError (js "Cannot convert object to primitive value").

(** ToString.  An array is joined with commas, [null] and [undefined]
    elements giving the empty string; a plain object gives
    ["[object Object]"], unless a member named [toString] shadows
    [Object.prototype.toString] with a value that cannot be called. *)
Fixpoint toString (v : jsval) : Completion jsstring :=
  match v with
  | JUndefined => Normal (js "undefined")
  | JNull => Normal (js "null")
  | JBool b => Normal (if b then js "true" else js "false")
  | JNum x => Normal (Number.toString x)
  | JStr s => Normal s
  | JArr elems =>
      (fix join (l : list jsval) : Completion jsstring :=
         match l with
         | [] => Normal []
         | e :: r =>
             s ← match e with
                 | JUndefined | JNull => Normal []
                 | _ => toString e
                 end;
             match r with
             | [] => Normal s
             | _ :: _ => t ← join r; Normal (s ++ [44] ++ t)
             end
         end) elems
  | JObj props =>
      match lookup (js "toString") props with
      | Some _ => Throw cannotConvert
      | None => Normal (js "[object Object]")
      end
  end.

(** ToPrimitive (the hint makes no difference on these values). *)
Definition toPrimitive (v : jsval) : Completion jsval :=
  match v with
  | JArr _ | JObj _ => s ← toString v; Normal (JStr s)
  | _ => Normal v
  end.

(** StringToNumber: the text, trimmed, as a StringNumericLiteral. *)
Definition allDigits (base : Z) (s : jsstring) : option Z :=
  match s with
  | [] => None
  | _ =>
      fold_left (fun acc c =>
                   match acc, JSON.hexVal c with
                   | Some a, Some d => if d <? base then Some (a * base + d) else None
                   | _, _ => None
                   end) s (Some 0)
  end.

Definition decimalLiteral (s : jsstring) : option float :=
  let '(neg, s1) :=
    match s with
    | 45 :: r => (true, r)
    | 43 :: r => (false, r)
    | _ => (false, s)
    end in
  if JsString.eqb s1 (js "Infinity")
  then Some (if neg then neg_infinity else infinity)
  else
    let '(ip, n1, s2) := JSON.readDigits 0 0 s1 in
    let '(m, n2, s3) :=
      match s2 with
      | 46 :: r => JSON.readDigits ip 0 r
      | _ => (ip, 0, s2)
      end in
    if (n1 =? 0) && (n2 =? 0) then None
    else
      match s3 with
      | [] => Some (Number.ofDecimal neg m (- n2))
      | e :: r4 =>
          if (e =? 101) || (e =? 69) then
            let '(eneg, r5) :=
              match r4 with
              | 43 :: r => (false, r)
              | 45 :: r => (true, r)
              | _ => (false, r4)
              end in
            match JSON.readDigits 0 0 r5 with
            | (ev, n, []) =>
                if n =? 0 then None
                else Some (Number.ofDecimal neg m ((if eneg then - ev else ev) - n2))
            | _ => None
            end
          else None
      end.

Definition stringToNumber (s : jsstring) : float :=
  let t := JsString.trim s in
  match t with
  | [] => 0%float
  | 48 :: p :: r =>
      if (p =? 120) || (p =? 88) then
        match allDigits 16 r with Some n => Number.ofZ n | None => nan end
      else if (p =? 111) || (p =? 79) then
        match allDigits 8 r with Some n => Number.ofZ n | None => nan end
      else if (p =? 98) || (p =? 66) then
        match allDigits 2 r with Some n => Number.ofZ n | None => nan end
      else match decimalLiteral t with Some x => x | None => nan end
  | _ => match decimalLiteral t with Some x => x | None => nan end
  end.

(** ToNumber of a primitive value. *)
Definition primToNumber (v : jsval) : float :=
  match v with
  | JNull => 0%float
  | JBool b => if b then 1%float else 0%float
  | JNum x => x
  | JStr s => stringToNumber s
  | _ => nan
  end.

(** ToNumber. *)
Definition toNumber (v : jsval) : Completion float :=
  p ← toPrimitive v; Normal (primToNumber p).

(** [a + b] *)
Definition add (a b : jsval) : Completion jsval :=
  pa ← toPrimitive a;
  pb ← toPrimitive b;
  match pa, pb with
  | JStr _, _ | _, JStr _ =>
      sa ← toString pa; sb ← toString pb; Normal (JStr (sa ++ sb))
  | _, _ => Normal (JNum (primToNumber pa + primToNumber pb))
  end.

(** [s + v] and [s += v] for a string [s]. *)
Definition append (s : jsstring) (v : jsval) : Completion jsstring :=
  p ← toPrimitive v; t ← toString p; Normal (s ++ t).

(** [a / b] *)
Definition div (a b : jsval) : Completion float :=
  x ← toNumber a; y ← toNumber b; Normal (x / y)%float.

(** [a >= b] with a number on the right. *)
Definition geNum (a : jsval) (y : float) : Completion bool :=
  x ← toNumber a; Normal (PrimFloat.leb y x).

(** SameValueZero, the equality of [Set.prototype.has], between a value
    of one parsed document and a value of another: primitives by value,
    objects and arrays never (they are distinct objects). *)
Definition sameValueZero (a b : jsval) : bool :=
  match a, b with
  | JUndefined, JUndefined => true
  | JNull, JNull => true
  | JBool x, JBool y => Bool.eqb x y
  | JNum x, JNum y => PrimFloat.eqb x y || (Number.isNaN x && Number.isNaN y)
  | JStr x, JStr y => JsString.eqb x y
  | _, _ => false
  end.

Definition notAFunction (what : jsstring) : JsError :=
  TypeError (what ++ js " is not a function").

(** The elements [v.map(...)] runs over: of the values [JSON.parse] makes
    only arrays have a [map]. *)
Definition elements (what : jsstring) (v : jsval) : Completion (list jsval) :=
  match v with
  | JArr l => Normal l
  | JUndefined | JNull => Throw (cannotRead v (js "map"))
  | _ => Throw (notAFunction (what ++ js ".map"))
  end.

(** [l.map(f)] where [f] may throw: the elements are visited in order and
    the first error ends the visit. *)
Fixpoint mapM {A B} (f : A -> Completion B) (l : list A) : Completion (list B) :=
  match l with
  | [] => Normal []
  | x :: r => y ← f x; ys ← mapM f r; Normal (y :: ys)
  end.

(** [l.some(f)] where [f] may throw. *)
Fixpoint someM {A} (f : A -> Completion bool) (l : list A) : Completion bool :=
  match l with
  | [] => Normal false
  | x :: r => b ← f x; if b : bool then Normal true else someM f r
  end.

(** [v.toLowerCase()], with the case mapping of strings as a parameter. *)
Definition lower (toLowerCase : jsstring -> jsstring) (what : jsstring)
           (v : jsval) : Completion jsstring :=
  match v with
  | JStr s => Normal (toLowerCase s)
  | JUndefined | JNull => Throw (cannotRead v (js "toLowerCase"))
  | _ => Throw (notAFunction (what ++ js ".toLowerCase"))
  end.

End Js.

(* ===================================================================== *)
(** * ollamaClient.ts                                                     *)
(* ===================================================================== *)

Module OllamaClient.

(** [interface ChatChunk].  The fields are copied from the parsed record,
    whose static type is [any], so each of them holds whatever value the
    record had there. *)
Record ChatChunk := mkChunk {
  content : jsval;
  thinking : jsval;
  done : jsval;
  promptTokens : jsval;
  evalTokens : jsval
}.

(** [interface Model] *)
Record Model := mkModel {
  name : jsstring;
  loaded : bool;
  modelContextLength : float;   (* the field [contextLength] *)
  supportsThinking : bool
}.

Inductive Role := user | assistant | system.

(** [interface ChatMessage] *)
Record ChatMessage := mkChatMessage {
  role : Role;
  text : jsstring   (* the field [content] *)
}.

(** The body of the POST request to [/api/chat]. *)
Record ChatRequest := mkRequest {
  reqModel : jsstring;
  reqMessages : list ChatMessage;
  reqStream : bool;
  reqThink : bool   (* [options: think ? { think: true } : undefined] *)
}.

(** What [reader.read()] delivers: the chunks of the response body, and
    then either the end of the stream or a rejection. *)
Inductive ReadEnd := EndOfStream | ReadFailed (e : JsError).

Record Body := mkBody { reads : list (list byte); ending : ReadEnd }.

(** A [Response]: [ok] is derived from the status as the Fetch standard
    defines it; [body] is [null] for a response without one. *)
Record Response := mkResponse {
  status : Z;
  statusText : jsstring;
  body : option Body
}.

Definition ok (res : Response) : bool :=
  (200 <=? status res) && (status res <=? 299).

(** The server as [fetch] sees it: a rejected promise is a [Throw]. *)
Definition Server := ChatRequest -> Completion Response.

(** A server that answers every request with status 200 and the given
    reads. *)
Definition respond (reads : list (list byte)) : Server :=
  fun _ => Normal (mkResponse 200 (js "OK") (Some (mkBody reads EndOfStream))).

(** The object literal built from a parsed record, lines 118-124 (and again
    136-141). *)
Definition toChunk (chunk : jsval) : Completion ChatChunk :=
  message ← Js.get chunk (js "message");
  c ← Js.getOpt message (js "content");
  message' ← Js.get chunk (js "message");
  t ← Js.getOpt message' (js "thinking");
  d ← Js.get chunk (js "done");
  p ← Js.get chunk (js "prompt_eval_count");
  e ← Js.get chunk (js "eval_count");
  Normal (mkChunk (Js.or c (JStr [])) (Js.or t (JStr []))
                  (Js.or d (JBool false)) p e).

(** The [try { JSON.parse ...; yield ... } catch { }] around one line: the
    chunk it yields, if any. *)
Definition tryLine (line : jsstring) : list ChatChunk :=
  match JSON.parse line with
  | Some chunk =>
      match toChunk chunk with
      | Normal c => [c]
      | Throw _ => []
      end
  | None => []
  end.

(** One candidate line: [if (!line.trim()) continue; try ...]. *)
Definition processLine (line : jsstring) : list ChatChunk :=
  if JsString.nonEmpty (JsString.trim line) then tryLine line else [].

(** What an async generator does: the values it yields, and the error it
    throws afterwards, if it does. *)
Record Stream := mkStream {
  yielded : list ChatChunk;
  thrown : option JsError
}.

(** The [while (true)] loop of lines 106-129 and the code after it, from
    the loop state ([decoder], [buffer]) and the reads still to come. *)
Fixpoint readLoop (decoder : TextDecoder.t) (buffer : jsstring)
         (reads : list (list byte)) (ending : ReadEnd) : Stream :=
  match reads with
  | [] =>
      match ending with
      | ReadFailed e => mkStream [] (Some e)
      | EndOfStream => mkStream (processLine buffer) None
      end
  | value :: rest =>
      let '(decoder', decoded) := TextDecoder.decode decoder value in
      let buffer := buffer ++ decoded in
      let lines := JsString.split 10 buffer in
      let buffer := List.last lines [] in     (* lines.pop() || [] *)
      let lines := List.removelast lines in
      let s := readLoop decoder' buffer rest ending in
      mkStream (flat_map processLine lines ++ yielded s) (thrown s)
  end.

Definition apiError (res : Response) : JsError :=
  mkError (js "Error")
          (js "Ollama API error: " ++ Number.toString (Number.ofZ (status res))
           ++ [32] ++ statusText res).

(** The generator behind [chatStream(model, messages, think)], from the
    outcome of its one [await fetch(...)]. *)
Definition streamOf (response : Completion Response) : Stream :=
  match response with
  | Throw e => mkStream [] (Some e)
  | Normal res =>
      if negb (ok res) then mkStream [] (Some (apiError res))
      else
        match body res with
        | None => mkStream [] (Some (Js.cannotRead JNull (js "getReader")))
        | Some b => readLoop TextDecoder.create [] (reads b) (ending b)
        end
  end.

(** [chatStream(model, messages, think)]: the requests it sends through
    [fetch], and the stream it is. *)
Definition chatStream (fetch : Server) (model : jsstring)
           (messages : list ChatMessage) (think : bool)
  : list ChatRequest * Stream :=
  let request := mkRequest model messages true think in
  ([request], streamOf (fetch request)).

(** The result of [chat]. *)
Record ChatResult := mkResult {
  resContent : jsstring;
  resThinking : jsstring;
  resPromptTokens : jsval;
  resEvalTokens : jsval
}.

(** The body of the [for await] loop of [chat], lines 159-162. *)
Definition collect (acc : ChatResult) (chunk : ChatChunk) : Completion ChatResult :=
  c ← Js.append (resContent acc) (content chunk);
  t ← Js.append (resThinking acc) (thinking chunk);
  let p := if Js.truthy (promptTokens chunk) then promptTokens chunk
           else resPromptTokens acc in
  let e := if Js.truthy (evalTokens chunk) then evalTokens chunk
           else resEvalTokens acc in
  Normal (mkResult c t p e).

Fixpoint forEach {A} (body : A -> ChatChunk -> Completion A) (acc : A)
         (chunks : list ChatChunk) : Completion A :=
  match chunks with
  | [] => Normal acc
  | c :: r => acc' ← body acc c; forEach body acc' r
  end.

(** [for await (const chunk of stream) body]: the body runs on each
    yielded chunk in turn; an error thrown by the body ends the loop, and
    the error of the generator surfaces after its last chunk. *)
Definition forAwait {A} (s : Stream) (body : A -> ChatChunk -> Completion A)
           (acc : A) : Completion A :=
  r ← forEach body acc (yielded s);
  match thrown s with
  | Some e => Throw e
  | None => Normal r
  end.

(** [chat(model, messages, think)] *)
Definition chat (fetch : Server) (model : jsstring)
           (messages : list ChatMessage) (think : bool) : Completion ChatResult :=
  forAwait (snd (chatStream fetch model messages think)) collect
           (mkResult [] [] (JNum 0) (JNum 0)).

(** The strings of the values [f] reads from the chunks, concatenated in
    order, as [+=] on a string does it. *)
Fixpoint concatenation (f : ChatChunk -> jsval) (chunks : list ChatChunk)
  : Completion jsstring :=
  match chunks with
  | [] => Normal []
  | c :: r =>
      x ← Js.toString (f c); rest ← concatenation f r; Normal (x ++ rest)
  end.

(** The last truthy value [f] reads from the chunks, [JNum 0] without one. *)
Definition lastTruthy (f : ChatChunk -> jsval) (chunks : list ChatChunk) : jsval :=
  fold_left (fun acc c => if Js.truthy (f c) then f c else acc) chunks (JNum 0).

(** As the specification words it, "the final token count the stream
    produced (0 if the stream produced none)": the count of the last chunk
    that carries one. *)
Definition finalCount (f : ChatChunk -> jsval) (chunks : list ChatChunk) : jsval :=
  fold_left (fun acc c => match f c with JUndefined => acc | v => v end)
            chunks (JNum 0).

(** The result of [getModelInfo]. *)
Record ModelInfo := mkModelInfo { contextLength : jsval; family : jsval }.

(** [getModelInfo(model)], from the outcome of [await res.json()] on the
    response of [/api/show]. *)
Definition getModelInfo (show : jsstring -> Completion jsval) (model : jsstring)
  : Completion ModelInfo :=
  data ← show model;
  info ← Js.get data (js "model_info");
  a ← Js.getOpt info (js "llama.context_length");
  b ← (if Js.truthy a then Normal a else
         info' ← Js.get data (js "model_info");
         Js.getOpt info' (js "context_length"));
  details ← Js.get data (js "details");
  f ← Js.getOpt details (js "family");
  Normal (mkModelInfo (Js.or (Js.or a b) (JNum 4096)) (Js.or f (JStr []))).

(** Model families known to support thinking. *)
Definition thinkingFamilies : list jsstring := [js "deepseek"; js "qwen"; js "qwq"].

(** The callback of [thinkingFamilies.some] on the entry [m], lines 56-59:
    [m.name.toLowerCase().includes(f) ||
     m.details?.family?.toLowerCase().includes(f)]. *)
Definition inFamily (toLowerCase : jsstring -> jsstring) (m : jsval)
           (f : jsstring) : Completion bool :=
  n ← Js.get m (js "name");
  ln ← Js.lower toLowerCase (js "m.name") n;
  if JsString.includes ln f then Normal true
  else
    details ← Js.get m (js "details");
    fam ← Js.getOpt details (js "family");
    match fam with
    | JUndefined | JNull => Normal false
    | _ =>
        lf ← Js.lower toLowerCase (js "m.details?.family?") fam;
        Normal (JsString.includes lf f)
    end.

(** The callback of [(tags.models || []).map], lines 52-60, on one entry,
    [loadedSet] being the values the set holds.  The entry's name is a
    string whenever the callback returns, since [toLowerCase] was called on
    it. *)
Definition toModel (toLowerCase : jsstring -> jsstring) (loadedSet : list jsval)
           (m : jsval) : Completion Model :=
  n ← Js.get m (js "name");
  n' ← Js.get m (js "name");
  let isLoaded := existsb (fun v => Js.sameValueZero v n') loadedSet in
  sup ← Js.someM (inFamily toLowerCase m) thinkingFamilies;
  match n with
  | JStr s => Normal (mkModel s isLoaded 4096 sup)
  | _ => Throw (Js.notAFunction (js "m.name.toLowerCase"))
  end.

(** [listModels()], from the outcome of [Promise.all] on the two requests
    and, when both are answered, the outcomes of [await tagsRes.json()] and
    [await psRes.json()]. *)
Definition listModels (toLowerCase : jsstring -> jsstring)
           (responses : Completion (Completion jsval * Completion jsval))
  : Completion (list Model) :=
  both ← responses;
  tags ← fst both;
  ps ← snd both;
  pm ← Js.get ps (js "models");
  loadedModels ← Js.elements (js "loadedModels") (Js.or pm (JArr []));
  loadedSet ← Js.mapM (fun m => Js.get m (js "model")) loadedModels;
  tm ← Js.get tags (js "models");
  entries ← Js.elements (js "(tags.models || [])") (Js.or tm (JArr []));
  Js.mapM (toModel toLowerCase loadedSet) entries.

(** The case mapping restricted to the letters A-Z, for examples written
    in ASCII. *)
Definition asciiLower (s : jsstring) : jsstring :=
  List.map (fun c => if (65 <=? c) && (c <=? 90) then c + 32 else c) s.

(** The answers of [/api/tags] and [/api/ps] with two installed models,
    the second one loaded. *)
Definition tagsExample : jsval :=
  JObj [(js "models", JArr [JObj [(js "name", JStr (js "llama3:8b"))];
                            JObj [(js "name", JStr (js "Qwen3:4b"))]])].

Definition psExample : jsval :=
  JObj [(js "models", JArr [JObj [(js "model", JStr (js "Qwen3:4b"))]])].

End OllamaClient.

(* ===================================================================== *)
(** * Date                                                                *)
(* ===================================================================== *)

(** Time values are integral milliseconds since the epoch.  The functions
    are those of the ECMAScript "Date" clause; the time zone of the host is
    a parameter. *)
Module JsDate.

Definition msPerDay : Z := 86400000.

Definition Day (t : Z) : Z := t / msPerDay.

Definition DaysInYear (y : Z) : Z :=
  if negb (y mod 4 =? 0) then 365
  else if negb (y mod 100 =? 0) then 366
  else if negb (y mod 400 =? 0) then 365
  else 366.

Definition DayFromYear (y : Z) : Z :=
  365 * (y - 1970) + (y - 1969) / 4 - (y - 1901) / 100 + (y - 1601) / 400.

Fixpoint yearDown (fuel : nat) (d y : Z) : Z :=
  match fuel with
  | O => y
  | S f => if d <? DayFromYear y then yearDown f d (y - 1) else y
  end.

Fixpoint yearUp (fuel : nat) (d y : Z) : Z :=
  match fuel with
  | O => y
  | S f => if DayFromYear (y + 1) <=? d then yearUp f d (y + 1) else y
  end.

(** The largest [y] with [DayFromYear y <= Day t], searched around the
    estimate given by the mean length of a year. *)
Definition YearFromTime (t : Z) : Z :=
  let d := Day t in
  yearUp 4 d (yearDown 4 d (1970 + d * 400 / 146097)).

Definition InLeapYear (t : Z) : bool := DaysInYear (YearFromTime t) =? 366.

Definition DayWithinYear (t : Z) : Z := Day t - DayFromYear (YearFromTime t).

(** The day of the year on which month [m] (0-11) starts. *)
Definition monthStart (leap : bool) (m : Z) : Z :=
  let l := if leap then 1 else 0 in
  if m <=? 0 then 0 else if m =? 1 then 31 else if m =? 2 then 59 + l
  else if m =? 3 then 90 + l else if m =? 4 then 120 + l
  else if m =? 5 then 151 + l else if m =? 6 then 181 + l
  else if m =? 7 then 212 + l else if m =? 8 then 243 + l
  else if m =? 9 then 273 + l else if m =? 10 then 304 + l
  else if m =? 11 then 334 + l else 365 + l.

Fixpoint monthFrom (fuel : nat) (leap : bool) (d m : Z) : Z :=
  match fuel with
  | O => m
  | S f => if d <? monthStart leap (m + 1) then m else monthFrom f leap d (m + 1)
  end.

Definition MonthFromTime (t : Z) : Z :=
  monthFrom 11 (InLeapYear t) (DayWithinYear t) 0.

Definition DateFromTime (t : Z) : Z :=
  DayWithinYear t - monthStart (InLeapYear t) (MonthFromTime t) + 1.

Definition MakeDay (year month date : Z) : Z :=
  let ym := year + month / 12 in
  let mn := month mod 12 in
  DayFromYear ym + monthStart (DaysInYear ym =? 366) mn + date - 1.

Definition MakeDate (day time : Z) : Z := day * msPerDay + time.

(** [None] is the time value NaN of an invalid date. *)
Definition TimeClip (t : Z) : option Z :=
  if Z.abs t <=? 8640000000000000 then Some t else None.

(** The host's time zone: the offset of local time from UTC, in
    milliseconds, at a UTC time value and at a local time value. *)
Record TimeZone := mkZone {
  offsetAtUTC : Z -> Z;
  offsetAtLocal : Z -> Z
}.

Definition utc : TimeZone := mkZone (fun _ => 0) (fun _ => 0).

Definition LocalTime (tz : TimeZone) (t : Z) : Z := t + offsetAtUTC tz t.
Definition UTC (tz : TimeZone) (t : Z) : Z := t - offsetAtLocal tz t.

Definition getFullYear (tz : TimeZone) (t : Z) : Z := YearFromTime (LocalTime tz t).
Definition getMonth (tz : TimeZone) (t : Z) : Z := MonthFromTime (LocalTime tz t).
Definition getDate (tz : TimeZone) (t : Z) : Z := DateFromTime (LocalTime tz t).

(** [new Date(year, month, date)]: local midnight of that day; a year from
    0 to 99 is taken as 1900 + year. *)
Definition ofYMD (tz : TimeZone) (year month date : Z) : option Z :=
  let yr := if (0 <=? year) && (year <=? 99) then 1900 + year else year in
  TimeClip (UTC tz (MakeDate (MakeDay yr month date) 0)).

(** [d >= t], [d < t] for a valid [d] and a possibly invalid [t]. *)
Definition ge (d : Z) (t : option Z) : bool :=
  match t with Some x => x <=? d | None => false end.
Definition lt (d : Z) (t : option Z) : bool :=
  match t with Some x => d <? x | None => false end.

End JsDate.

(* ===================================================================== *)
(** * chatManager.ts                                                      *)
(* ===================================================================== *)

(** The store of chat sessions.  [save()] only hands the collection to the
    host's [globalState]; it changes neither [chats] nor [activeId] and is
    left out.  [uuid()] and [new Date()] are inputs of the operations that
    call them. *)
Module ChatManager.

Inductive Role := user | assistant.

(** [interface Message] *)
Record Message := mkMessage {
  role : Role;
  content : jsstring;
  thinking : option jsstring;
  thinkingTime : option float;
  timestamp : Z
}.

(** [interface Chat] *)
Record Chat := mkChat {
  id : jsstring;
  title : jsstring;
  model : jsstring;
  createdAt : Z;
  messages : list Message;
  contextUsed : jsval;
  contextTotal : jsval
}.

(** [interface ChatsGroupedByDate] *)
Record ChatsGroupedByDate := mkGroups {
  today : list Chat;
  yesterday : list Chat;
  older : list Chat
}.

(** The fields of the class. *)
Record t := mk {
  chats : list Chat;
  activeId : option jsstring
}.

(** [c.id === id] *)
Definition hasId (i : jsstring) (c : Chat) : bool := JsString.eqb (id c) i.

(** [c.id === this.activeId], where [activeId] may be [null]. *)
Definition isActive (a : option jsstring) (c : Chat) : bool :=
  match a with
  | Some i => hasId i c
  | None => false
  end.

(** [this.chats[0]?.id || null] *)
Definition firstId (l : list Chat) : option jsstring :=
  match l with
  | c :: _ => if JsString.nonEmpty (id c) then Some (id c) else None
  | [] => None
  end.

(** [const chat = this.chats.find(p); if (chat) { chat.f = ... }]: the
    first chat satisfying [p] is changed in place. *)
Fixpoint modifyFirst (p : Chat -> bool) (f : Chat -> Chat) (l : list Chat)
  : list Chat :=
  match l with
  | [] => []
  | c :: r => if p c then f c :: r else c :: modifyFirst p f r
  end.

(** The store right after construction, with nothing in [globalState]. *)
Definition empty : t := mk [] None.

(** [load()], from the chats revived from [globalState]. *)
Definition load (data : list Chat) : t := mk data (firstId data).

(** [createChat(model)], with [uuid()] giving [newId] at time [now]. *)
Definition createChat (newId : jsstring) (now : Z) (model : jsstring) (s : t)
  : t * Chat :=
  let chat := mkChat newId (js "New Chat") model now [] (JNum 0) (JNum 4096) in
  (mk (chat :: chats s) (Some (id chat)), chat).

Definition getActive (s : t) : option Chat :=
  List.find (isActive (activeId s)) (chats s).

Definition setActive (i : jsstring) (s : t) : t :=
  if existsb (hasId i) (chats s) then mk (chats s) (Some i) else s.

Definition getAll (s : t) : list Chat := chats s.

Definition getById (i : jsstring) (s : t) : option Chat :=
  List.find (hasId i) (chats s).

Definition setTitle (x : jsstring) (c : Chat) : Chat :=
  mkChat (id c) x (model c) (createdAt c) (messages c)
         (contextUsed c) (contextTotal c).

Definition renameChat (i : jsstring) (newTitle : jsstring) (s : t) : t :=
  let x := JsString.trim newTitle in
  mk (modifyFirst (hasId i)
                  (setTitle (if JsString.nonEmpty x then x else js "New Chat"))
                  (chats s))
     (activeId s).

Definition deleteChat (i : jsstring) (s : t) : t :=
  let chats' := List.filter (fun c => negb (hasId i c)) (chats s) in
  mk chats'
     (if bool_decide (activeId s = Some i) then firstId chats'
      else activeId s).

(** The body of [if (chat) { ... }] in [addMessage]. *)
Definition pushMessage (msg : Message) (c : Chat) : Chat :=
  let messages' := messages c ++ [msg] in
  let title' :=
    if (length messages' =? 1)%nat
       && match role msg with user => true | assistant => false end
    then
      let x := JsString.trim (content msg) in
      JsString.slice0 40 x ++ (if (40 <? length x)%nat then js "..." else [])
    else title c in
  mkChat (id c) title' (model c) (createdAt c) messages'
         (contextUsed c) (contextTotal c).

Definition addMessage (chatId : jsstring) (msg : Message) (s : t) : t :=
  mk (modifyFirst (hasId chatId) (pushMessage msg) (chats s)) (activeId s).

Definition updateContext (chatId : jsstring) (used total : jsval) (s : t) : t :=
  mk (modifyFirst (hasId chatId)
        (fun c => mkChat (id c) (title c) (model c) (createdAt c) (messages c)
                         used total)
        (chats s))
     (activeId s).

Definition updateModel (chatId : jsstring) (m : jsstring) (s : t) : t :=
  mk (modifyFirst (hasId chatId)
        (fun c => mkChat (id c) (title c) m (createdAt c) (messages c)
                         (contextUsed c) (contextTotal c))
        (chats s))
     (activeId s).

(** The two boundaries computed at the start of [getChatsGroupedByDate]:
    local midnight of the day of [now], and 24 hours before it. *)
Definition todayStart (tz : JsDate.TimeZone) (now : Z) : option Z :=
  JsDate.ofYMD tz (JsDate.getFullYear tz now) (JsDate.getMonth tz now)
               (JsDate.getDate tz now).

Definition yesterdayStart (tz : JsDate.TimeZone) (now : Z) : option Z :=
  match todayStart tz now with
  | Some t => JsDate.TimeClip (t - 86400000)
  | None => None
  end.

(** [getChatsGroupedByDate()], called at time [now]. *)
Definition getChatsGroupedByDate (tz : JsDate.TimeZone) (now : Z) (s : t)
  : ChatsGroupedByDate :=
  let today := todayStart tz now in
  let yesterday := yesterdayStart tz now in
  mkGroups
    (List.filter (fun c => JsDate.ge (createdAt c) today) (chats s))
    (List.filter (fun c => JsDate.ge (createdAt c) yesterday
                           && JsDate.lt (createdAt c) today) (chats s))
    (List.filter (fun c => JsDate.lt (createdAt c) yesterday) (chats s)).

Definition clearAllChats (s : t) : t := mk [] None.

(** The active pointer is [null] or the id of a chat of the collection. *)
Definition activeOk (s : t) : bool :=
  match activeId s with
  | Some i => existsb (hasId i) (chats s)
  | None => true
  end.

(** Every id is a non-empty string, as those [uuid()] makes are. *)
Definition idsOk (l : list Chat) : bool :=
  forallb (fun c => JsString.nonEmpty (id c)) l.

(** The collection is ordered by recency: no chat was created after one
    that stands before it. *)
Fixpoint recencyOrdered (l : list Chat) : bool :=
  match l with
  | [] => true
  | c :: r => forallb (fun c' => createdAt c' <=? createdAt c) r && recencyOrdered r
  end.

(** The calls a client can make on the store. *)
Inductive Op :=
| CreateChat (newId : jsstring) (now : Z) (model : jsstring)
| SetActive (i : jsstring)
| RenameChat (i : jsstring) (newTitle : jsstring)
| DeleteChat (i : jsstring)
| AddMessage (chatId : jsstring) (msg : Message)
| UpdateContext (chatId : jsstring) (used total : jsval)
| UpdateModel (chatId : jsstring) (m : jsstring)
| ClearAllChats.

Definition run (o : Op) (s : t) : t :=
  match o with
  | CreateChat newId now m => fst (createChat newId now m s)
  | SetActive i => setActive i s
  | RenameChat i x => renameChat i x s
  | DeleteChat i => deleteChat i s
  | AddMessage i msg => addMessage i msg s
  | UpdateContext i u x => updateContext i u x s
  | UpdateModel i m => updateModel i m s
  | ClearAllChats => clearAllChats s
  end.

(** The store after a sequence of calls, the first call first. *)
Definition runAll (ops : list Op) (s : t) : t :=
  fold_left (fun s o => run o s) ops s.

(** A call as the application makes it: [uuid()] gives a non-empty id, and
    [new Date()] is not earlier than the creation of any chat of the store. *)
Definition opOk (s : t) (o : Op) : bool :=
  match o with
  | CreateChat newId now _ =>
      JsString.nonEmpty newId && forallb (fun c => createdAt c <=? now) (chats s)
  | _ => true
  end.

Fixpoint opsOk (ops : list Op) (s : t) : bool :=
  match ops with
  | [] => true
  | o :: r => opOk s o && opsOk r (run o s)
  end.

(** A store with one new chat. *)
Definition oneChat : t :=
  runAll [CreateChat (js "a") 1000 (js "llama3")] empty.

(** Three chats, the newest first; the active one is the middle one. *)
Definition threeChats : t :=
  setActive (js "b")
    (runAll [CreateChat (js "a") 1000 (js "llama3");
             CreateChat (js "b") 2000 (js "llama3");
             CreateChat (js "c") 3000 (js "llama3")] empty).

(** [searchChats(query)], with the case mapping of strings as a
    parameter. *)
Definition searchChats (toLowerCase : jsstring -> jsstring) (query : jsstring)
           (s : t) : list Chat :=
  let q := JsString.trim (toLowerCase query) in
  if negb (JsString.nonEmpty q) then chats s
  else
    List.filter
      (fun c =>
         JsString.includes (toLowerCase (title c)) q
         || existsb (fun m => JsString.includes (toLowerCase (content m)) q)
                    (messages c))
      (chats s).

(** A call whose [uuid()] gives an id that no chat of the store has. *)
Definition opFresh (s : t) (o : Op) : bool :=
  match o with
  | CreateChat newId _ _ => negb (existsb (hasId newId) (chats s))
  | _ => true
  end.

Fixpoint opsFresh (ops : list Op) (s : t) : bool :=
  match ops with
  | [] => true
  | o :: r => opFresh s o && opsFresh r (run o s)
  end.

End ChatManager.

(* ===================================================================== *)
(** * contextTracker.ts                                                   *)
(* ===================================================================== *)

Module ContextTracker.

(** An entry of [tokenCounts]. *)
Record Counts := mkCounts { used : jsval; total : jsval }.

(** [interface ContextUsage] *)
Record ContextUsage := mkUsage {
  percent : float;
  usageUsed : jsval;    (* the field [used] *)
  usageTotal : jsval    (* the field [total] *)
}.

(** The class has the one field [tokenCounts], a [Map] from chat id to
    counts. *)
Abbreviation t := (gmap jsstring Counts).

Definition update (chatId : jsstring) (promptTokens evalTokens total : jsval)
           (m : t) : Completion t :=
  u ← Js.add promptTokens evalTokens;
  Normal (<[chatId := mkCounts u total]> m).

Definition getUsage (chatId : jsstring) (m : t) : Completion ContextUsage :=
  match m !! chatId with
  | None => Normal (mkUsage 0 (JNum 0) (JNum 4096))
  | Some data =>
      q ← Js.div (used data) (total data);
      Normal (mkUsage (Number.round (q * 1000) / 10)%float (used data) (total data))
  end.

Definition formatK (n : jsval) : Completion jsstring :=
  big ← Js.geNum n 1000;
  if big : bool then
    q ← Js.div n (JNum 1000);
    Normal (Number.toFixed 1 q ++ js "K")
  else Js.toString n.

Definition formatDisplay (chatId : jsstring) (m : t) : Completion jsstring :=
  u ← getUsage chatId m;
  a ← formatK (usageUsed u);
  b ← formatK (usageTotal u);
  Normal (Number.toString (percent u) ++ js "% " ++ [183; 32] ++ a
          ++ js " / " ++ b ++ js " context used").

(** As the specification words it, "a value >= 1000 is rendered as
    (value/1000) rounded to one decimal with a K suffix, otherwise rendered
    as the plain integer": the quotient of the integer [n] by 1000 as a
    decimal fraction, rounded to the nearest tenth, a tie away from zero. *)
Definition renderK (n : Z) : jsstring :=
  if 1000 <=? n then
    let m := (n + 50) / 100 in
    Number.digits (m / 10) ++ [46] ++ Number.digits (m mod 10) ++ js "K"
  else Number.digits n.

Definition reset (chatId : jsstring) (m : t) : t := delete chatId m.

Definition setTotal (chatId : jsstring) (total : jsval) (m : t) : t :=
  match m !! chatId with
  | Some existing => <[chatId := mkCounts (used existing) total]> m
  | None => <[chatId := mkCounts (JNum 0) total]> m
  end.

End ContextTracker.

(* ===================================================================== *)
(** * sidebarProvider.ts: handleSendMessage                               *)
(* ===================================================================== *)

(** One turn runs without interleaving with other calls on the provider.
    The state below is the part of [OllamaChatProvider] that
    [handleSendMessage] reads or writes, the messages posted to the webview
    and the requests sent to [/api/chat]. *)
Module SidebarProvider.

(** The messages [postMessage] sends to the webview. *)
Inductive Post :=
| addMessage (message : ChatManager.Message)
| streamStart
| streamUpdate (thinking content : jsstring) (thinkingTime : float)
| contextUpdate (display : jsstring) (usage : ContextTracker.ContextUsage)
| streamComplete (message : option ChatManager.Message)
| error (message : jsstring).

Record t := mk {
  view : option (list Post);   (* [this.view], with what was posted to it *)
  models : list OllamaClient.Model;
  chatManager : ChatManager.t;
  contextTracker : gmap jsstring ContextTracker.Counts;
  sent : list OllamaClient.ChatRequest
}.

(** What the turn gets from outside: the server behind [fetch], the
    outcome of [await res.json()] on [/api/show], and the clock. *)
Record Env := mkEnv {
  fetch : OllamaClient.Server;
  show : jsstring -> Completion jsval;
  userTime : Z;          (* [new Date()] of the user message *)
  startTime : Z;         (* [Date.now()] before the request *)
  chunkTime : nat -> Z;  (* [Date.now()] while chunk number [i] is handled *)
  endTime : Z            (* [new Date()] of the assistant message *)
}.

(** The local variables of the turn. *)
Record Locals := mkLocals {
  thinking : jsstring;
  content : jsstring;
  lastThinkingTime : float
}.

Definition withManager (m : ChatManager.t) (p : t) : t :=
  mk (view p) (models p) m (contextTracker p) (sent p).

Definition withTracker (c : gmap jsstring ContextTracker.Counts) (p : t) : t :=
  mk (view p) (models p) (chatManager p) c (sent p).

Definition withSent (r : list OllamaClient.ChatRequest) (p : t) : t :=
  mk (view p) (models p) (chatManager p) (contextTracker p) (sent p ++ r).

(** [this.view?.webview.postMessage(message)] *)
Definition postMessage (message : Post) (p : t) : t :=
  match view p with
  | Some log =>
      mk (Some (log ++ [message])) (models p) (chatManager p)
         (contextTracker p) (sent p)
  | None => p
  end.

(** [String(error)] for an [Error] object. *)
Definition errorString (e : JsError) : jsstring :=
  match errName e, errMessage e with
  | [], m => m
  | n, [] => n
  | n, m => n ++ js ": " ++ m
  end.

(** [x !== undefined] *)
Definition defined (v : jsval) : bool :=
  match v with JUndefined => false | _ => true end.

(** Lines 164-182: the context update on the final record.  The state
    reached so far stays when a step throws. *)
Definition reportUsage (env : Env) (chat : ChatManager.Chat)
           (chunk : OllamaClient.ChatChunk) (p : t) : t * option JsError :=
  match OllamaClient.getModelInfo (show env) (ChatManager.model chat) with
  | Throw e => (p, Some e)
  | Normal modelInfo =>
      match ContextTracker.update (ChatManager.id chat)
              (OllamaClient.promptTokens chunk) (OllamaClient.evalTokens chunk)
              (OllamaClient.contextLength modelInfo) (contextTracker p) with
      | Throw e => (p, Some e)
      | Normal tracker =>
          let p := withTracker tracker p in
          match Js.add (OllamaClient.promptTokens chunk)
                       (OllamaClient.evalTokens chunk) with
          | Throw e => (p, Some e)
          | Normal used =>
              let p := withManager
                         (ChatManager.updateContext (ChatManager.id chat) used
                            (OllamaClient.contextLength modelInfo) (chatManager p))
                         p in
              match ContextTracker.formatDisplay (ChatManager.id chat)
                                                 (contextTracker p) with
              | Throw e => (p, Some e)
              | Normal display =>
                  match ContextTracker.getUsage (ChatManager.id chat)
                                                (contextTracker p) with
                  | Throw e => (p, Some e)
                  | Normal usage => (postMessage (contextUpdate display usage) p, None)
                  end
              end
          end
      end
  end.

(** Lines 149-182: the body of the [for await] loop on chunk number [i]. *)
Definition onChunk (env : Env) (chat : ChatManager.Chat) (i : nat)
           (chunk : OllamaClient.ChatChunk) (st : Locals * t)
  : Locals * t * option JsError :=
  let '(l, p) := st in
  let afterThinking :=
    if Js.truthy (OllamaClient.thinking chunk) then
      x ← Js.append (thinking l) (OllamaClient.thinking chunk);
      Normal (mkLocals x (content l)
                (Number.round
                   (Number.ofZ (chunkTime env i - startTime env) / 1000)%float))
    else Normal l in
  match afterThinking with
  | Throw e => (l, p, Some e)
  | Normal l =>
      let afterContent :=
        if Js.truthy (OllamaClient.content chunk) then
          x ← Js.append (content l) (OllamaClient.content chunk);
          Normal (mkLocals (thinking l) x (lastThinkingTime l))
        else Normal l in
      match afterContent with
      | Throw e => (l, p, Some e)
      | Normal l =>
          let p := postMessage
                     (streamUpdate (thinking l) (content l) (lastThinkingTime l)) p in
          if Js.truthy (OllamaClient.done chunk)
             && defined (OllamaClient.promptTokens chunk)
             && defined (OllamaClient.evalTokens chunk)
          then let '(p, e) := reportUsage env chat chunk p in (l, p, e)
          else (l, p, None)
      end
  end.

(** The [for await] loop over the chunks the stream yields, from chunk
    number [i] on: it stops at the first error the body throws. *)
Fixpoint forAwait (env : Env) (chat : ChatManager.Chat) (i : nat)
         (chunks : list OllamaClient.ChatChunk) (st : Locals * t)
  : Locals * t * option JsError :=
  match chunks with
  | [] => (st, None)
  | chunk :: rest =>
      match onChunk env chat i chunk st with
      | (st', None) => forAwait env chat (S i) rest st'
      | (st', Some e) => (st', Some e)
      end
  end.

Definition toChatMessage (m : ChatManager.Message) : OllamaClient.ChatMessage :=
  OllamaClient.mkChatMessage
    match ChatManager.role m with
    | ChatManager.user => OllamaClient.user
    | ChatManager.assistant => OllamaClient.assistant
    end
    (ChatManager.content m).

(** [handleSendMessage(text)] *)
Definition handleSendMessage (env : Env) (text : jsstring) (p : t) : t :=
  match ChatManager.getActive (chatManager p) with
  | None => p
  | Some active =>
      if negb (JsString.nonEmpty (JsString.trim text)) then p
      else
        let userMsg := ChatManager.mkMessage ChatManager.user (JsString.trim text)
                                             None None (userTime env) in
        let p := withManager
                   (ChatManager.addMessage (ChatManager.id active) userMsg
                                           (chatManager p)) p in
        let p := postMessage (addMessage userMsg) p in
        let p := postMessage streamStart p in
        (* [chat] is the object found by [getActive], as [addMessage] left it *)
        let chat := default active
                      (ChatManager.getById (ChatManager.id active) (chatManager p)) in
        let messages := List.map toChatMessage (ChatManager.messages chat) in
        let supportsThinking :=
          match List.find (fun m => JsString.eqb (OllamaClient.name m)
                                                 (ChatManager.model chat))
                          (models p) with
          | Some m => OllamaClient.supportsThinking m
          | None => false
          end in
        let '(requests, stream) :=
          OllamaClient.chatStream (fetch env) (ChatManager.model chat) messages
                                  supportsThinking in
        let p := withSent requests p in
        let '(l, p, e) :=
          forAwait env chat 0 (OllamaClient.yielded stream) (mkLocals [] [] 0, p) in
        match (match e with Some _ => e | None => OllamaClient.thrown stream end) with
        | None =>
            let assistantMsg :=
              ChatManager.mkMessage ChatManager.assistant (content l)
                (if JsString.nonEmpty (thinking l) then Some (thinking l) else None)
                (if JsString.nonEmpty (thinking l) then Some (lastThinkingTime l)
                 else None)
                (endTime env) in
            let p := withManager
                       (ChatManager.addMessage (ChatManager.id chat) assistantMsg
                                               (chatManager p)) p in
            postMessage (streamComplete (Some assistantMsg)) p
        | Some err =>
            let p := postMessage (error (errorString err)) p in
            postMessage (streamComplete None) p
        end
  end.

End SidebarProvider.

(* ===================================================================== *)
(** * JSON.parse never runs out of fuel                                   *)
(* ===================================================================== *)

Section ParserFuel.

Lemma skipWs_length s : (length (JSON.skipWs s) <= length s)%nat.
Proof.
  induction s as [|c r IH]; simpl; [lia|].
  destruct (JSON.isWhiteSpace c); simpl; lia.
Qed.

Lemma eat_length c s r : JSON.eat c s = Some r -> length s = S (length r).
Proof.
  destruct s as [|x s]; simpl; [discriminate|].
  destruct (x =? c); [|discriminate]. intros [= <-]. reflexivity.
Qed.

Lemma readDigits_length s : forall acc n v k rest,
  JSON.readDigits acc n s = (v, k, rest) -> (length rest <= length s)%nat.
Proof.
  induction s as [|c r IH]; simpl; intros acc n v k rest.
  - intros [= <- <- <-]. simpl. lia.
  - destruct (JSON.isDigit c).
    + intros H. apply IH in H. lia.
    + intros [= <- <- <-]. simpl. lia.
Qed.

Lemma parseChars_length n : forall s str rest,
  (length s <= n)%nat ->
  JSON.parseChars s = Some (str, rest) -> (length rest < length s)%nat.
Proof.
  induction n as [|n IH]; intros s str rest Hn.
  - destruct s; [discriminate|simpl in Hn; lia].
  - destruct s as [|c r]; [discriminate|]. simpl in Hn. cbn [JSON.parseChars].
    destruct (c =? 34); [intros [= <- <-]; simpl; lia|].
    destruct (c =? 92).
    + destruct r as [|e r']; [discriminate|]. simpl in Hn.
      destruct (e =? 117).
      * destruct r' as [|h1 [|h2 [|h3 [|h4 r'']]]]; try discriminate.
        destruct (JSON.hex4 h1 h2 h3 h4); [|discriminate].
        destruct (JSON.parseChars r'') as [[s0 r0]|] eqn:E; [|discriminate].
        intros [= <- <-]. apply IH in E; simpl in *; lia.
      * destruct (JSON.simpleEscape e); [|discriminate].
        destruct (JSON.parseChars r') as [[s0 r0]|] eqn:E; [|discriminate].
        intros [= <- <-]. apply IH in E; simpl in *; lia.
    + destruct (c <? 32); [discriminate|].
      destruct (JSON.parseChars r) as [[s0 r0]|] eqn:E; [|discriminate].
      intros [= <- <-]. apply IH in E; simpl; lia.
Qed.

Lemma intPart_length s v rest :
  JSON.intPart s = Some (v, rest) -> (length rest < length s)%nat.
Proof.
  destruct s as [|c r]; [discriminate|]. cbn [JSON.intPart].
  destruct (JSON.isDigit c) eqn:Hd; [|discriminate].
  destruct (c =? 48); [intros [= <- <-]; simpl; lia|].
  cbn [JSON.readDigits]. rewrite Hd.
  destruct (JSON.readDigits _ _ r) as [[v' k] rest'] eqn:E.
  intros [= <- <-]. apply readDigits_length in E. simpl. lia.
Qed.

Lemma fraction_length ip s m fd rest :
  JSON.fraction ip s = Some (m, fd, rest) -> (length rest <= length s)%nat.
Proof.
  unfold JSON.fraction. destruct (JSON.eat 46 s) as [r|] eqn:E.
  - apply eat_length in E.
    destruct (JSON.readDigits ip 0 r) as [[v' k] rest'] eqn:Er.
    destruct (k =? 0); [discriminate|]. intros [= <- <- <-].
    apply readDigits_length in Er. lia.
  - intros [= <- <- <-]. lia.
Qed.

Lemma exponent_length s ex rest :
  JSON.exponent s = Some (ex, rest) -> (length rest <= length s)%nat.
Proof.
  destruct s as [|e r]; cbn [JSON.exponent]; [intros [= <- <-]; lia|].
  destruct ((e =? 101) || (e =? 69)); [|intros [= <- <-]; lia].
  assert (exists neg r1, match JSON.eat 43 r, JSON.eat 45 r with
                         | Some r', _ => (false, r')
                         | None, Some r' => (true, r')
                         | None, None => (false, r)
                         end = (neg, r1) /\ (length r1 <= length r)%nat)
    as (neg & r1 & -> & Hr1).
  { destruct (JSON.eat 43 r) as [r'|] eqn:E1.
    - apply eat_length in E1. exists false, r'. split; [reflexivity|lia].
    - destruct (JSON.eat 45 r) as [r'|] eqn:E2.
      + apply eat_length in E2. exists true, r'. split; [reflexivity|lia].
      + exists false, r. split; [reflexivity|lia]. }
  destruct (JSON.readDigits 0 0 r1) as [[v' k] rest'] eqn:Er.
  destruct (k =? 0); [discriminate|]. intros [= <- <-].
  apply readDigits_length in Er. simpl. lia.
Qed.

Lemma parseNumber_length s v rest :
  JSON.parseNumber s = Some (v, rest) -> (length rest < length s)%nat.
Proof.
  unfold JSON.parseNumber.
  assert (exists neg s1, match JSON.eat 45 s with
                         | Some r => (true, r)
                         | None => (false, s)
                         end = (neg, s1) /\ (length s1 <= length s)%nat)
    as (neg & s1 & -> & Hs1).
  { destruct (JSON.eat 45 s) as [r|] eqn:E.
    - apply eat_length in E. exists true, r. split; [reflexivity|lia].
    - exists false, s. split; [reflexivity|lia]. }
  destruct (JSON.intPart s1) as [[ip s2]|] eqn:E1; [|discriminate].
  destruct (JSON.fraction ip s2) as [[[m fd] s3]|] eqn:E2; [|discriminate].
  destruct (JSON.exponent s3) as [[ex s4]|] eqn:E3; [|discriminate].
  intros [= <- <-].
  apply intPart_length in E1. apply fraction_length in E2.
  apply exponent_length in E3. lia.
Qed.

Lemma isPrefix_length p s :
  JsString.isPrefix p s = true -> (length p <= length s)%nat.
Proof.
  revert s. induction p as [|a p IH]; intros [|b s]; simpl; try lia;
    try discriminate.
  intros H. apply andb_true_iff in H. destruct H as [_ H]. apply IH in H. lia.
Qed.

Lemma literal_length w v s v' rest :
  (0 < String.length w)%nat ->
  JSON.literal w v s = Some (v', rest) -> (length rest < length s)%nat.
Proof.
  intros Hw. unfold JSON.literal.
  destruct (JsString.isPrefix (js w) s) eqn:E; [|discriminate].
  intros [= <- <-]. apply isPrefix_length in E.
  assert (length (js w) = String.length w) as Hl.
  { unfold js. rewrite length_map. clear. induction w; simpl; auto. }
  rewrite length_skipn. lia.
Qed.

(** A parse that succeeds with some fuel consumes input, and succeeds with
    the same result on any fuel that is at least twice what it consumes. *)
Lemma parse_fuel f :
  (forall s v rest, JSON.parseValue f s = Some (v, rest) ->
     (length rest < length s)%nat
     /\ forall g, (2 * (length s - length rest) <= g + 1)%nat ->
                  JSON.parseValue g s = Some (v, rest))
  /\ (forall s acc v rest, JSON.parseElements f s acc = Some (v, rest) ->
     (length rest + 2 <= length s)%nat
     /\ forall g, (2 * (length s - length rest) <= g)%nat ->
                  JSON.parseElements g s acc = Some (v, rest))
  /\ (forall s acc v rest, JSON.parseMembers f s acc = Some (v, rest) ->
     (length rest + 2 <= length s)%nat
     /\ forall g, (2 * (length s - length rest) <= g)%nat ->
                  JSON.parseMembers g s acc = Some (v, rest)).
Proof.
  induction f as [|f (IHv & IHe & IHm)]; [repeat split; discriminate|].
  split; [|split].
  - intros s v rest. cbn [JSON.parseValue].
    pose proof (skipWs_length s) as Hws.
    destruct (JSON.skipWs s) as [|c r] eqn:Es; [discriminate|]. simpl in Hws.
    intros H.
    assert (Hscalar :
      forall (F : option (jsval * jsstring)),
        F = Some (v, rest) -> (length rest < length (c :: r))%nat ->
        (length rest < length s)%nat
        /\ forall g, (2 * (length s - length rest) <= g + 1)%nat -> (0 < g)%nat).
    { intros F _ Hl. simpl in Hl. split; lia. }
    destruct (c =? 123) eqn:C1.
    { pose proof (skipWs_length r) as Hwr.
      destruct (JSON.eat 125 (JSON.skipWs r)) as [r'|] eqn:E.
      - injection H as <- <-. pose proof (eat_length _ _ _ E) as LE.
        split; [lia|]. intros [|g] Hg; [lia|].
        cbn [JSON.parseValue]. rewrite Es, C1, E. reflexivity.
      - apply IHm in H. destruct H as [Hl Hg]. split; [lia|].
        intros [|g] Hg'; [lia|].
        cbn [JSON.parseValue]. rewrite Es, C1, E. apply Hg. lia. }
    destruct (c =? 91) eqn:C2.
    { pose proof (skipWs_length r) as Hwr.
      destruct (JSON.eat 93 (JSON.skipWs r)) as [r'|] eqn:E.
      - injection H as <- <-. pose proof (eat_length _ _ _ E) as LE.
        split; [lia|]. intros [|g] Hg; [lia|].
        cbn [JSON.parseValue]. rewrite Es, C1, C2, E. reflexivity.
      - apply IHe in H. destruct H as [Hl Hg]. split; [lia|].
        intros [|g] Hg'; [lia|].
        cbn [JSON.parseValue]. rewrite Es, C1, C2, E. apply Hg. lia. }
    assert (Hl : (length rest < length (c :: r))%nat).
    { destruct (c =? 34).
      { destruct (JSON.parseChars r) as [[str r0]|] eqn:E; [|discriminate].
        injection H as <- <-. apply (parseChars_length _ _ _ _ (le_n _)) in E.
        simpl. lia. }
      destruct (c =? 116); [apply literal_length in H; [exact H|simpl; lia]|].
      destruct (c =? 102); [apply literal_length in H; [exact H|simpl; lia]|].
      destruct (c =? 110); [apply literal_length in H; [exact H|simpl; lia]|].
      apply parseNumber_length in H. exact H. }
    simpl in Hl. split; [lia|]. intros [|g] Hg; [lia|].
    cbn [JSON.parseValue]. rewrite Es, C1, C2. exact H.
  - intros s acc v rest. cbn [JSON.parseElements].
    destruct (JSON.parseValue f s) as [[v1 rest1]|] eqn:Ev; [|discriminate].
    apply IHv in Ev. destruct Ev as [Hl1 Hg1].
    pose proof (skipWs_length rest1) as Hws.
    destruct (JSON.eat 44 (JSON.skipWs rest1)) as [rest'|] eqn:E1.
    + pose proof (eat_length _ _ _ E1) as LE1. intros H. apply IHe in H. destruct H as [Hl Hg].
      split; [lia|]. intros [|g] Hg'; [lia|].
      cbn [JSON.parseElements]. rewrite Hg1 by lia. rewrite E1. apply Hg. lia.
    + destruct (JSON.eat 93 (JSON.skipWs rest1)) as [rest'|] eqn:E2; [|discriminate].
      pose proof (eat_length _ _ _ E2) as LE2. intros [= <- <-].
      split; [lia|]. intros [|g] Hg'; [lia|].
      cbn [JSON.parseElements]. rewrite Hg1 by lia. rewrite E1, E2. reflexivity.
  - intros s acc v rest. cbn [JSON.parseMembers].
    pose proof (skipWs_length s) as Hws.
    destruct (JSON.eat 34 (JSON.skipWs s)) as [r|] eqn:Eq; [|discriminate].
    pose proof (eat_length _ _ _ Eq) as LEq.
    destruct (JSON.parseChars r) as [[key r1]|] eqn:Ek; [|discriminate].
    pose proof (parseChars_length _ _ _ _ (le_n _) Ek) as Hk.
    pose proof (skipWs_length r1) as Hws1.
    destruct (JSON.eat 58 (JSON.skipWs r1)) as [r2|] eqn:Ec; [|discriminate].
    pose proof (eat_length _ _ _ Ec) as LEc.
    destruct (JSON.parseValue f r2) as [[v1 rest1]|] eqn:Ev; [|discriminate].
    apply IHv in Ev. destruct Ev as [Hl1 Hg1].
    pose proof (skipWs_length rest1) as Hws2.
    destruct (JSON.eat 44 (JSON.skipWs rest1)) as [rest'|] eqn:E1.
    + pose proof (eat_length _ _ _ E1) as LE1. intros H. apply IHm in H. destruct H as [Hl Hg].
      split; [lia|]. intros [|g] Hg'; [lia|].
      cbn [JSON.parseMembers]. rewrite Eq, Ek, Ec. rewrite Hg1 by lia.
      rewrite E1. apply Hg. lia.
    + destruct (JSON.eat 125 (JSON.skipWs rest1)) as [rest'|] eqn:E2; [|discriminate].
      pose proof (eat_length _ _ _ E2) as LE2. intros [= <- <-].
      split; [lia|]. intros [|g] Hg'; [lia|].
      cbn [JSON.parseMembers]. rewrite Eq, Ek, Ec. rewrite Hg1 by lia.
      rewrite E1, E2. reflexivity.
Qed.

(** The fuel [JSON.parse] starts with is enough: whatever any fuel can
    parse, it parses. *)
Theorem parse_fuel_enough f text v rest :
  JSON.parseValue f text = Some (v, rest) ->
  JSON.parseValue (S (2 * length text)) text = Some (v, rest).
Proof.
  intros H. apply (proj1 (parse_fuel f)) in H. destruct H as [Hl Hg].
  apply Hg. lia.
Qed.

End ParserFuel.

(* ===================================================================== *)
(** * Properties of the streaming client                                  *)
(* ===================================================================== *)

Section ClientProperties.

Import OllamaClient.

Lemma split_nonempty sep s : JsString.split sep s <> [].
Proof.
  destruct s as [|c r]; simpl; [discriminate|].
  destruct (c =? sep); [discriminate|].
  destruct (JsString.split sep r); discriminate.
Qed.

Lemma last_app_nonempty {A} (l l' : list A) d :
  l' <> [] -> List.last (l ++ l') d = List.last l' d.
Proof.
  intros Hne. induction l as [|x l IH]; simpl; [reflexivity|].
  destruct (l ++ l') eqn:E; [|exact IH].
  apply app_eq_nil in E. destruct E as [_ E]. contradiction.
Qed.

(** Splitting a text that arrives in two parts: the complete lines of the
    first part, then the lines of its last fragment followed by the second
    part. *)
Lemma split_app sep a b :
  JsString.split sep (a ++ b) =
  List.removelast (JsString.split sep a)
  ++ JsString.split sep (List.last (JsString.split sep a) [] ++ b).
Proof.
  induction a as [|c r IH]; simpl; [reflexivity|].
  pose proof (split_nonempty sep r) as Hne.
  destruct (c =? sep) eqn:Hc.
  - destruct (JsString.split sep r) as [|x t] eqn:E; [contradiction|].
    rewrite IH. reflexivity.
  - rewrite IH.
    destruct (JsString.split sep r) as [|x [|y t]] eqn:E; [contradiction| |].
    + simpl. rewrite Hc. reflexivity.
    + reflexivity.
Qed.

Lemma split_no_sep sep s : ~ In sep s -> JsString.split sep s = [s].
Proof.
  induction s as [|c r IH]; simpl; intros Hn; [reflexivity|].
  destruct (Z.eqb_spec c sep) as [->|Hc]; [tauto|].
  rewrite IH by tauto. reflexivity.
Qed.

(** The fragment kept in [buffer] holds no line feed. *)
Lemma last_split_no_sep sep s : ~ In sep (List.last (JsString.split sep s) []).
Proof.
  induction s as [|c r IH]; simpl; [tauto|].
  pose proof (split_nonempty sep r) as Hne.
  destruct (Z.eqb_spec c sep) as [->|Hc].
  - destruct (JsString.split sep r) as [|x t]; [contradiction|]. exact IH.
  - destruct (JsString.split sep r) as [|x [|y t]]; [contradiction| |exact IH].
    simpl in *. intros [H|H]; [congruence|tauto].
Qed.

(** The decoder has no notion of a read: bytes give the same text however
    they are grouped into calls. *)
Lemma decode_app d a b :
  TextDecoder.decode d (a ++ b) =
  let '(d1, s1) := TextDecoder.decode d a in
  let '(d2, s2) := TextDecoder.decode d1 b in
  (d2, s1 ++ s2).
Proof.
  revert d. induction a as [|x a IH]; intros d; simpl.
  - destruct (TextDecoder.decode d b). reflexivity.
  - destruct (TextDecoder.step d x) as [d1 s1]. rewrite IH.
    destruct (TextDecoder.decode d1 a) as [d2 s2].
    destruct (TextDecoder.decode d2 b) as [d3 s3].
    rewrite app_assoc. reflexivity.
Qed.

(** The loop on one read, written out. *)
Lemma readLoop_single d buffer value ending :
  readLoop d buffer [value] ending =
  let lines := JsString.split 10 (buffer ++ snd (TextDecoder.decode d value)) in
  match ending with
  | EndOfStream =>
      mkStream (flat_map processLine (List.removelast lines)
                ++ processLine (List.last lines [])) None
  | ReadFailed e =>
      mkStream (flat_map processLine (List.removelast lines) ++ []) (Some e)
  end.
Proof.
  simpl. destruct (TextDecoder.decode d value) as [d' s]. simpl.
  destruct ending; reflexivity.
Qed.

(** From any loop state whose buffer holds no line feed, the reads can be
    merged into one. *)
Lemma readLoop_merge reads : forall d buffer ending,
  ~ In 10 buffer ->
  readLoop d buffer reads ending = readLoop d buffer [concat reads] ending.
Proof.
  induction reads as [|value rest IH]; intros d buffer ending Hbuf.
  - rewrite readLoop_single. simpl. rewrite app_nil_r.
    rewrite (split_no_sep _ _ Hbuf). simpl.
    destruct ending; reflexivity.
  - cbn [readLoop]. destruct (TextDecoder.decode d value) as [d1 s1] eqn:E1.
    rewrite IH by apply last_split_no_sep.
    rewrite !readLoop_single. cbn [concat].
    rewrite decode_app, E1.
    destruct (TextDecoder.decode d1 (concat rest)) as [d2 s2]. cbn [snd].
    rewrite (app_assoc buffer s1 s2), (split_app 10 (buffer ++ s1) s2).
    set (A := List.removelast (JsString.split 10 (buffer ++ s1))).
    set (B := JsString.split 10
                (List.last (JsString.split 10 (buffer ++ s1)) [] ++ s2)).
    assert (HB : B <> []) by apply split_nonempty.
    rewrite (removelast_app A HB), (last_app_nonempty A B [] HB), flat_map_app.
    destruct ending; cbn [yielded thrown]; rewrite <- ?app_assoc; reflexivity.
Qed.

Lemma skipWs_In s c r : JSON.skipWs s = c :: r -> In c s.
Proof.
  induction s as [|x s IH]; simpl; [discriminate|].
  destruct (JSON.isWhiteSpace x); intros H.
  - right. auto.
  - left. congruence.
Qed.

Lemma eat_Some c s r : JSON.eat c s = Some r -> s = c :: r.
Proof.
  destruct s as [|x s]; simpl; [discriminate|].
  destruct (Z.eqb_spec x c); congruence.
Qed.

Lemma parseNumber_first c r x :
  JSON.parseNumber (c :: r) = Some x -> c = 45 \/ JSON.isDigit c = true.
Proof.
  unfold JSON.parseNumber.
  destruct (JSON.eat 45 (c :: r)) as [r'|] eqn:E.
  - apply eat_Some in E. left. congruence.
  - cbn [JSON.intPart]. destruct (JSON.isDigit c); [auto|discriminate].
Qed.

(** A JSON text starts, after JSON white space, with a code unit that
    [trim] keeps. *)
Lemma parseValue_first fuel s x :
  JSON.parseValue fuel s = Some x ->
  exists c r, JSON.skipWs s = c :: r /\ JsString.isWhiteSpace c = false.
Proof.
  destruct fuel as [|f]; simpl; [discriminate|].
  destruct (JSON.skipWs s) as [|c r]; [discriminate|].
  intros H. exists c, r. split; [reflexivity|].
  assert (Hc : c = 123 \/ c = 91 \/ c = 34 \/ c = 116 \/ c = 102 \/ c = 110
               \/ c = 45 \/ JSON.isDigit c = true).
  { repeat match type of H with
           | (if ?a =? ?b then _ else _) = _ =>
               destruct (Z.eqb_spec a b); [tauto|]
           end.
    apply parseNumber_first in H. tauto. }
  unfold JSON.isDigit in Hc. unfold JsString.isWhiteSpace.
  repeat match goal with
         | |- context [?a =? ?b] => destruct (Z.eqb_spec a b); [lia|]
         end.
  destruct (Z.leb_spec 8192 c), (Z.leb_spec c 8202); simpl; try reflexivity.
  destruct (Z.leb_spec 48 c), (Z.leb_spec c 57); simpl in Hc; lia.
Qed.

Lemma trimStart_keeps s c :
  In c s -> JsString.isWhiteSpace c = false ->
  exists c' r, JsString.trimStart s = c' :: r /\ JsString.isWhiteSpace c' = false.
Proof.
  induction s as [|x s IH]; simpl; [tauto|].
  intros [->|Hin] Hc.
  - rewrite Hc. eauto.
  - destruct (JsString.isWhiteSpace x) eqn:Hx; eauto.
Qed.

Lemma trim_nonblank s c :
  In c s -> JsString.isWhiteSpace c = false ->
  JsString.nonEmpty (JsString.trim s) = true.
Proof.
  intros Hin Hc. unfold JsString.trim, JsString.trimEnd.
  destruct (trimStart_keeps s c Hin Hc) as (c1 & r1 & E1 & H1). rewrite E1.
  destruct (trimStart_keeps (rev (c1 :: r1)) c1) as (c2 & r2 & E2 & H2);
    [apply in_rev; rewrite rev_involutive; left; reflexivity|assumption|].
  rewrite E2. destruct (rev (c2 :: r2)) eqn:E; [|reflexivity].
  apply (f_equal (@rev Z)) in E. rewrite rev_involutive in E. discriminate.
Qed.

(** A line that [JSON.parse] accepts is not blank. *)
Lemma parse_nonblank line v :
  JSON.parse line = Some v -> JsString.nonEmpty (JsString.trim line) = true.
Proof.
  unfold JSON.parse.
  destruct (JSON.parseValue _ line) as [[v' rest]|] eqn:E; [|discriminate].
  intros _. apply parseValue_first in E. destruct E as (c & r & Hs & Hc).
  eapply trim_nonblank; [eapply skipWs_In; eassumption|assumption].
Qed.

(** [JSON.parse] never returns [undefined]. *)
Lemma parseValue_defined fuel :
  (forall s v r, JSON.parseValue fuel s = Some (v, r) -> v <> JUndefined)
  /\ (forall s acc v r, JSON.parseElements fuel s acc = Some (v, r) -> v <> JUndefined)
  /\ (forall s acc v r, JSON.parseMembers fuel s acc = Some (v, r) -> v <> JUndefined).
Proof.
  induction fuel as [|f (IHv & IHe & IHm)]; [repeat split; simpl; discriminate|].
  repeat split.
  - intros s v r. simpl.
    destruct (JSON.skipWs s) as [|c t]; [discriminate|].
    repeat match goal with
           | |- (if ?b then _ else _) = _ -> _ => destruct b
           | |- match ?x with _ => _ end = _ -> _ => destruct x as [[]|]
           | |- match ?x with _ => _ end = _ -> _ => destruct x
           end;
      try discriminate; try (intros [= <- <-]; discriminate); eauto.
    + unfold JSON.literal. destruct (JsString.isPrefix _ _); [|discriminate].
      intros [= <- <-]; discriminate.
    + unfold JSON.literal. destruct (JsString.isPrefix _ _); [|discriminate].
      intros [= <- <-]; discriminate.
    + unfold JSON.literal. destruct (JsString.isPrefix _ _); [|discriminate].
      intros [= <- <-]; discriminate.
    + unfold JSON.parseNumber.
      destruct (JSON.eat 45 _); destruct (JSON.intPart _) as [[ip s2]|];
        try discriminate;
        destruct (JSON.fraction ip s2) as [[[m fd] s3]|]; try discriminate;
        destruct (JSON.exponent s3) as [[ex s4]|]; try discriminate;
        intros [= <- <-]; discriminate.
  - intros s acc v r. simpl.
    destruct (JSON.parseValue f s) as [[v' rest]|]; [|discriminate].
    destruct (JSON.eat 44 _); [eauto|].
    destruct (JSON.eat 93 _); [|discriminate].
    intros [= <- <-]; discriminate.
  - intros s acc v r. simpl.
    destruct (JSON.eat 34 _); [|discriminate].
    destruct (JSON.parseChars _) as [[key r1]|]; [|discriminate].
    destruct (JSON.eat 58 _); [|discriminate].
    destruct (JSON.parseValue f _) as [[v' rest]|]; [|discriminate].
    destruct (JSON.eat 44 _); [eauto|].
    destruct (JSON.eat 125 _); [|discriminate].
    intros [= <- <-]; discriminate.
Qed.

Lemma parse_defined line v : JSON.parse line = Some v -> v <> JUndefined.
Proof.
  unfold JSON.parse.
  destruct (JSON.parseValue _ line) as [[v' rest]|] eqn:E; [|discriminate].
  destruct (JSON.skipWs rest); [|discriminate].
  intros [= <-]. eapply (proj1 (parseValue_defined _)). eassumption.
Qed.

(** Only [null] keeps a parsed value from giving a chunk. *)
Lemma toChunk_notnull v :
  v <> JNull -> v <> JUndefined -> exists c, toChunk v = Normal c.
Proof.
  intros H1 H2.
  destruct v as [| |b|x|s|l|props]; try contradiction;
    try (eexists; reflexivity).
  unfold toChunk, Js.get. cbn [mbind Completion_bind].
  destruct (default JUndefined (Js.lookup (js "message") props));
    eexists; reflexivity.
Qed.

Lemma processLine_valid line v :
  JSON.parse line = Some v -> v <> JNull ->
  exists c, toChunk v = Normal c /\ processLine line = [c].
Proof.
  intros Hp Hn. unfold processLine, tryLine.
  rewrite (parse_nonblank _ _ Hp), Hp.
  destruct (toChunk_notnull v Hn (parse_defined _ _ Hp)) as [c Hc].
  exists c. rewrite Hc. auto.
Qed.

Lemma processLine_malformed line : JSON.parse line = None -> processLine line = [].
Proof.
  intros Hp. unfold processLine, tryLine. rewrite Hp.
  destruct (JsString.nonEmpty _); reflexivity.
Qed.

Lemma split_line sep l rest :
  ~ In sep l -> JsString.split sep (l ++ sep :: rest) = l :: JsString.split sep rest.
Proof.
  induction l as [|c l IH]; simpl; intros Hn.
  - rewrite Z.eqb_refl. reflexivity.
  - destruct (Z.eqb_spec c sep) as [->|Hc]; [tauto|].
    rewrite IH by tauto. reflexivity.
Qed.

(** What the loop yields, read off the whole decoded text: the records of
    its lines, in order. *)
Lemma readLoop_lines reads :
  readLoop TextDecoder.create [] reads EndOfStream =
  mkStream (flat_map processLine
              (JsString.split 10
                 (snd (TextDecoder.decode TextDecoder.create (concat reads)))))
           None.
Proof.
  rewrite readLoop_merge by (simpl; tauto). rewrite readLoop_single.
  cbn [app]. set (lines := JsString.split 10 _).
  assert (Hne : lines <> []) by apply split_nonempty.
  rewrite (app_removelast_last [] Hne) at 3.
  rewrite flat_map_app. simpl. rewrite app_nil_r. reflexivity.
Qed.

(** C1 (frame splitting): however the bytes of a payload are grouped into
    reads, the frame-decoding loop of [chatStream] yields the same chunks in
    the same order, and ends the same way, as on the whole payload delivered
    in one read: in both runs these are the records of the lines of the
    decoded payload, in input order, blank lines giving none. *)
Theorem frame_splitting_invariant (reads : list (list byte)) :
  readLoop TextDecoder.create [] reads EndOfStream
  = readLoop TextDecoder.create [] [concat reads] EndOfStream
  /\ yielded (readLoop TextDecoder.create [] reads EndOfStream)
     = flat_map processLine
         (JsString.split 10
            (snd (TextDecoder.decode TextDecoder.create (concat reads)))).
Proof.
  split.
  - apply readLoop_merge. simpl. tauto.
  - rewrite readLoop_lines. reflexivity.
Qed.

(** The spec's three frames, cut in the middle of the first and of the
    third record. *)
Example frame_splitting_example :
  let payload := bytesq "{'message':{'content':'Hel'}}" ++ LF
                 ++ bytesq "{'message':{'content':'lo'}}" ++ LF
                 ++ bytesq "{'done':true,'prompt_eval_count':10,'eval_count':5}" ++ LF in
  yielded (readLoop TextDecoder.create []
             [firstn 10 payload; firstn 60 (skipn 10 payload); skipn 70 payload]
             EndOfStream)
  = [mkChunk (JStr (js "Hel")) (JStr []) (JBool false) JUndefined JUndefined;
     mkChunk (JStr (js "lo")) (JStr []) (JBool false) JUndefined JUndefined;
     mkChunk (JStr []) (JStr []) (JBool true) (JNum 10) (JNum 5)].
Proof. vm_compute. reflexivity. Qed.

(** A read boundary inside a two-byte character: the decoder keeps the
    first byte until the second arrives. *)
Example frame_splitting_inside_character :
  yielded (readLoop TextDecoder.create []
             [bytesq "{'message':{'content':'caf" ++ [Byte.xc3];
              [Byte.xa9] ++ bytesq "'}}" ++ LF]
             EndOfStream)
  = [mkChunk (JStr (js "caf" ++ [233])) (JStr []) (JBool false)
             JUndefined JUndefined].
Proof. vm_compute. reflexivity. Qed.

(** C2 as stated fails: [null] is a valid JSON line, and reading
    [chunk.message] from it throws inside the [try], so the line gives no
    chunk.  Here the two valid lines [null] and [{}] around a non-JSON line
    yield one chunk, not two. *)
Lemma null_line_yields_nothing :
  JSON.parse (js "null") = Some JNull
  /\ JSON.parse (js "oops") = None
  /\ JSON.parse (js "{}") = Some (JObj [])
  /\ snd (chatStream
            (respond [bytesq "null" ++ LF ++ bytesq "oops" ++ LF ++ bytesq "{}" ++ LF])
            (js "llama3") [] true)
     = mkStream [mkChunk (JStr []) (JStr []) (JBool false) JUndefined JUndefined]
                None.
Proof. vm_compute. repeat split; reflexivity. Qed.

(** C2, amended (malformed-line tolerance): when the body of a successful
    response decodes to two lines holding JSON values other than [null] with
    a line that is not JSON between them, [chatStream] yields exactly the
    chunks of the two valid lines, in order, and completes without an error;
    with a third such valid line in place of the malformed one it yields
    three chunks, one more. *)
Theorem malformed_line_skipped
  (status : Z) (statusText : jsstring) (reads reads' : list (list byte))
  (l1 bad l2 l3 tail : jsstring) (v1 v2 v3 : jsval) :
  200 <= status <= 299 ->
  snd (TextDecoder.decode TextDecoder.create (concat reads))
    = l1 ++ [10] ++ bad ++ [10] ++ l2 ++ tail ->
  snd (TextDecoder.decode TextDecoder.create (concat reads'))
    = l1 ++ [10] ++ l3 ++ [10] ++ l2 ++ tail ->
  tail = [] \/ tail = [10] ->
  ~ In 10 l1 -> ~ In 10 bad -> ~ In 10 l2 -> ~ In 10 l3 ->
  JSON.parse l1 = Some v1 -> v1 <> JNull ->
  JSON.parse l2 = Some v2 -> v2 <> JNull ->
  JSON.parse l3 = Some v3 -> v3 <> JNull ->
  JSON.parse bad = None ->
  exists c1 c2 c3,
    toChunk v1 = Normal c1 /\ toChunk v2 = Normal c2 /\ toChunk v3 = Normal c3
    /\ streamOf (Normal (mkResponse status statusText (Some (mkBody reads EndOfStream))))
       = mkStream [c1; c2] None
    /\ streamOf (Normal (mkResponse status statusText (Some (mkBody reads' EndOfStream))))
       = mkStream [c1; c3; c2] None.
Proof.
  intros Hst Ht Ht' Htail H1 Hb H2 H3 P1 N1 P2 N2 P3 N3 Pb.
  destruct (processLine_valid _ _ P1 N1) as (c1 & T1 & L1).
  destruct (processLine_valid _ _ P2 N2) as (c2 & T2 & L2).
  destruct (processLine_valid _ _ P3 N3) as (c3 & T3 & L3).
  exists c1, c2, c3. repeat split; try assumption.
  - unfold streamOf, ok. cbn [OllamaClient.status OllamaClient.body OllamaClient.reads OllamaClient.ending].
    replace ((200 <=? status) && (status <=? 299)) with true
      by (symmetry; apply andb_true_iff; split; apply Z.leb_le; lia).
    cbn [negb]. rewrite readLoop_lines, Ht. cbn [app].
    rewrite (split_line 10 l1) by assumption.
    rewrite (split_line 10 bad) by assumption.
    destruct Htail as [-> | ->].
    + rewrite app_nil_r, (split_no_sep 10 l2) by assumption.
      simpl. rewrite L1, L2, (processLine_malformed _ Pb). reflexivity.
    + rewrite (split_line 10 l2) by assumption.
      simpl. rewrite L1, L2, (processLine_malformed _ Pb). reflexivity.
  - unfold streamOf, ok. cbn [OllamaClient.status OllamaClient.body OllamaClient.reads OllamaClient.ending].
    replace ((200 <=? status) && (status <=? 299)) with true
      by (symmetry; apply andb_true_iff; split; apply Z.leb_le; lia).
    cbn [negb]. rewrite readLoop_lines, Ht'. cbn [app].
    rewrite (split_line 10 l1) by assumption.
    rewrite (split_line 10 l3) by assumption.
    destruct Htail as [-> | ->].
    + rewrite app_nil_r, (split_no_sep 10 l2) by assumption.
      simpl. rewrite L1, L2, L3. reflexivity.
    + rewrite (split_line 10 l2) by assumption.
      simpl. rewrite L1, L2, L3. reflexivity.
Qed.

(** C2 at a concrete stream: two records around the line [oops]. *)
Lemma malformed_line_skipped_witness :
  exists c1 c2 c3,
    toChunk (JObj [(js "message", JObj [(js "content", JStr (js "Hel"))])]) = Normal c1
    /\ toChunk (JObj [(js "done", JBool true)]) = Normal c2
    /\ toChunk (JNum 5) = Normal c3
    /\ streamOf (Normal (mkResponse 200 (js "OK")
         (Some (mkBody [bytesq "{'message':{'content':'Hel'}}" ++ LF ++ bytesq "oops" ++ LF;
                        bytesq "{'done':true}" ++ LF] EndOfStream))))
       = mkStream [c1; c2] None
    /\ streamOf (Normal (mkResponse 200 (js "OK")
         (Some (mkBody [bytesq "{'message':{'content':'Hel'}}" ++ LF ++ bytesq "5" ++ LF
                        ++ bytesq "{'done':true}" ++ LF] EndOfStream))))
       = mkStream [c1; c3; c2] None.
Proof.
  apply (malformed_line_skipped 200 (js "OK") _ _
           (jsq "{'message':{'content':'Hel'}}") (js "oops") (jsq "{'done':true}")
           (js "5") [10]).
  - lia.
  - vm_compute. reflexivity.
  - vm_compute. reflexivity.
  - right. reflexivity.
  - vm_compute. intuition discriminate.
  - vm_compute. intuition discriminate.
  - vm_compute. intuition discriminate.
  - vm_compute. intuition discriminate.
  - vm_compute. reflexivity.
  - discriminate.
  - vm_compute. reflexivity.
  - discriminate.
  - vm_compute. reflexivity.
  - discriminate.
  - vm_compute. reflexivity.
Defined.

Lemma append_toString s v :
  Js.append s v = (x ← Js.toString v; Normal (s ++ x)).
Proof.
  unfold Js.append, Js.toPrimitive.
  destruct v; try reflexivity; cbn [mbind Completion_bind];
    destruct (Js.toString _); reflexivity.
Qed.

Lemma collect_unfold acc k :
  collect acc k =
  match Js.toString (content k), Js.toString (thinking k) with
  | Normal c, Normal x =>
      Normal (mkResult (resContent acc ++ c) (resThinking acc ++ x)
                (if Js.truthy (promptTokens k) then promptTokens k
                 else resPromptTokens acc)
                (if Js.truthy (evalTokens k) then evalTokens k
                 else resEvalTokens acc))
  | Throw e, _ => Throw e
  | Normal _, Throw e => Throw e
  end.
Proof.
  unfold collect. rewrite !append_toString. cbn [mbind Completion_bind].
  destruct (Js.toString (content k)); [|reflexivity].
  destruct (Js.toString (thinking k)); reflexivity.
Qed.

(** The loop of [chat] from any accumulator. *)
Lemma forEach_collect chunks : forall acc r,
  forEach collect acc chunks = Normal r <->
  exists c x,
    concatenation content chunks = Normal c
    /\ concatenation thinking chunks = Normal x
    /\ r = mkResult (resContent acc ++ c) (resThinking acc ++ x)
             (fold_left (fun a k => if Js.truthy (promptTokens k)
                                    then promptTokens k else a)
                        chunks (resPromptTokens acc))
             (fold_left (fun a k => if Js.truthy (evalTokens k)
                                    then evalTokens k else a)
                        chunks (resEvalTokens acc)).
Proof.
  induction chunks as [|k rest IH]; intros acc r.
  - simpl. split.
    + intros [= <-]. exists [], []. rewrite !app_nil_r. destruct acc; auto.
    + intros (c & x & [= <-] & [= <-] & ->). rewrite !app_nil_r.
      destruct acc; reflexivity.
  - cbn [forEach concatenation fold_left]. rewrite collect_unfold.
    cbn [mbind Completion_bind].
    destruct (Js.toString (content k)) as [c0|e] eqn:Ec.
    2:{ split; [discriminate|]. intros (c & x & H & _). discriminate. }
    destruct (Js.toString (thinking k)) as [x0|e] eqn:Ex.
    2:{ split; [discriminate|].
        intros (c & x & _ & H & _).
        destruct (concatenation thinking rest); discriminate. }
    cbn [mbind Completion_bind]. rewrite IH.
    cbn [resContent resThinking resPromptTokens resEvalTokens].
    split.
    + intros (c & x & Hc & Hx & ->). exists (c0 ++ c), (x0 ++ x).
      rewrite Hc, Hx, !app_assoc. auto.
    + intros (c & x & Hc & Hx & ->).
      destruct (concatenation content rest) as [c'|]; [|discriminate].
      destruct (concatenation thinking rest) as [x'|]; [|discriminate].
      injection Hc as <-. injection Hx as <-.
      exists c', x'. rewrite !app_assoc. auto.
Qed.

(** C9 as stated fails on the token counts: [chat] keeps the last truthy
    count, so a final record whose count is 0 does not replace an earlier
    one.  The stream below ends with the prompt count 0; [chat] returns 10. *)
Lemma chat_ignores_final_zero_count :
  let fetch := respond [bytesq "{'prompt_eval_count':10}" ++ LF
                        ++ bytesq "{'done':true,'prompt_eval_count':0,'eval_count':5}" ++ LF] in
  let chunks := yielded (snd (chatStream fetch (js "llama3") [] true)) in
  chat fetch (js "llama3") [] true = Normal (mkResult [] [] (JNum 10) (JNum 5))
  /\ finalCount promptTokens chunks = JNum 0
  /\ JNum 10 <> JNum 0.
Proof.
  split; [vm_compute; reflexivity|].
  split; [vm_compute; reflexivity|].
  intros H. assert (E : Js.truthy (JNum 10) = Js.truthy (JNum 0)) by (rewrite H; reflexivity).
  vm_compute in E. discriminate.
Qed.

(** [chat] on the spec's three frames. *)
Example chat_three_frames :
  chat (respond [bytesq "{'message':{'content':'Hel'}}" ++ LF
                 ++ bytesq "{'message':{'content':'lo'}}" ++ LF
                 ++ bytesq "{'done':true,'prompt_eval_count':10,'eval_count':5}" ++ LF])
       (js "llama3") [] true
  = Normal (mkResult (js "Hello") [] (JNum 10) (JNum 5)).
Proof. vm_compute. reflexivity. Qed.

(** C9, amended: [chat] returns exactly when the stream of [chatStream] on
    the same inputs ends without an error and the content and thinking
    fields of its chunks can be turned into strings; the content and the
    thinking it returns are then the in-order concatenations of these
    fields, and its token counts are the last truthy (non-zero) prompt and
    evaluation counts among the chunks, or 0 if no chunk has one. *)
Theorem chat_collects_stream
  (fetch : Server) (model : jsstring) (messages : list ChatMessage)
  (think : bool) (r : ChatResult) :
  chat fetch model messages think = Normal r <->
  thrown (snd (chatStream fetch model messages think)) = None
  /\ concatenation content (yielded (snd (chatStream fetch model messages think)))
     = Normal (resContent r)
  /\ concatenation thinking (yielded (snd (chatStream fetch model messages think)))
     = Normal (resThinking r)
  /\ resPromptTokens r
     = lastTruthy promptTokens (yielded (snd (chatStream fetch model messages think)))
  /\ resEvalTokens r
     = lastTruthy evalTokens (yielded (snd (chatStream fetch model messages think))).
Proof.
  unfold chat, forAwait, lastTruthy. cbn [mbind Completion_bind].
  set (s := snd (chatStream fetch model messages think)).
  destruct (forEach collect _ (yielded s)) as [r'|e] eqn:E.
  - apply forEach_collect in E. destruct E as (c & x & Hc & Hx & ->).
    cbn [resContent resThinking resPromptTokens resEvalTokens app] in *.
    destruct (thrown s) as [e|].
    + split; [discriminate|]. intros [H _]. discriminate.
    + split.
      * intros [= <-]. cbn. auto.
      * intros (_ & Hc' & Hx' & Hp & He). destruct r as [rc rx rp re].
        cbn in *. rewrite Hc in Hc'. rewrite Hx in Hx'.
        injection Hc' as <-. injection Hx' as <-. subst. reflexivity.
  - split; [discriminate|]. intros (_ & Hc & Hx & Hp & He).
    assert (forEach collect (mkResult [] [] (JNum 0) (JNum 0)) (yielded s)
            = Normal r) as H.
    { apply forEach_collect. exists (resContent r), (resThinking r).
      destruct r as [rc rx rp re]. cbn in *. subst. auto. }
    rewrite H in E. discriminate.
Qed.

(** C9 on the spec's three frames: what [chat] returns, read off the
    stream. *)
Lemma chat_collects_stream_witness :
  let fetch := respond [bytesq "{'message':{'content':'Hel'}}" ++ LF
                        ++ bytesq "{'message':{'content':'lo'}}" ++ LF
                        ++ bytesq "{'done':true,'prompt_eval_count':10,'eval_count':5}" ++ LF] in
  let chunks := yielded (snd (chatStream fetch (js "llama3") [] true)) in
  concatenation content chunks = Normal (js "Hello")
  /\ concatenation thinking chunks = Normal []
  /\ lastTruthy promptTokens chunks = JNum 10
  /\ lastTruthy evalTokens chunks = JNum 5.
Proof.
  intros fetch chunks.
  destruct (proj1 (chat_collects_stream fetch (js "llama3") [] true
                     (mkResult (js "Hello") [] (JNum 10) (JNum 5))))
    as (_ & Hc & Hx & Hp & He).
  - vm_compute. reflexivity.
  - repeat split; auto.
Defined.

End ClientProperties.

(* ===================================================================== *)
(** * Properties of the session store                                     *)
(* ===================================================================== *)

Section StoreProperties.

Import ChatManager.

Lemma hasId_true i c : hasId i c = true <-> id c = i.
Proof. unfold hasId, JsString.eqb. apply bool_decide_eq_true. Qed.

Lemma hasId_false i c : hasId i c = false <-> id c <> i.
Proof. unfold hasId, JsString.eqb. apply bool_decide_eq_false. Qed.

(** Changing the first chat found leaves the ids in place. *)
Lemma existsb_modifyFirst p f i l :
  (forall c, id (f c) = id c) ->
  existsb (hasId i) (modifyFirst p f l) = existsb (hasId i) l.
Proof.
  intros Hf. induction l as [|c r IH]; simpl; [reflexivity|].
  destruct (p c); simpl; [|rewrite IH; reflexivity].
  unfold hasId. rewrite Hf. reflexivity.
Qed.

Lemma find_modifyFirst i f l :
  (forall c, id (f c) = id c) ->
  List.find (hasId i) (modifyFirst (hasId i) f l)
  = option_map f (List.find (hasId i) l).
Proof.
  intros Hf. induction l as [|c r IH]; simpl; [reflexivity|].
  destruct (hasId i c) eqn:E; simpl.
  - replace (hasId i (f c)) with true; [reflexivity|].
    symmetry. apply hasId_true. rewrite Hf. apply hasId_true. exact E.
  - rewrite E. exact IH.
Qed.

Lemma existsb_filter_other i j l :
  j <> i ->
  existsb (hasId j) (List.filter (fun c => negb (hasId i c)) l)
  = existsb (hasId j) l.
Proof.
  intros Hne. induction l as [|c r IH]; simpl; [reflexivity|].
  destruct (hasId i c) eqn:Ei; simpl.
  - rewrite IH. replace (hasId j c) with false; [reflexivity|].
    symmetry. apply hasId_false. apply hasId_true in Ei. congruence.
  - rewrite IH. reflexivity.
Qed.

Lemma firstId_exists l i : firstId l = Some i -> existsb (hasId i) l = true.
Proof.
  destruct l as [|c r]; simpl; [discriminate|].
  destruct (JsString.nonEmpty (id c)); [|discriminate].
  intros [= <-]. replace (hasId (id c) c) with true; [reflexivity|].
  symmetry. apply hasId_true. reflexivity.
Qed.

(** Every operation keeps the active pointer inside the collection. *)
Lemma run_activeOk o s : activeOk s = true -> activeOk (run o s) = true.
Proof.
  unfold activeOk. intros H.
  destruct o as [newId now m|i|i x|i|i msg|i u x|i m|]; cbn -[hasId].
  - replace (hasId newId _) with true; [reflexivity|].
    symmetry. apply hasId_true. reflexivity.
  - unfold setActive. destruct (existsb (hasId i) (chats s)) eqn:E; [|exact H].
    simpl. exact E.
  - destruct (activeId s) as [a|]; [|reflexivity].
    rewrite existsb_modifyFirst; [exact H|reflexivity].
  - destruct (bool_decide (activeId s = Some i)) eqn:E.
    + destruct (firstId _) as [j|] eqn:F; [|reflexivity].
      apply firstId_exists. exact F.
    + apply bool_decide_eq_false in E.
      destruct (activeId s) as [a|]; [|reflexivity].
      rewrite existsb_filter_other; [exact H|congruence].
  - destruct (activeId s) as [a|]; [|reflexivity].
    rewrite existsb_modifyFirst; [exact H|reflexivity].
  - destruct (activeId s) as [a|]; [|reflexivity].
    rewrite existsb_modifyFirst; [exact H|reflexivity].
  - destruct (activeId s) as [a|]; [|reflexivity].
    rewrite existsb_modifyFirst; [exact H|reflexivity].
  - reflexivity.
Qed.

Lemma runAll_activeOk ops : forall s,
  activeOk s = true -> activeOk (runAll ops s) = true.
Proof.
  induction ops as [|o ops IH]; intros s H; [exact H|].
  apply IH. apply run_activeOk. exact H.
Qed.

Lemma getActive_In s c : getActive s = Some c -> In c (chats s) /\ activeId s = Some (id c).
Proof.
  unfold getActive. intros H. apply find_some in H. destruct H as [Hin Ha].
  split; [exact Hin|]. unfold isActive in Ha.
  destruct (activeId s) as [a|]; [|discriminate].
  apply hasId_true in Ha. congruence.
Qed.

(** C10 (active pointer): after any sequence of store operations from the
    empty store, the active pointer is [null] or the id of a chat of the
    collection; [setActive] with an id that no chat has changes nothing; and
    what [getActive] returns is a chat of the collection, so after
    [deleteChat(i)] never one with the id [i]. *)
Theorem active_pointer_invariant (ops : list Op) (i : jsstring) :
  let s := runAll ops empty in
  (activeId s = None \/ exists c, In c (chats s) /\ activeId s = Some (id c))
  /\ (existsb (hasId i) (chats s) = false -> setActive i s = s)
  /\ (forall c, getActive s = Some c -> In c (chats s))
  /\ (forall c, getActive (deleteChat i s) = Some c ->
                In c (chats (deleteChat i s)) /\ In c (chats s) /\ id c <> i).
Proof.
  intros s. repeat split.
  - pose proof (runAll_activeOk ops empty eq_refl) as H. fold s in H.
    unfold activeOk in H. destruct (activeId s) as [a|]; [right|left; reflexivity].
    apply existsb_exists in H. destruct H as (c & Hin & Hc).
    exists c. split; [exact Hin|]. apply hasId_true in Hc. congruence.
  - intros H. unfold setActive. rewrite H. reflexivity.
  - intros c H. apply getActive_In in H. tauto.
  - apply getActive_In in H. tauto.
  - apply getActive_In in H. destruct H as [H _].
    cbn in H. apply filter_In in H. tauto.
  - apply getActive_In in H. destruct H as [H _].
    cbn in H. apply filter_In in H. destruct H as [_ H].
    apply negb_true_iff, hasId_false in H. exact H.
Qed.

(** C10 on a store with one chat: selecting an id that is not there. *)
Lemma active_pointer_invariant_witness :
  let s := runAll [CreateChat (js "a") 0 (js "llama3")] empty in
  activeId s = Some (js "a") /\ setActive (js "b") s = s.
Proof.
  pose proof (active_pointer_invariant [CreateChat (js "a") 0 (js "llama3")] (js "b"))
    as (_ & H & _).
  split; [reflexivity|]. apply H. reflexivity.
Defined.

Lemma filter_all_true {A} (p : A -> bool) l :
  forallb p l = true -> List.filter p l = l.
Proof.
  induction l as [|x l IH]; simpl; [reflexivity|].
  destruct (p x); simpl; [|discriminate]. intros H. rewrite IH by exact H.
  reflexivity.
Qed.

Lemma recencyOrdered_filter p l :
  recencyOrdered l = true -> recencyOrdered (List.filter p l) = true.
Proof.
  induction l as [|c r IH]; simpl; [reflexivity|].
  intros H. apply andb_true_iff in H. destruct H as [Hc Hr].
  destruct (p c); simpl; [|auto].
  rewrite IH by exact Hr. rewrite andb_true_r.
  apply forallb_forall. intros x Hx. apply filter_In in Hx.
  rewrite forallb_forall in Hc. apply Hc. tauto.
Qed.

(** The front of a recency-ordered collection is its most recent chat. *)
Lemma recencyOrdered_front c r :
  recencyOrdered (c :: r) = true ->
  forall x, In x (c :: r) -> createdAt x <= createdAt c.
Proof.
  simpl. intros H x [<-|Hx]; [lia|].
  apply andb_true_iff in H. destruct H as [Hc _].
  rewrite forallb_forall in Hc. apply Z.leb_le. auto.
Qed.

(** C7 (deleting a chat): [deleteChat(i)] keeps, in order, exactly the
    chats whose id is not [i].  If the active chat was the one deleted, the
    front of what remains becomes active: in a recency-ordered collection
    that is the most recently created remaining chat; no chat is active when
    nothing remains.  Otherwise the active pointer stays, and when no chat
    has the id [i] the whole store stays as it was. *)
Theorem deleteChat_reassigns_active (s : t) (i : jsstring) :
  activeOk s = true ->
  idsOk (chats s) = true ->
  recencyOrdered (chats s) = true ->
  (forall c, In c (chats (deleteChat i s)) <-> In c (chats s) /\ id c <> i)
  /\ (activeId s = Some i ->
      match chats (deleteChat i s) with
      | [] => activeId (deleteChat i s) = None
      | front :: _ =>
          activeId (deleteChat i s) = Some (id front)
          /\ forall c, In c (chats (deleteChat i s)) -> createdAt c <= createdAt front
      end)
  /\ (activeId s <> Some i -> activeId (deleteChat i s) = activeId s)
  /\ (existsb (hasId i) (chats s) = false -> deleteChat i s = s).
Proof.
  intros Hact Hids Hord. repeat split.
  - cbn in H. apply filter_In in H. tauto.
  - cbn in H. apply filter_In in H. destruct H as [_ H].
    apply negb_true_iff, hasId_false in H. exact H.
  - intros [Hin Hne]. cbn. apply filter_In. split; [exact Hin|].
    apply negb_true_iff, hasId_false. exact Hne.
  - intros Ha. cbn -[hasId]. rewrite bool_decide_eq_true_2 by exact Ha.
    destruct (List.filter _ (chats s)) as [|front rest] eqn:E; [reflexivity|].
    assert (Hin : In front (chats s)).
    { assert (In front (front :: rest)) as H by (left; reflexivity).
      rewrite <- E in H. apply filter_In in H. tauto. }
    split.
    + simpl. unfold idsOk in Hids. rewrite forallb_forall in Hids.
      rewrite (Hids front Hin). reflexivity.
    + apply recencyOrdered_front. rewrite <- E.
      apply recencyOrdered_filter. exact Hord.
  - intros Hne. cbn -[hasId]. rewrite bool_decide_eq_false_2 by exact Hne.
    reflexivity.
  - intros Hno. unfold deleteChat.
    assert (Hne : activeId s <> Some i).
    { intros Ha. unfold activeOk in Hact. rewrite Ha in Hact. congruence. }
    rewrite bool_decide_eq_false_2 by exact Hne.
    rewrite filter_all_true; [destruct s; reflexivity|].
    apply forallb_forall. intros c Hc. apply negb_true_iff.
    destruct (hasId i c) eqn:E; [|reflexivity].
    assert (existsb (hasId i) (chats s) = true) as H
      by (apply existsb_exists; eauto).
    congruence.
Qed.

(** C7 on three chats: deleting the active one, which is not the most
    recent, leaves the most recently created chat active. *)
Lemma deleteChat_reassigns_active_witness :
  activeId threeChats = Some (js "b")
  /\ List.map id (chats (deleteChat (js "b") threeChats)) = [js "c"; js "a"]
  /\ activeId (deleteChat (js "b") threeChats) = Some (js "c")
  /\ forall c, In c (chats (deleteChat (js "b") threeChats)) -> createdAt c <= 3000.
Proof.
  pose proof (deleteChat_reassigns_active threeChats (js "b")
                eq_refl eq_refl eq_refl) as (_ & H & _).
  specialize (H eq_refl). cbn in H.
  split; [reflexivity|]. split; [reflexivity|]. exact H.
Defined.

(** [trimStart] removes white space, all of it up to the first code unit
    that is none. *)
Lemma trimStart_spec (s : jsstring) :
  exists a,
    s = a ++ JsString.trimStart s
    /\ forallb JsString.isWhiteSpace a = true
    /\ (forall c r, JsString.trimStart s = c :: r -> JsString.isWhiteSpace c = false).
Proof.
  induction s as [|c s (a & Ha & Hws & Hhd)].
  - exists []. repeat split. intros c r [=].
  - cbn [JsString.trimStart]. destruct (JsString.isWhiteSpace c) eqn:E.
    + exists (c :: a). split; [simpl; congruence|]. split; [|exact Hhd].
      simpl. rewrite E. exact Hws.
    + exists []. split; [reflexivity|]. split; [reflexivity|].
      intros c' r [= <- _]. exact E.
Qed.

(** [trim] removes the white space at both ends and nothing else. *)
Lemma trim_spec (s : jsstring) :
  exists a b,
    s = a ++ JsString.trim s ++ b
    /\ forallb JsString.isWhiteSpace a = true
    /\ forallb JsString.isWhiteSpace b = true
    /\ (forall c r, JsString.trim s = c :: r -> JsString.isWhiteSpace c = false)
    /\ (forall r c, JsString.trim s = r ++ [c] -> JsString.isWhiteSpace c = false).
Proof.
  unfold JsString.trim, JsString.trimEnd.
  destruct (trimStart_spec s) as (a & Ha & Hwa & Hhd).
  set (t := JsString.trimStart s) in *.
  destruct (trimStart_spec (rev t)) as (b & Hb & Hwb & Hlast).
  set (u := JsString.trimStart (rev t)) in *.
  assert (Ht : t = rev u ++ rev b).
  { rewrite <- rev_app_distr, <- Hb, rev_involutive. reflexivity. }
  exists a, (rev b). split; [rewrite <- Ht; exact Ha|].
  split; [exact Hwa|]. split; [|split].
  - apply forallb_forall. intros x Hx. apply in_rev in Hx.
    rewrite forallb_forall in Hwb. apply Hwb. exact Hx.
  - intros c r Hc. apply (Hhd c (r ++ rev b)). rewrite Ht, Hc. reflexivity.
  - intros r c Hc. apply (Hlast c (rev r)).
    rewrite <- (rev_involutive u), Hc, rev_app_distr. reflexivity.
Qed.

(** C5, amended (title from the first message): [addMessage] appends the
    message to the chat it finds.  When that chat had no message and the
    message is from the user, the title is derived from the trimmed text,
    which is the content without the white space at its two ends: it
    becomes that text if it has at most 40 UTF-16 code units, and its first
    40 code units followed by ["..."] if it has more; when the chat already
    had a message, or the message is not from the user, the title stays. *)
Theorem addMessage_derives_title (s : t) (chatId : jsstring) (msg : Message)
        (chat : Chat) :
  getById chatId s = Some chat ->
  exists chat',
    getById chatId (addMessage chatId msg s) = Some chat'
    /\ messages chat' = messages chat ++ [msg]
    /\ (messages chat = [] -> role msg = user ->
        let text := JsString.trim (content msg) in
        (exists before after,
            content msg = before ++ text ++ after
            /\ forallb JsString.isWhiteSpace before = true
            /\ forallb JsString.isWhiteSpace after = true)
        /\ (forall c r, text = c :: r -> JsString.isWhiteSpace c = false)
        /\ (forall r c, text = r ++ [c] -> JsString.isWhiteSpace c = false)
        /\ ((length text <= 40)%nat -> title chat' = text)
        /\ ((40 < length text)%nat -> title chat' = firstn 40 text ++ js "..."))
    /\ (messages chat <> [] \/ role msg = assistant -> title chat' = title chat).
Proof.
  intros Hget. exists (pushMessage msg chat).
  split; [|split; [reflexivity|split]].
  - unfold getById, addMessage in *. cbn [chats].
    rewrite find_modifyFirst by reflexivity. rewrite Hget. reflexivity.
  - intros Hempty Huser text. subst text.
    destruct (trim_spec (content msg)) as (a & b & Hab & Ha & Hb & Hhd & Hlast).
    split; [exists a, b; auto|]. split; [exact Hhd|]. split; [exact Hlast|].
    unfold pushMessage. cbn [title].
    rewrite Hempty, Huser. cbn [app length Nat.eqb andb].
    unfold JsString.slice0. split; intros Hlen.
    + replace (40 <? _)%nat with false by (symmetry; apply Nat.ltb_ge; lia).
      rewrite app_nil_r. apply firstn_all2. exact Hlen.
    + replace (40 <? _)%nat with true by (symmetry; apply Nat.ltb_lt; lia).
      reflexivity.
  - intros Hother. unfold pushMessage. cbn [title].
    destruct Hother as [Hne | Hrole].
    + replace (length (messages chat ++ [msg]) =? 1)%nat with false; [reflexivity|].
      symmetry. apply Nat.eqb_neq. rewrite length_app. simpl.
      destruct (messages chat); [contradiction|simpl; lia].
    + rewrite Hrole, andb_false_r. reflexivity.
Qed.

(** C5 on the spec's example with white space around it (a tab and spaces
    before, a space and a line feed after): the title is the text of 34
    code units without them. *)
Lemma addMessage_derives_title_witness :
  exists chat',
    getById (js "a")
      (addMessage (js "a")
         (mkMessage user
            ([9; 32; 32] ++ js "Explain quicksort in detail please" ++ [32; 10])
            None None 2000)
         oneChat) = Some chat'
    /\ title chat' = js "Explain quicksort in detail please".
Proof.
  destruct (addMessage_derives_title oneChat (js "a")
              (mkMessage user
                 ([9; 32; 32] ++ js "Explain quicksort in detail please" ++ [32; 10])
                 None None 2000)
              (mkChat (js "a") (js "New Chat") (js "llama3") 1000 [] (JNum 0) (JNum 4096))
              eq_refl)
    as (chat' & Hget & _ & Htitle & _).
  exists chat'. split; [exact Hget|].
  destruct (Htitle eq_refl eq_refl) as (_ & _ & _ & Hshort & _).
  rewrite Hshort; [reflexivity|]. apply Nat.leb_le. reflexivity.
Defined.

(** C5, as first stated, on a first message of 40 characters, the last of
    them outside the Basic Multilingual Plane (U+1F600, the two code units
    D83D DE00): the text has 41 code units, so the title is not the full
    text but its first 40 code units, which end in the first half of the
    pair, and the ellipsis. *)
Lemma astral_title_is_cut :
  let text := js "012345678901234567890123456789012345678" ++ [55357; 56832] in
  let s' := addMessage (js "a") (mkMessage user text None None 2000) oneChat in
  length (JsString.codePoints text) = 40%nat
  /\ JsString.trim text = text
  /\ List.map title (chats s')
     = [js "012345678901234567890123456789012345678" ++ [55357] ++ js "..."]
  /\ List.map title (chats s') <> [text].
Proof.
  intros text s'.
  split; [reflexivity|]. split; [reflexivity|]. split; [reflexivity|].
  intros H. vm_compute in H. discriminate.
Qed.

(** A first message of 50 code units is cut to 40 and ["..."]. *)
Example addMessage_truncates_title :
  List.map title
    (chats (addMessage (js "a")
              (mkMessage user (js "0123456789012345678901234567890123456789ABCDEFGHIJ")
                         None None 2000)
              oneChat))
  = [js "0123456789012345678901234567890123456789..."].
Proof. reflexivity. Qed.

(** The stores the operations build: ids as [uuid()] makes them (never
    empty) and a clock that does not run backwards. *)
Lemma idsOk_modifyFirst p f l :
  (forall c, id (f c) = id c) -> idsOk l = true -> idsOk (modifyFirst p f l) = true.
Proof.
  intros Hf. unfold idsOk. induction l as [|c r IH]; simpl; [auto|].
  intros H. apply andb_true_iff in H. destruct H as [Hc Hr].
  destruct (p c); simpl; [rewrite Hf|]; rewrite Hc; simpl; auto.
Qed.

Lemma forallb_modifyFirst (q : Chat -> bool) p f l :
  (forall c, q (f c) = q c) ->
  forallb q (modifyFirst p f l) = forallb q l.
Proof.
  intros Hf. induction l as [|c r IH]; simpl; [reflexivity|].
  destruct (p c); simpl; [rewrite Hf|rewrite IH]; reflexivity.
Qed.

Lemma recencyOrdered_modifyFirst p f l :
  (forall c, createdAt (f c) = createdAt c) ->
  recencyOrdered l = true -> recencyOrdered (modifyFirst p f l) = true.
Proof.
  intros Hf. induction l as [|c r IH]; simpl; [auto|].
  intros H. apply andb_true_iff in H. destruct H as [Hc Hr].
  destruct (p c); simpl.
  - rewrite Hf, Hc, Hr. reflexivity.
  - rewrite IH by exact Hr. rewrite andb_true_r.
    rewrite forallb_modifyFirst; [exact Hc|].
    intros x. rewrite Hf. reflexivity.
Qed.

Lemma run_wellFormed o s :
  opOk s o = true ->
  idsOk (chats s) = true /\ recencyOrdered (chats s) = true ->
  idsOk (chats (run o s)) = true /\ recencyOrdered (chats (run o s)) = true.
Proof.
  intros Ho [Hids Hord].
  destruct o as [newId now m|i|i x|i|i msg|i u x|i m|];
    cbn -[hasId idsOk recencyOrdered] in *.
  - apply andb_true_iff in Ho. destruct Ho as [Hn Hc].
    unfold idsOk in *. cbn -[hasId]. rewrite Hn, Hids, Hc, Hord. auto.
  - unfold setActive. destruct (existsb _ _); auto.
  - split; [apply idsOk_modifyFirst|apply recencyOrdered_modifyFirst]; auto.
  - split.
    + unfold idsOk in *. apply forallb_forall. intros c Hc.
      apply filter_In in Hc. rewrite forallb_forall in Hids. apply Hids. tauto.
    + apply recencyOrdered_filter. exact Hord.
  - split; [apply idsOk_modifyFirst|apply recencyOrdered_modifyFirst]; auto.
  - split; [apply idsOk_modifyFirst|apply recencyOrdered_modifyFirst]; auto.
  - split; [apply idsOk_modifyFirst|apply recencyOrdered_modifyFirst]; auto.
  - auto.
Qed.

Lemma runAll_wellFormed ops : forall s,
  opsOk ops s = true ->
  activeOk s = true /\ idsOk (chats s) = true /\ recencyOrdered (chats s) = true ->
  activeOk (runAll ops s) = true /\ idsOk (chats (runAll ops s)) = true
  /\ recencyOrdered (chats (runAll ops s)) = true.
Proof.
  induction ops as [|o ops IH]; intros s Hops (Ha & Hi & Hr); [auto|].
  simpl in Hops. apply andb_true_iff in Hops. destruct Hops as [Ho Hops].
  apply IH; [exact Hops|].
  destruct (run_wellFormed o s Ho (conj Hi Hr)) as [Hi' Hr'].
  split; [apply run_activeOk; exact Ha|auto].
Qed.

(** C4 as stated fails: at noon the chat created 30 hours ago was created
    at 06:00 of the day before, which is on or after yesterday's midnight;
    it is grouped under [yesterday] and [older] is empty.  (UTC,
    2026-11-02 12:00.) *)
Lemma noon_third_chat_is_yesterday :
  let now := 1793620800000 in
  let s := runAll [CreateChat (js "c") (now - 108000000) (js "llama3");
                   CreateChat (js "b") (now - 7200000) (js "llama3");
                   CreateChat (js "a") now (js "llama3")] empty in
  let g := getChatsGroupedByDate JsDate.utc now s in
  todayStart JsDate.utc now = Some (now - 43200000)
  /\ List.map id (today g) = [js "a"; js "b"]
  /\ List.map id (yesterday g) = [js "c"]
  /\ older g = [].
Proof. vm_compute. repeat split; reflexivity. Qed.

(** C4, amended (recency grouping): of three chats created at [now], two
    hours before and thirty hours before, [getChatsGroupedByDate] called at
    [now], more than two hours after local midnight, puts the first two
    under [today]; it puts the third under [older] when [now] is less than
    six hours after local midnight, and under [yesterday] when it is six
    hours or more (and less than thirty) after it. *)
Theorem recency_grouping (tz : JsDate.TimeZone) (now t0 : Z) (s : t)
        (c1 c2 c3 : Chat) :
  todayStart tz now = Some t0 ->
  yesterdayStart tz now = Some (t0 - 86400000) ->
  In c1 (chats s) -> In c2 (chats s) -> In c3 (chats s) ->
  createdAt c1 = now ->
  createdAt c2 = now - 7200000 ->
  createdAt c3 = now - 108000000 ->
  7200000 < now - t0 ->
  In c1 (today (getChatsGroupedByDate tz now s))
  /\ In c2 (today (getChatsGroupedByDate tz now s))
  /\ (now - t0 < 21600000 ->
      In c3 (older (getChatsGroupedByDate tz now s))
      /\ ~ In c3 (yesterday (getChatsGroupedByDate tz now s))
      /\ ~ In c3 (today (getChatsGroupedByDate tz now s)))
  /\ (21600000 <= now - t0 < 108000000 ->
      In c3 (yesterday (getChatsGroupedByDate tz now s))
      /\ ~ In c3 (older (getChatsGroupedByDate tz now s))
      /\ ~ In c3 (today (getChatsGroupedByDate tz now s))).
Proof.
  intros Ht Hy I1 I2 I3 E1 E2 E3 Hnow.
  unfold getChatsGroupedByDate. cbn [today yesterday older].
  rewrite Ht, Hy. unfold JsDate.ge, JsDate.lt.
  split; [|split; [|split]].
  - apply filter_In. split; [exact I1|]. apply Z.leb_le. lia.
  - apply filter_In. split; [exact I2|]. apply Z.leb_le. lia.
  - intros Hearly. split; [|split].
    + apply filter_In. split; [exact I3|]. apply Z.ltb_lt. lia.
    + intros Hin. apply filter_In in Hin. destruct Hin as [_ Hin].
      apply andb_true_iff in Hin. destruct Hin as [Hin _].
      apply Z.leb_le in Hin. lia.
    + intros Hin. apply filter_In in Hin. destruct Hin as [_ Hin].
      apply Z.leb_le in Hin. lia.
  - intros Hlate. split; [|split].
    + apply filter_In. split; [exact I3|].
      apply andb_true_iff. split; [apply Z.leb_le|apply Z.ltb_lt]; lia.
    + intros Hin. apply filter_In in Hin. destruct Hin as [_ Hin].
      apply Z.ltb_lt in Hin. lia.
    + intros Hin. apply filter_In in Hin. destruct Hin as [_ Hin].
      apply Z.leb_le in Hin. lia.
Qed.

(** C4, amended, at 03:00 (UTC, 2026-11-02): the third chat is [older]. *)
Lemma recency_grouping_witness :
  let now := 1793588400000 in
  let c1 := mkChat (js "a") (js "New Chat") (js "llama3") now [] (JNum 0) (JNum 4096) in
  let c2 := mkChat (js "b") (js "New Chat") (js "llama3") (now - 7200000) []
                   (JNum 0) (JNum 4096) in
  let c3 := mkChat (js "c") (js "New Chat") (js "llama3") (now - 108000000) []
                   (JNum 0) (JNum 4096) in
  let g := getChatsGroupedByDate JsDate.utc now (mk [c1; c2; c3] (Some (js "a"))) in
  In c1 (today g) /\ In c2 (today g) /\ In c3 (older g).
Proof.
  intros now c1 c2 c3 g.
  destruct (recency_grouping JsDate.utc now (now - 10800000)
              (mk [c1; c2; c3] (Some (js "a"))) c1 c2 c3)
    as (H1 & H2 & H3 & _).
  - vm_compute. reflexivity.
  - vm_compute. reflexivity.
  - left. reflexivity.
  - right. left. reflexivity.
  - right. right. left. reflexivity.
  - reflexivity.
  - reflexivity.
  - reflexivity.
  - vm_compute. reflexivity.
  - split; [exact H1|]. split; [exact H2|].
    apply H3. vm_compute. reflexivity.
Defined.
End StoreProperties.

(* ===================================================================== *)
(** * Properties of the context tracker                                   *)
(* ===================================================================== *)

Section TrackerProperties.

Import ContextTracker.

(** A check made on every integer from 0 to 999 holds for each of them. *)
Lemma below_1000 (P : Z -> bool) :
  forallb P (List.map Z.of_nat (seq 0 1000)) = true ->
  forall n, 0 <= n < 1000 -> P n = true.
Proof.
  intros H n Hn. rewrite forallb_forall in H. apply H.
  apply in_map_iff. exists (Z.to_nat n). split; [lia|].
  apply in_seq. lia.
Qed.

(** Below 1000 an integer is a number smaller than 1000 whose string is its
    decimal numeral. *)
Lemma small_integer n :
  0 <= n < 1000 ->
  Number.toString (Number.ofZ n) = Number.digits n
  /\ PrimFloat.leb 1000 (Number.ofZ n) = false.
Proof.
  intros Hn.
  pose proof (below_1000
    (fun n => bool_decide (Number.toString (Number.ofZ n) = Number.digits n)
              && negb (PrimFloat.leb 1000 (Number.ofZ n)))) as H.
  specialize (H ltac:(vm_compute; reflexivity) n Hn).
  apply andb_true_iff in H. destruct H as [H1 H2].
  apply bool_decide_eq_true in H1. apply negb_true_iff in H2. auto.
Qed.

(** The integer [toFixed] prints is the nearest one: [n - 1/2 <= a * 10^f
    < n + 1/2]. *)
Lemma nearest_spec f a :
  (inject_Z (Number.nearest f a) - (1 # 2) <= a * Number.pow10 (Z.of_nat f))%Q
  /\ (a * Number.pow10 (Z.of_nat f) < inject_Z (Number.nearest f a) + (1 # 2))%Q.
Proof.
  unfold Number.nearest.
  generalize (a * Number.pow10 (Z.of_nat f))%Q. intros p.
  pose proof (Qfloor_le (p + (1 # 2))) as H1.
  pose proof (Qlt_floor (p + (1 # 2))) as H2.
  rewrite inject_Z_plus in H2. change (inject_Z 1) with 1%Q in H2.
  revert H1 H2. generalize (inject_Z (Qfloor (p + (1 # 2)))). intros n H1 H2.
  split; lra.
Qed.

(** C3 (percent): for a stored snapshot of numbers [used] and [total],
    [getUsage] returns [percent = Math.round((used / total) * 1000) / 10]
    together with the snapshot; after [update] has stored 8500 of 204800
    tokens the percent is 4.2, and with 1024 of 4096 it is 25. *)
Theorem getUsage_percent (m : gmap jsstring Counts) (chatId : jsstring)
        (u t : float) :
  m !! chatId = Some (mkCounts (JNum u) (JNum t)) ->
  getUsage chatId m
  = Normal (mkUsage (Number.round (u / t * 1000) / 10)%float (JNum u) (JNum t))
  /\ (m' ← update chatId (JNum 8000) (JNum 500) (JNum 204800) m; getUsage chatId m')
     = Normal (mkUsage 4.2%float (JNum 8500) (JNum 204800))
  /\ (m' ← update chatId (JNum 1000) (JNum 24) (JNum 4096) m; getUsage chatId m')
     = Normal (mkUsage 25%float (JNum 1024) (JNum 4096)).
Proof.
  intros H. split; [|split].
  - unfold getUsage. rewrite H. reflexivity.
  - unfold update, getUsage. cbn [Js.add Js.toPrimitive mbind Completion_bind].
    rewrite lookup_insert_eq. reflexivity.
  - unfold update, getUsage. cbn [Js.add Js.toPrimitive mbind Completion_bind].
    rewrite lookup_insert_eq. reflexivity.
Qed.

(** C3 on the tracker holding one snapshot, with the percent as it is
    displayed. *)
Lemma getUsage_percent_witness :
  getUsage (js "a") {[ js "a" := mkCounts (JNum 8500) (JNum 204800) ]}
  = Normal (mkUsage 4.2%float (JNum 8500) (JNum 204800))
  /\ Number.toString 4.2%float = js "4.2".
Proof.
  split; [|vm_compute; reflexivity].
  refine (proj1 (getUsage_percent _ (js "a") 8500%float 204800%float _)).
  apply lookup_singleton_eq.
Defined.

(** How [formatK] renders a number. *)
Lemma formatK_number x :
  formatK (JNum x)
  = Normal (if PrimFloat.leb 1000 x
            then Number.toFixed 1 (x / 1000)%float ++ js "K"
            else Number.toString x).
Proof.
  unfold formatK, Js.geNum, Js.div, Js.toNumber.
  cbn [Js.toPrimitive Js.primToNumber mbind Completion_bind].
  destruct (PrimFloat.leb 1000 x); reflexivity.
Qed.

(** ** Decimal numerals *)

Lemma js_string_of_uint_revapp (a b : Decimal.uint) :
  js (NilEmpty.string_of_uint (Decimal.revapp a b))
  = List.rev (js (NilEmpty.string_of_uint a)) ++ js (NilEmpty.string_of_uint b).
Proof.
  revert b. induction a; intros b; cbn [Decimal.revapp]; [reflexivity|..];
    rewrite IHa; cbn [NilEmpty.string_of_uint];
    unfold js; cbn [list_ascii_of_string List.map List.rev];
    rewrite <- app_assoc; reflexivity.
Qed.

Lemma js_string_of_uint_app (a b : Decimal.uint) :
  js (NilEmpty.string_of_uint (Decimal.app a b))
  = js (NilEmpty.string_of_uint a) ++ js (NilEmpty.string_of_uint b).
Proof.
  unfold Decimal.app. rewrite js_string_of_uint_revapp.
  unfold Decimal.rev. rewrite js_string_of_uint_revapp.
  cbn [NilEmpty.string_of_uint]. unfold js at 2. cbn [list_ascii_of_string List.map].
  rewrite List.app_nil_r, List.rev_involutive. reflexivity.
Qed.

(** The decimal numeral of a number with ten digits or more ends in its
    last digit, after the numeral of the rest. *)
Lemma digits_digit (d : Z) : 0 <= d <= 9 -> Number.digits d = [48 + d].
Proof.
  intros H.
  assert (E : d = 0 \/ d = 1 \/ d = 2 \/ d = 3 \/ d = 4 \/ d = 5 \/ d = 6
              \/ d = 7 \/ d = 8 \/ d = 9) by lia.
  repeat (destruct E as [->|E]; [reflexivity|]). subst d. reflexivity.
Qed.

Lemma to_uint_step (p : positive) (b : N) :
  (b < 10)%N ->
  N.to_uint (10 * Npos p + b)
  = Decimal.app (Pos.to_uint p) (N.to_uint b).
Proof.
  intros Hb.
  set (X := Decimal.app (Pos.to_uint p) (N.to_uint b)).
  assert (Hof : N.of_uint X = (10 * Npos p + b)%N).
  { unfold N.of_uint. rewrite DecimalPos.Unsigned.of_uint_alt.
    assert (Hrev : Decimal.rev X
                   = Decimal.revapp (N.to_uint b) (Decimal.rev (Pos.to_uint p))).
    { apply DecimalFacts.to_list_inj. unfold X.
      rewrite DecimalFacts.rev_spec, DecimalFacts.app_spec,
        DecimalFacts.revapp_spec, DecimalFacts.rev_spec, List.rev_app_distr,
        List.rev_append_rev.
      reflexivity. }
    rewrite Hrev.
    assert (Hp : DecimalPos.Unsigned.of_lu (Decimal.rev (Pos.to_uint p)) = Npos p).
    { rewrite <- DecimalPos.Unsigned.of_uint_alt. apply DecimalPos.Unsigned.of_to. }
    revert Hp. generalize (Decimal.rev (Pos.to_uint p)). intros r Hp.
    assert (E : (b = 0 \/ b = 1 \/ b = 2 \/ b = 3 \/ b = 4 \/ b = 5 \/ b = 6
                 \/ b = 7 \/ b = 8 \/ b = 9)%N) by lia.
    destruct E as [->|[->|[->|[->|[->|[->|[->|[->|[->| ->]]]]]]]]];
      rewrite DecimalPos.Unsigned.of_lu_eqn;
      cbn [N.to_uint Pos.to_uint Pos.to_little_uint Pos.succ Decimal.rev
           Decimal.revapp Decimal.Little.succ Decimal.Little.double
           Decimal.Little.succ_double DecimalPos.Unsigned.hd
           DecimalPos.Unsigned.tl];
      rewrite ?Hp; try lia. }
  assert (Hu : Decimal.unorm (Pos.to_uint p) = Pos.to_uint p).
  { change (Pos.to_uint p) with (N.to_uint (Npos p)).
    rewrite <- (DecimalN.Unsigned.of_to (Npos p)) at 1 2.
    rewrite DecimalN.Unsigned.to_of. apply DecimalFacts.unorm_involutive. }
  assert (Hnz : Decimal.nzhead (Pos.to_uint p) <> Decimal.Nil).
  { intros H. apply DecimalFacts.unorm_0 in H. rewrite Hu in H.
    exact (DecimalPos.Unsigned.to_uint_nonzero p H). }
  assert (Hx : Decimal.unorm X = X).
  { apply DecimalFacts.to_list_inj. unfold X.
    rewrite DecimalFacts.unorm_spec, DecimalFacts.app_spec.
    rewrite (DecimalFacts.unorm_nzhead _ Hnz) in Hu.
    pose proof (DecimalFacts.nzhead_nonzero (Pos.to_uint p)) as H0.
    rewrite Hu in H0. clear Hu.
    destruct (Pos.to_uint p) as [|u|u|u|u|u|u|u|u|u|u];
      [contradiction|exfalso; apply (H0 u); reflexivity|..]; reflexivity. }
  rewrite <- Hx, <- DecimalN.Unsigned.to_of, Hof. reflexivity.
Qed.

Lemma digits_step (ip d : Z) :
  0 < ip -> 0 <= d <= 9 ->
  Number.digits (10 * ip + d) = Number.digits ip ++ [48 + d].
Proof.
  intros Hip Hd. rewrite <- (digits_digit d Hd). unfold Number.digits.
  replace (Z.to_N (10 * ip + d)) with (10 * Z.to_N ip + Z.to_N d)%N by lia.
  destruct (Z.to_N ip) as [|p] eqn:Ep; [lia|].
  rewrite to_uint_step by lia.
  pose proof (DecimalPos.Unsigned.to_uint_nonnil p) as Hp.
  assert (Hb : N.to_uint (Z.to_N d) <> Decimal.Nil).
  { destruct (Z.to_N d); [discriminate|apply DecimalPos.Unsigned.to_uint_nonnil]. }
  assert (Hn : forall u, u <> Decimal.Nil ->
                 NilZero.string_of_uint u = NilEmpty.string_of_uint u).
  { intros u Hu. destruct u; [contradiction|reflexivity..]. }
  rewrite !Hn.
  - apply js_string_of_uint_app.
  - exact Hb.
  - exact Hp.
  - intros H. apply (f_equal DecimalFacts.to_list) in H.
    rewrite DecimalFacts.app_spec in H.
    apply app_eq_nil in H. destruct H as [H _].
    apply Hp. apply DecimalFacts.to_list_inj. exact H.
Qed.

Lemma digits_nonempty (n : Z) : Number.digits n <> [].
Proof.
  unfold Number.digits.
  destruct (N.to_uint (Z.to_N n)); discriminate.
Qed.

(** [toFixed(1)] on a positive number below [10^21]: the integer part and
    one digit, which together are the multiple of 1/10 nearest to the
    number, the larger one at a tie. *)
Lemma toFixed_one_decimal (y : float) :
  (0 < Number.toQ y)%Q -> (Number.toQ y < Number.pow10 21)%Q ->
  exists ip d,
    0 <= ip /\ 0 <= d <= 9
    /\ Number.toFixed 1 y = Number.digits ip ++ [46; 48 + d]
    /\ (inject_Z (10 * ip + d) - (1 # 2) <= 10 * Number.toQ y)%Q
    /\ (10 * Number.toQ y < inject_Z (10 * ip + d) + (1 # 2))%Q.
Proof.
  intros Hpos Hbig.
  set (M := Number.nearest 1 (Number.toQ y)).
  destruct (nearest_spec 1 (Number.toQ y)) as [Hlo Hhi]. fold M in Hlo, Hhi.
  change (Number.pow10 (Z.of_nat 1)) with (inject_Z 10) in Hlo, Hhi.
  assert (HM : 0 <= M).
  { destruct (Z.le_gt_cases 0 M) as [H|H]; [exact H|exfalso].
    assert (inject_Z M <= inject_Z (-1))%Q by (rewrite <- Zle_Qle; lia).
    change (inject_Z (-1)) with (-1 # 1)%Q in *.
    change (inject_Z 10) with (10 # 1)%Q in *. lra. }
  exists (M / 10), (M mod 10).
  pose proof (Z.mod_pos_bound M 10 ltac:(lia)) as Hd.
  pose proof (Z.div_mod M 10 ltac:(lia)) as Hdm.
  split; [apply Z.div_pos; lia|]. split; [lia|].
  rewrite <- Hdm.
  split; [|split; [change (10 * Number.toQ y)%Q with (inject_Z 10 * Number.toQ y)%Q;
                   lra
                  |change (10 * Number.toQ y)%Q with (inject_Z 10 * Number.toQ y)%Q;
                   lra]].
  assert (Hq : Qabs (Number.toQ y) = Number.toQ y).
  { destruct (Number.toQ y) as [n dn] eqn:E. unfold Qabs.
    unfold Qlt in Hpos. cbn in Hpos. rewrite Z.abs_eq by lia. reflexivity. }
  assert (Hs : Number.Qltb (Number.toQ y) (inject_Z 0) = false).
  { unfold Number.Qltb. apply negb_false_iff. apply Qle_bool_iff.
    apply Qlt_le_weak. exact Hpos. }
  assert (Hb : Qle_bool (Number.pow10 21) (Number.toQ y) = false).
  { destruct (Qle_bool _ _) eqn:E; [|reflexivity].
    apply Qle_bool_iff in E. exfalso. apply (Qlt_not_le _ _ Hbig E). }
  assert (Hy : match Prim2SF y with
               | S754_nan | S754_infinity _ => False
               | _ => True
               end).
  { unfold Number.toQ in Hpos. destruct (Prim2SF y); try exact I;
      exfalso; revert Hpos; apply Qlt_irrefl. }
  assert (Hbody :
            Number.toFixed 1 y
            = (let m := Number.digits M in
               let m' := if (length m <=? 1)%nat
                         then repeat 48 (1 + 1 - length m)%nat ++ m else m in
               let a := (length m' - 1)%nat in
               firstn a m' ++ [46] ++ skipn a m')).
  { unfold Number.toFixed.
    destruct (Prim2SF y) eqn:Ey; try contradiction;
      cbv zeta; rewrite Hs, Hq, Hb; reflexivity. }
  rewrite Hbody. cbv zeta.
  destruct (Z.eq_dec (M / 10) 0) as [Hz|Hnz].
  - replace (Number.digits M) with [48 + M mod 10]
      by (rewrite <- digits_digit by lia; f_equal; lia).
    rewrite Hz. reflexivity.
  - assert (Hip : 0 < M / 10) by (pose proof (Z.div_pos M 10); lia).
    replace (Number.digits M) with (Number.digits (M / 10) ++ [48 + M mod 10])
      by (rewrite <- digits_step by lia; f_equal; lia).
    pose proof (digits_nonempty (M / 10)) as Hne.
    set (ds := Number.digits (M / 10)) in *.
    assert (Hlen : (1 <= length ds)%nat)
      by (destruct ds; [contradiction|simpl; lia]).
    assert (Hl : length (ds ++ [48 + M mod 10]) = S (length ds))
      by (rewrite List.length_app; simpl; lia).
    rewrite Hl.
    replace (S (length ds) <=? 1)%nat with false
      by (symmetry; apply Nat.leb_gt; lia).
    rewrite Hl. replace (S (length ds) - 1)%nat with (length ds) by lia.
    rewrite List.firstn_app, List.firstn_all, Nat.sub_diag, List.skipn_app,
      List.skipn_all, Nat.sub_diag.
    cbn [firstn skipn app]. rewrite List.app_nil_r. reflexivity.
Qed.

(** C8, as first stated, at 1150 tokens: 1150/1000 is 1.15, which rounded
    to one decimal place is 1.2 (a tie, taken away from zero or to the even
    digit alike); the code prints 1.1, since the double nearest to 1.15
    lies below it.  At [10^24] the quotient is printed in exponent
    notation, with no decimal place at all. *)
Lemma formatK_not_decimal_rounding :
  formatK (JNum 1150) = Normal (js "1.1K")
  /\ renderK 1150 = js "1.2K"
  /\ formatK (JNum 1150) <> Normal (renderK 1150)
  /\ formatK (JNum 1e24) = Normal (js "1e+21K").
Proof.
  split; [vm_compute; reflexivity|].
  split; [vm_compute; reflexivity|].
  split; [|vm_compute; reflexivity].
  intros H. vm_compute in H. discriminate.
Qed.

(** C8, amended (display string): for a usage of numbers [used] and
    [total], [formatDisplay] returns ["<percent>% · <usedK> / <totalK>
    context used"].  A value of 1000 or more, whose quotient by 1000 as a
    double is below [10^21], is rendered as an integer part, a point, one
    digit and the suffix [K]: the multiple of 1/10 nearest to that double
    quotient, the larger one at a tie.  An integer from 0 to 999 is
    rendered as its plain decimal numeral.  8500 renders as ["8.5K"], 512
    as ["512"] and 204800 as ["204.8K"]. *)
Theorem formatDisplay_renders (m : gmap jsstring Counts) (chatId : jsstring)
        (usage : ContextUsage) (u t : float) :
  getUsage chatId m = Normal usage ->
  usageUsed usage = JNum u ->
  usageTotal usage = JNum t ->
  (exists a b,
      formatK (JNum u) = Normal a /\ formatK (JNum t) = Normal b
      /\ formatDisplay chatId m
         = Normal (Number.toString (percent usage) ++ js "% " ++ [183; 32] ++ a
                   ++ js " / " ++ b ++ js " context used"))
  /\ (forall x,
        PrimFloat.leb 1000 x = true ->
        (0 < Number.toQ (x / 1000)%float)%Q ->
        (Number.toQ (x / 1000)%float < Number.pow10 21)%Q ->
        exists ip d,
          0 <= ip /\ 0 <= d <= 9
          /\ formatK (JNum x) = Normal (Number.digits ip ++ [46; 48 + d] ++ js "K")
          /\ (inject_Z (10 * ip + d) - (1 # 2) <= 10 * Number.toQ (x / 1000)%float)%Q
          /\ (10 * Number.toQ (x / 1000)%float < inject_Z (10 * ip + d) + (1 # 2))%Q)
  /\ (forall n, 0 <= n < 1000 -> formatK (JNum (Number.ofZ n)) = Normal (Number.digits n))
  /\ formatK (JNum 8500) = Normal (js "8.5K")
  /\ formatK (JNum 512) = Normal (js "512")
  /\ formatK (JNum 204800) = Normal (js "204.8K").
Proof.
  intros Hu Eu Et.
  split; [|split; [|split; [|repeat split; vm_compute; reflexivity]]].
  - exists (if PrimFloat.leb 1000 u
            then Number.toFixed 1 (u / 1000)%float ++ js "K"
            else Number.toString u),
           (if PrimFloat.leb 1000 t
            then Number.toFixed 1 (t / 1000)%float ++ js "K"
            else Number.toString t).
    split; [apply formatK_number|]. split; [apply formatK_number|].
    unfold formatDisplay. rewrite Hu. cbn [mbind Completion_bind].
    rewrite Eu, Et, !formatK_number. reflexivity.
  - intros x Hx Hpos Hbig.
    destruct (toFixed_one_decimal _ Hpos Hbig) as (ip & d & Hip & Hd & Hf & Hlo & Hhi).
    exists ip, d. split; [exact Hip|]. split; [exact Hd|].
    split; [|split; assumption].
    rewrite formatK_number, Hx, Hf, <- app_assoc. reflexivity.
  - intros n Hn. rewrite formatK_number.
    destruct (small_integer n Hn) as [-> ->]. reflexivity.
Qed.

(** C8 on a snapshot whose two counts need rounding: 1.234 goes down to
    1.2 and 4.096 up to 4.1. *)
Lemma formatDisplay_renders_witness :
  formatDisplay (js "a") {[ js "a" := mkCounts (JNum 1234) (JNum 4096) ]}
  = Normal (js "30.1% " ++ [183; 32] ++ js "1.2K / 4.1K context used")
  /\ exists ip d,
       formatK (JNum 1234) = Normal (Number.digits ip ++ [46; 48 + d] ++ js "K")
       /\ (inject_Z (10 * ip + d) - (1 # 2) <= 10 * Number.toQ (1234 / 1000)%float)%Q
       /\ (10 * Number.toQ (1234 / 1000)%float < inject_Z (10 * ip + d) + (1 # 2))%Q.
Proof.
  destruct (formatDisplay_renders {[ js "a" := mkCounts (JNum 1234) (JNum 4096) ]}
              (js "a") (mkUsage 30.1%float (JNum 1234) (JNum 4096))
              1234%float 4096%float)
    as ((a & b & Ha & Hb & Hd) & Hround & _).
  - vm_compute. reflexivity.
  - reflexivity.
  - reflexivity.
  - split.
    + rewrite Hd. vm_compute in Ha, Hb.
      injection Ha as <-. injection Hb as <-. vm_compute. reflexivity.
    + destruct (Hround 1234%float) as (ip & d & _ & _ & Hf & Hlo & Hhi).
      * vm_compute. reflexivity.
      * vm_compute. reflexivity.
      * vm_compute. reflexivity.
      * exists ip, d. split; [exact Hf|]. split; assumption.
Defined.

(** The rounding is that of [toFixed] on the quotient as a binary number:
    1.15 lies just below the tie and 1.25 is a tie, which goes up. *)
Example formatK_ties :
  formatK (JNum 1150) = Normal (js "1.1K")
  /\ formatK (JNum 1250) = Normal (js "1.3K").
Proof. vm_compute. split; reflexivity. Qed.

(** Without a snapshot the display is that of 0 used out of 4096. *)
Example formatDisplay_default :
  formatDisplay (js "a") ∅
  = Normal (js "0% " ++ [183; 32] ++ js "0 / 4.1K context used").
Proof. vm_compute. reflexivity. Qed.

End TrackerProperties.

(* ===================================================================== *)
(** * A turn whose request fails                                          *)
(* ===================================================================== *)

Section TurnProperties.

Import SidebarProvider.

(** With a response whose status is not a success, the generator throws
    before its first [yield]. *)
Lemma streamOf_not_ok res :
  OllamaClient.ok res = false ->
  OllamaClient.streamOf (Normal res)
  = OllamaClient.mkStream [] (Some (OllamaClient.apiError res)).
Proof. intros H. unfold OllamaClient.streamOf. rewrite H. reflexivity. Qed.

(** C6 (failed request): when the server answers with a status that is not
    a success, [chatStream] sends its one request and throws, before
    yielding any chunk, the error ["Ollama API error: <status>
    <statusText>"] (for a three-digit status, its decimal numeral).  A turn
    of [handleSendMessage] then leaves the store with the user message as
    its only addition, the context tracker as it was, one request sent, and
    the webview told of the user message, the start of the stream, the error
    and the end of the stream without a message. *)
Theorem non_success_status_fails_turn (env : Env) (text : jsstring) (p : t)
        (active : ChatManager.Chat) (res : OllamaClient.Response) :
  (forall request, fetch env request = Normal res) ->
  OllamaClient.ok res = false ->
  (forall model messages think,
      OllamaClient.chatStream (fetch env) model messages think
      = ([OllamaClient.mkRequest model messages true think],
         OllamaClient.mkStream [] (Some (OllamaClient.apiError res))))
  /\ (0 <= OllamaClient.status res < 1000 ->
      errorString (OllamaClient.apiError res)
      = js "Error: Ollama API error: " ++ Number.digits (OllamaClient.status res)
        ++ [32] ++ OllamaClient.statusText res)
  /\ (ChatManager.getActive (chatManager p) = Some active ->
      JsString.nonEmpty (JsString.trim text) = true ->
      let userMsg := ChatManager.mkMessage ChatManager.user (JsString.trim text)
                                           None None (userTime env) in
      let p' := handleSendMessage env text p in
      chatManager p'
      = ChatManager.addMessage (ChatManager.id active) userMsg (chatManager p)
      /\ contextTracker p' = contextTracker p
      /\ (exists request, sent p' = sent p ++ [request])
      /\ view p'
         = option_map
             (fun log => log ++ [addMessage userMsg; streamStart;
                                 error (errorString (OllamaClient.apiError res));
                                 streamComplete None])
             (view p)
      /\ models p' = models p).
Proof.
  intros Hfetch Hok. split; [|split].
  - intros model messages think. unfold OllamaClient.chatStream.
    rewrite Hfetch, (streamOf_not_ok _ Hok). reflexivity.
  - intros Hstatus. unfold errorString, OllamaClient.apiError.
    cbn [errName errMessage].
    rewrite (proj1 (small_integer _ Hstatus)). reflexivity.
  - intros Hactive Htext userMsg p'. subst p'. unfold handleSendMessage.
    rewrite Hactive, Htext. cbn [negb]. fold userMsg.
    unfold OllamaClient.chatStream. rewrite Hfetch, (streamOf_not_ok _ Hok).
    cbn [OllamaClient.yielded OllamaClient.thrown forAwait].
    unfold postMessage, withSent, withManager. cbn.
    destruct (view p) as [log|]; cbn.
    + repeat split; eauto. rewrite <- !app_assoc. reflexivity.
    + repeat split; eauto.
Qed.

(** C6 on a store with one chat and a server that answers 500. *)
Lemma non_success_status_fails_turn_witness :
  let env := mkEnv (fun _ => Normal (OllamaClient.mkResponse
                                       500 (js "Internal Server Error") None))
                   (fun _ => Normal JNull) 2000 2001 (fun _ => 2002) 2003 in
  let p' := handleSendMessage env (js " hi ")
                              (mk (Some []) [] ChatManager.oneChat ∅ []) in
  List.map ChatManager.messages (ChatManager.chats (chatManager p'))
  = [[ChatManager.mkMessage ChatManager.user (js "hi") None None 2000]]
  /\ contextTracker p' = ∅
  /\ view p'
     = Some [addMessage (ChatManager.mkMessage ChatManager.user (js "hi") None None 2000);
             streamStart;
             error (js "Error: Ollama API error: 500 Internal Server Error");
             streamComplete None].
Proof.
  intros env p'.
  destruct (non_success_status_fails_turn env (js " hi ")
              (mk (Some []) [] ChatManager.oneChat ∅ [])
              (ChatManager.mkChat (js "a") (js "New Chat") (js "llama3") 1000 []
                                  (JNum 0) (JNum 4096))
              (OllamaClient.mkResponse 500 (js "Internal Server Error") None)
              (fun _ => eq_refl) eq_refl)
    as (_ & Herr & Hturn).
  destruct (Hturn eq_refl eq_refl) as (Hm & Hc & _ & Hv & _).
  fold p' in Hm, Hc, Hv. rewrite Hm, Hc, Hv.
  rewrite Herr by (cbn; lia).
  repeat split.
Defined.

End TurnProperties.

(* ===================================================================== *)
(** * More on the session store                                           *)
(* ===================================================================== *)

Section StoreOperations.

Import ChatManager.

Lemma modifyFirst_absent i f l :
  existsb (hasId i) l = false -> modifyFirst (hasId i) f l = l.
Proof.
  induction l as [|c r IH]; simpl; [reflexivity|].
  destruct (hasId i c); simpl; [discriminate|].
  intros H. rewrite IH by exact H. reflexivity.
Qed.

Lemma find_modifyFirst_other i j f l :
  (forall c, id (f c) = id c) -> j <> i ->
  List.find (hasId j) (modifyFirst (hasId i) f l) = List.find (hasId j) l.
Proof.
  intros Hf Hne. induction l as [|c r IH]; simpl; [reflexivity|].
  destruct (hasId i c) eqn:Ei; simpl.
  - apply hasId_true in Ei.
    replace (hasId j (f c)) with false
      by (symmetry; apply hasId_false; rewrite Hf; congruence).
    replace (hasId j c) with false
      by (symmetry; apply hasId_false; congruence).
    reflexivity.
  - rewrite IH. reflexivity.
Qed.

Lemma map_id_modifyFirst p f l :
  (forall c, id (f c) = id c) ->
  List.map id (modifyFirst p f l) = List.map id l.
Proof.
  intros Hf. induction l as [|c r IH]; simpl; [reflexivity|].
  destruct (p c); simpl; [rewrite Hf|rewrite IH]; reflexivity.
Qed.

(** X1 (silent no-op): [renameChat], [addMessage], [updateContext] and
    [updateModel] called with an id that no chat has change nothing in
    the store. *)
Theorem unknown_id_changes_nothing (s : t) (i x : jsstring) (msg : Message)
        (u total : jsval) :
  existsb (hasId i) (chats s) = false ->
  renameChat i x s = s
  /\ addMessage i msg s = s
  /\ updateContext i u total s = s
  /\ updateModel i x s = s.
Proof.
  intros H. unfold renameChat, addMessage, updateContext, updateModel.
  rewrite !(modifyFirst_absent i _ _ H). destruct s. auto.
Qed.

Lemma unknown_id_changes_nothing_witness :
  renameChat (js "zz") (js "Title") threeChats = threeChats
  /\ addMessage (js "zz") (mkMessage user (js "hi") None None 5000) threeChats
     = threeChats.
Proof.
  destruct (unknown_id_changes_nothing threeChats (js "zz") (js "Title")
              (mkMessage user (js "hi") None None 5000) (JNum 1) (JNum 2) eq_refl)
    as (H1 & H2 & _).
  split; assumption.
Defined.

(** X2 (renaming): [renameChat] on an id that a chat has gives the first
    such chat the trimmed title, or ["New Chat"] when the trimmed title is
    empty, and changes nothing else: the chat's other fields, the chats
    found under other ids, the number and the ids of the chats and the
    active pointer stay. *)
Theorem renameChat_changes_only_title (s : t) (i x : jsstring) (chat : Chat) :
  getById i s = Some chat ->
  getById i (renameChat i x s)
  = Some (mkChat (id chat)
                 (if JsString.nonEmpty (JsString.trim x) then JsString.trim x
                  else js "New Chat")
                 (model chat) (createdAt chat) (messages chat)
                 (contextUsed chat) (contextTotal chat))
  /\ (forall j, j <> i -> getById j (renameChat i x s) = getById j s)
  /\ List.map id (chats (renameChat i x s)) = List.map id (chats s)
  /\ activeId (renameChat i x s) = activeId s.
Proof.
  intros H. unfold getById, renameChat in *. cbn [chats activeId].
  split; [|split; [|split]].
  - rewrite find_modifyFirst by reflexivity. rewrite H. reflexivity.
  - intros j Hj. apply find_modifyFirst_other; [reflexivity|exact Hj].
  - apply map_id_modifyFirst. reflexivity.
  - reflexivity.
Qed.

Lemma renameChat_changes_only_title_witness :
  option_map title (getById (js "b") (renameChat (js "b") (js "  Sorting ") threeChats))
  = Some (js "Sorting")
  /\ option_map title (getById (js "b") (renameChat (js "b") (js "   ") threeChats))
     = Some (js "New Chat").
Proof.
  destruct (renameChat_changes_only_title threeChats (js "b") (js "  Sorting ")
              (mkChat (js "b") (js "New Chat") (js "llama3") 2000 []
                      (JNum 0) (JNum 4096)) eq_refl) as [H1 _].
  destruct (renameChat_changes_only_title threeChats (js "b") (js "   ")
              (mkChat (js "b") (js "New Chat") (js "llama3") 2000 []
                      (JNum 0) (JNum 4096)) eq_refl) as [H2 _].
  rewrite H1, H2. split; reflexivity.
Defined.

(** X3 (usage and model of a chat): [updateContext] overwrites the usage
    snapshot of the first chat with the id and [updateModel] its model;
    reading the chat back with [getById] gives the chat with just these
    fields replaced, and the chats under other ids are as before. *)
Theorem update_then_getById (s : t) (i m : jsstring) (u total : jsval)
        (chat : Chat) :
  getById i s = Some chat ->
  getById i (updateContext i u total s)
  = Some (mkChat (id chat) (title chat) (model chat) (createdAt chat)
                 (messages chat) u total)
  /\ getById i (updateModel i m s)
     = Some (mkChat (id chat) (title chat) m (createdAt chat) (messages chat)
                    (contextUsed chat) (contextTotal chat))
  /\ (forall j, j <> i ->
        getById j (updateContext i u total s) = getById j s
        /\ getById j (updateModel i m s) = getById j s).
Proof.
  intros H. unfold getById, updateContext, updateModel in *. cbn [chats].
  split; [|split].
  - rewrite find_modifyFirst by reflexivity. rewrite H. reflexivity.
  - rewrite find_modifyFirst by reflexivity. rewrite H. reflexivity.
  - intros j Hj.
    split; apply find_modifyFirst_other; try reflexivity; exact Hj.
Qed.

Lemma update_then_getById_witness :
  option_map contextUsed
    (getById (js "b") (updateContext (js "b") (JNum 15) (JNum 204800) threeChats))
  = Some (JNum 15)
  /\ option_map model (getById (js "b") (updateModel (js "b") (js "qwen3") threeChats))
     = Some (js "qwen3").
Proof.
  destruct (update_then_getById threeChats (js "b") (js "qwen3") (JNum 15)
              (JNum 204800)
              (mkChat (js "b") (js "New Chat") (js "llama3") 2000 []
                      (JNum 0) (JNum 4096)) eq_refl) as (H1 & H2 & _).
  rewrite H1, H2. split; reflexivity.
Defined.

(** X4 (selection): the chat [createChat] returns is the one [getActive]
    returns next, whatever the store held; and after [setActive] with an id
    that a chat has, [getActive] returns the chat [getById] finds under that
    id. *)
Theorem getActive_follows_selection (s : t) (newId m i : jsstring) (now : Z) :
  getActive (fst (createChat newId now m s)) = Some (snd (createChat newId now m s))
  /\ chats (fst (createChat newId now m s))
     = snd (createChat newId now m s) :: chats s
  /\ (existsb (hasId i) (chats s) = true ->
      getActive (setActive i s) = getById i s
      /\ chats (setActive i s) = chats s).
Proof.
  split; [|split].
  - unfold getActive. cbn -[hasId].
    replace (hasId newId _) with true; [reflexivity|].
    symmetry. apply hasId_true. reflexivity.
  - reflexivity.
  - intros H. unfold setActive. rewrite H. split; reflexivity.
Qed.

Lemma getActive_follows_selection_witness :
  option_map id (getActive (setActive (js "a") threeChats)) = Some (js "a").
Proof.
  destruct (getActive_follows_selection threeChats (js "n") (js "llama3") (js "a") 0)
    as (_ & _ & H).
  destruct (H eq_refl) as [-> _]. reflexivity.
Defined.

(** X5 (deleting twice): after [deleteChat(i)] no chat is found under [i],
    and a second [deleteChat(i)] changes nothing. *)
Theorem deleteChat_idempotent (s : t) (i : jsstring) :
  getById i (deleteChat i s) = None
  /\ deleteChat i (deleteChat i s) = deleteChat i s.
Proof.
  assert (Hnone : existsb (hasId i) (chats (deleteChat i s)) = false).
  { cbn -[hasId]. induction (chats s) as [|c r IH]; simpl; [reflexivity|].
    destruct (hasId i c) eqn:E; simpl; [exact IH|]. rewrite E. exact IH. }
  split.
  - unfold getById. destruct (List.find _ _) as [c|] eqn:E; [|reflexivity].
    apply find_some in E. destruct E as [Hin Hc].
    assert (existsb (hasId i) (chats (deleteChat i s)) = true)
      by (apply existsb_exists; eauto).
    congruence.
  - assert (Hact : activeId (deleteChat i s) <> Some i).
    { intros Ha. cbn -[hasId] in Ha.
      destruct (bool_decide (activeId s = Some i)) eqn:B.
      - apply firstId_exists in Ha. cbn -[hasId] in Hnone. congruence.
      - apply bool_decide_eq_false in B. contradiction. }
    unfold deleteChat at 1. rewrite bool_decide_eq_false_2 by exact Hact.
    rewrite filter_all_true; [destruct (deleteChat i s); reflexivity|].
    apply forallb_forall. intros c Hc. apply negb_true_iff.
    destruct (hasId i c) eqn:E; [|reflexivity].
    assert (existsb (hasId i) (chats (deleteChat i s)) = true)
      by (apply existsb_exists; eauto).
    congruence.
Qed.

End StoreOperations.

Section StoreInvariants.

Import ChatManager.

(** X6 (order and ids): a store built from the empty one by calls as the
    application makes them, each new chat with a non-empty id and a
    creation time not before those of the chats present, holds its chats
    newest first, and every id is a non-empty string. *)
Theorem reachable_store_ordered (ops : list Op) :
  opsOk ops empty = true ->
  recencyOrdered (chats (runAll ops empty)) = true
  /\ idsOk (chats (runAll ops empty)) = true.
Proof.
  intros H.
  destruct (runAll_wellFormed ops empty H) as (_ & Hi & Hr); [|auto].
  split; [|split]; reflexivity.
Qed.

Lemma reachable_store_ordered_witness :
  recencyOrdered (chats threeChats) = true /\ idsOk (chats threeChats) = true.
Proof.
  destruct (reachable_store_ordered
              [CreateChat (js "a") 1000 (js "llama3");
               CreateChat (js "b") 2000 (js "llama3");
               CreateChat (js "c") 3000 (js "llama3");
               SetActive (js "b")] eq_refl) as [H1 H2].
  split; [exact H1|exact H2].
Defined.

Lemma find_unique (l : list Chat) (c : Chat) :
  List.NoDup (List.map id l) -> In c l -> List.find (hasId (id c)) l = Some c.
Proof.
  induction l as [|x r IH]; simpl; [tauto|].
  intros Hnd Hin. inversion Hnd as [|? ? Hx Hr]; subst.
  destruct Hin as [->|Hin].
  - replace (hasId (id c) c) with true; [reflexivity|].
    symmetry. apply hasId_true. reflexivity.
  - destruct (hasId (id c) x) eqn:E.
    + apply hasId_true in E. exfalso. apply Hx. rewrite E.
      apply in_map. exact Hin.
    + apply IH; assumption.
Qed.

Lemma NoDup_map_filter (p : Chat -> bool) (l : list Chat) :
  List.NoDup (List.map id l) -> List.NoDup (List.map id (List.filter p l)).
Proof.
  induction l as [|x r IH]; simpl; [auto|].
  intros Hnd. inversion Hnd as [|? ? Hx Hr]; subst.
  destruct (p x); simpl; [|auto].
  constructor; [|auto].
  intros Hin. apply Hx. apply in_map_iff in Hin.
  destruct Hin as (y & Hy & Hin). apply filter_In in Hin.
  apply in_map_iff. exists y. tauto.
Qed.

Lemma run_unique (o : Op) (s : t) :
  opFresh s o = true ->
  List.NoDup (List.map id (chats s)) -> List.NoDup (List.map id (chats (run o s))).
Proof.
  intros Ho Hnd.
  destruct o as [newId now m|i|i x|i|i msg|i u x|i m|]; cbn -[hasId] in *.
  - constructor; [|exact Hnd].
    intros Hin. apply in_map_iff in Hin. destruct Hin as (y & Hy & Hin).
    apply negb_true_iff in Ho.
    assert (existsb (hasId newId) (chats s) = true); [|congruence].
    apply existsb_exists. exists y. split; [exact Hin|].
    apply hasId_true. exact Hy.
  - unfold setActive. destruct (existsb _ _); exact Hnd.
  - rewrite map_id_modifyFirst by reflexivity. exact Hnd.
  - apply NoDup_map_filter. exact Hnd.
  - rewrite map_id_modifyFirst by reflexivity. exact Hnd.
  - rewrite map_id_modifyFirst by reflexivity. exact Hnd.
  - rewrite map_id_modifyFirst by reflexivity. exact Hnd.
  - constructor.
Qed.

Lemma runAll_unique (ops : list Op) : forall s,
  opsFresh ops s = true ->
  List.NoDup (List.map id (chats s)) -> List.NoDup (List.map id (chats (runAll ops s))).
Proof.
  induction ops as [|o ops IH]; intros s Hops Hnd; [exact Hnd|].
  simpl in Hops. apply andb_true_iff in Hops. destruct Hops as [Ho Hops].
  apply IH; [exact Hops|]. apply run_unique; assumption.
Qed.

(** X7 (ids identify chats): as long as [uuid()] never gives an id that a
    chat of the store has, no two chats of the store share an id, so
    [getById] with the id of a chat of the store returns that chat. *)
Theorem getById_finds_each_chat (ops : list Op) (c : Chat) :
  opsFresh ops empty = true ->
  In c (chats (runAll ops empty)) ->
  List.NoDup (List.map id (chats (runAll ops empty)))
  /\ getById (id c) (runAll ops empty) = Some c.
Proof.
  intros Hops Hin.
  assert (Hnd : List.NoDup (List.map id (chats (runAll ops empty))))
    by (apply runAll_unique; [exact Hops|constructor]).
  split; [exact Hnd|]. apply find_unique; assumption.
Qed.

Lemma getById_finds_each_chat_witness :
  getById (js "a") threeChats
  = Some (mkChat (js "a") (js "New Chat") (js "llama3") 1000 [] (JNum 0)
                 (JNum 4096)).
Proof.
  refine (proj2 (getById_finds_each_chat
            [CreateChat (js "a") 1000 (js "llama3");
             CreateChat (js "b") 2000 (js "llama3");
             CreateChat (js "c") 3000 (js "llama3");
             SetActive (js "b")]
            (mkChat (js "a") (js "New Chat") (js "llama3") 1000 [] (JNum 0)
                    (JNum 4096)) eq_refl _)).
  simpl. auto.
Defined.

End StoreInvariants.

Section Grouping.

Import ChatManager.

Variable tz : JsDate.TimeZone.
Variables (now t0 : Z).
Hypothesis today_valid : todayStart tz now = Some t0.
Hypothesis yesterday_valid : Z.abs (t0 - 86400000) <= 8640000000000000.

Lemma filter_none {A} (p : A -> bool) (l : list A) :
  (forall x, In x l -> p x = false) -> List.filter p l = [].
Proof.
  induction l as [|x r IH]; simpl; [reflexivity|].
  intros H. rewrite (H x) by (left; reflexivity).
  apply IH. intros y Hy. apply H. right. exact Hy.
Qed.

Lemma yesterdayStart_eq : yesterdayStart tz now = Some (t0 - 86400000).
Proof.
  unfold yesterdayStart. rewrite today_valid. unfold JsDate.TimeClip.
  destruct (Z.leb_spec (Z.abs (t0 - 86400000)) 8640000000000000); [reflexivity|lia].
Qed.

Lemma groups_eq (s : t) :
  getChatsGroupedByDate tz now s
  = mkGroups
      (List.filter (fun c => t0 <=? createdAt c) (chats s))
      (List.filter (fun c => (t0 - 86400000 <=? createdAt c)
                             && (createdAt c <? t0)) (chats s))
      (List.filter (fun c => createdAt c <? t0 - 86400000) (chats s)).
Proof.
  unfold getChatsGroupedByDate. rewrite yesterdayStart_eq, today_valid.
  reflexivity.
Qed.

(** X8 (the groups partition the collection): with both boundaries valid
    dates, and every [createdAt] a valid time value, each chat of the
    store is in exactly one of [today], [yesterday] and [older], chosen by
    its creation time alone, and the three groups together have as many
    chats as the store. *)
Theorem groups_partition (s : t) :
  Forall (fun c => Z.abs (createdAt c) <= 8640000000000000) (chats s) ->
  let g := getChatsGroupedByDate tz now s in
  (forall c, In c (today g) <-> In c (chats s) /\ t0 <= createdAt c)
  /\ (forall c, In c (yesterday g)
                <-> In c (chats s) /\ t0 - 86400000 <= createdAt c < t0)
  /\ (forall c, In c (older g)
                <-> In c (chats s) /\ createdAt c < t0 - 86400000)
  /\ (length (today g) + length (yesterday g) + length (older g)
      = length (chats s))%nat.
Proof.
  intros _ g. subst g. rewrite groups_eq. cbn [today yesterday older].
  split; [|split; [|split]].
  - intros c. rewrite filter_In, Z.leb_le. reflexivity.
  - intros c. rewrite filter_In, andb_true_iff, Z.leb_le, Z.ltb_lt. reflexivity.
  - intros c. rewrite filter_In, Z.ltb_lt. reflexivity.
  - induction (chats s) as [|c r IH]; simpl; [reflexivity|].
    destruct (Z.leb_spec t0 (createdAt c));
      destruct (Z.leb_spec (t0 - 86400000) (createdAt c));
      destruct (Z.ltb_spec (createdAt c) t0);
      destruct (Z.ltb_spec (createdAt c) (t0 - 86400000));
      simpl; lia.
Qed.

(** X9 (the groups in order): for a store whose chats stand newest first,
    [today], [yesterday] and [older], one after the other, are the whole
    collection in its order. *)
Theorem groups_concatenate (s : t) :
  Forall (fun c => Z.abs (createdAt c) <= 8640000000000000) (chats s) ->
  recencyOrdered (chats s) = true ->
  let g := getChatsGroupedByDate tz now s in
  today g ++ yesterday g ++ older g = getAll s.
Proof.
  intros _ Hord g. subst g. rewrite groups_eq. cbn [today yesterday older].
  unfold getAll. induction (chats s) as [|c r IH]; [reflexivity|].
  pose proof (recencyOrdered_front c r Hord) as Hfront.
  simpl in Hord. apply andb_true_iff in Hord. destruct Hord as [_ Hr].
  specialize (IH Hr).
  assert (Hrest : forall x, In x r -> createdAt x <= createdAt c)
    by (intros x Hx; apply Hfront; right; exact Hx).
  simpl.
  destruct (Z.leb_spec t0 (createdAt c)) as [H0|H0].
  - replace (createdAt c <? t0) with false by (symmetry; apply Z.ltb_ge; lia).
    rewrite andb_false_r.
    replace (createdAt c <? t0 - 86400000) with false
      by (symmetry; apply Z.ltb_ge; lia).
    simpl. rewrite IH. reflexivity.
  - assert (Ht : List.filter (fun c0 => t0 <=? createdAt c0) r = []).
    { apply filter_none. intros x Hx. apply Z.leb_gt.
      specialize (Hrest x Hx). lia. }
    rewrite Ht in *. simpl in *.
    replace (createdAt c <? t0) with true by (symmetry; apply Z.ltb_lt; lia).
    rewrite andb_true_r.
    destruct (Z.leb_spec (t0 - 86400000) (createdAt c)) as [H1|H1].
    + replace (createdAt c <? t0 - 86400000) with false
        by (symmetry; apply Z.ltb_ge; lia).
      simpl. rewrite IH. reflexivity.
    + replace (createdAt c <? t0 - 86400000) with true
        by (symmetry; apply Z.ltb_lt; lia).
      assert (Hy : List.filter (fun c0 => (t0 - 86400000 <=? createdAt c0)
                                          && (createdAt c0 <? t0)) r = []).
      { apply filter_none. intros x Hx. apply andb_false_iff. left.
        apply Z.leb_gt. specialize (Hrest x Hx). lia. }
      rewrite Hy in *. simpl in *. rewrite IH. reflexivity.
Qed.

End Grouping.

Section GroupingExamples.

Import ChatManager.

(** The groups at 03:00 (UTC, 2026-11-02) of chats made at that time, two
    hours and thirty hours before: the last one is [older]. *)
Lemma groups_partition_witness :
  let now := 1793588400000 in
  let c1 := mkChat (js "a") (js "New Chat") (js "llama3") now [] (JNum 0) (JNum 4096) in
  let c2 := mkChat (js "b") (js "New Chat") (js "llama3") (now - 7200000) []
                   (JNum 0) (JNum 4096) in
  let c3 := mkChat (js "c") (js "New Chat") (js "llama3") (now - 108000000) []
                   (JNum 0) (JNum 4096) in
  let g := getChatsGroupedByDate JsDate.utc now (mk [c1; c2; c3] (Some (js "a"))) in
  In c3 (older g)
  /\ (length (today g) + length (yesterday g) + length (older g) = 3)%nat.
Proof.
  intros now c1 c2 c3 g.
  destruct (groups_partition JsDate.utc now (now - 10800000))
    with (s := mk [c1; c2; c3] (Some (js "a")))
    as (_ & _ & H3 & H4).
  - vm_compute. reflexivity.
  - vm_compute. discriminate.
  - repeat constructor; vm_compute; discriminate.
  - split; [|exact H4]. refine (proj2 (H3 c3) _). split.
    + right. right. left. reflexivity.
    + vm_compute. reflexivity.
Defined.

Lemma groups_concatenate_witness :
  let now := 1793588400000 in
  let c1 := mkChat (js "a") (js "New Chat") (js "llama3") now [] (JNum 0) (JNum 4096) in
  let c2 := mkChat (js "b") (js "New Chat") (js "llama3") (now - 7200000) []
                   (JNum 0) (JNum 4096) in
  let c3 := mkChat (js "c") (js "New Chat") (js "llama3") (now - 108000000) []
                   (JNum 0) (JNum 4096) in
  let g := getChatsGroupedByDate JsDate.utc now (mk [c1; c2; c3] (Some (js "a"))) in
  today g ++ yesterday g ++ older g = [c1; c2; c3].
Proof.
  intros now c1 c2 c3 g.
  apply (groups_concatenate JsDate.utc now (now - 10800000)).
  - vm_compute. reflexivity.
  - vm_compute. discriminate.
  - repeat constructor; vm_compute; discriminate.
  - vm_compute. reflexivity.
Defined.

End GroupingExamples.

Section Search.

Import ChatManager.

Variable toLowerCase : jsstring -> jsstring.

(** [isPrefix] and [includes] decide what their names say. *)
Lemma isPrefix_app (q s : jsstring) :
  JsString.isPrefix q s = true <-> exists b, s = q ++ b.
Proof.
  revert s. induction q as [|a q IH]; intros s; simpl.
  - split; [intros _; exists s; reflexivity|reflexivity].
  - destruct s as [|c s].
    + split; [discriminate|intros [b Hb]; discriminate].
    + rewrite andb_true_iff, Z.eqb_eq, IH. split.
      * intros [-> [b ->]]. exists b. reflexivity.
      * intros [b [= -> ->]]. split; [reflexivity|]. exists b. reflexivity.
Qed.

Lemma includes_occurs (s q : jsstring) :
  JsString.includes s q = true <-> exists a b, s = a ++ q ++ b.
Proof.
  induction s as [|c s IH].
  - simpl. rewrite orb_false_r, isPrefix_app. split.
    + intros [b Hb]. exists [], b. exact Hb.
    + intros (a & b & H). destruct a; [exists b; exact H|discriminate].
  - cbn [JsString.includes]. rewrite orb_true_iff, isPrefix_app, IH. split.
    + intros [[b Hb]|(a & b & ->)].
      * exists [], b. exact Hb.
      * exists (c :: a), b. reflexivity.
    + intros (a & b & H). destruct a as [|x a].
      * left. exists b. exact H.
      * right. injection H as -> ->. exists a, b. reflexivity.
Qed.

Lemma trimStart_suffix (s : jsstring) : exists a, s = a ++ JsString.trimStart s.
Proof.
  induction s as [|c s [a Ha]]; simpl.
  - exists []. reflexivity.
  - destruct (JsString.isWhiteSpace c).
    + exists (c :: a). simpl. congruence.
    + exists []. reflexivity.
Qed.

Lemma trim_occurs (s : jsstring) : exists a b, s = a ++ JsString.trim s ++ b.
Proof.
  unfold JsString.trim, JsString.trimEnd.
  destruct (trimStart_suffix s) as [a Ha].
  destruct (trimStart_suffix (rev (JsString.trimStart s))) as [b Hb].
  exists a, (rev b). rewrite <- rev_app_distr, <- Hb, rev_involutive. exact Ha.
Qed.

(** X10 (what a search returns): for a query that is not blank after
    lower-casing, [searchChats] returns the chats of the store, in their
    order, in whose lower-cased title or in one of whose lower-cased
    message contents the lower-cased, trimmed query occurs. *)
Theorem searchChats_finds_occurrences (query : jsstring) (s : t) (c : Chat) :
  JsString.nonEmpty (JsString.trim (toLowerCase query)) = true ->
  let q := JsString.trim (toLowerCase query) in
  (In c (searchChats toLowerCase query s)
   <-> In c (chats s)
       /\ ((exists a b, toLowerCase (title c) = a ++ q ++ b)
           \/ exists m a b, In m (messages c)
                            /\ toLowerCase (content m) = a ++ q ++ b))
  /\ exists keep, searchChats toLowerCase query s = List.filter keep (chats s).
Proof.
  intros Hq q. subst q. unfold searchChats. cbv zeta. rewrite Hq. cbn [negb].
  split; [|eexists; reflexivity].
  rewrite filter_In, orb_true_iff, includes_occurs, existsb_exists.
  split; intros [Hin H]; (split; [exact Hin|]).
  - destruct H as [H|(m & Hm & H)]; [left; exact H|right].
    apply includes_occurs in H. destruct H as (a & b & H). eauto.
  - destruct H as [H|(m & a & b & Hm & H)]; [left; exact H|right].
    exists m. split; [exact Hm|]. apply includes_occurs. eauto.
Qed.

(** X11 (a chat is found by its own words): searching for the title of a
    chat of the store, or for the content of one of its messages, returns
    that chat among the results, with any amount of white space around the
    query and whatever the case mapping does. *)
Theorem searchChats_finds_own_text (s : t) (c : Chat) (m : Message) :
  In c (chats s) ->
  In c (searchChats toLowerCase (title c) s)
  /\ (In m (messages c) -> In c (searchChats toLowerCase (content m) s)).
Proof.
  intros Hin. unfold searchChats. split.
  - destruct (JsString.nonEmpty _); cbn [negb]; [|exact Hin].
    apply filter_In. split; [exact Hin|]. apply orb_true_iff. left.
    apply includes_occurs. apply trim_occurs.
  - intros Hm. destruct (JsString.nonEmpty _); cbn [negb]; [|exact Hin].
    apply filter_In. split; [exact Hin|]. apply orb_true_iff. right.
    apply existsb_exists. exists m. split; [exact Hm|].
    apply includes_occurs. apply trim_occurs.
Qed.

End Search.

Section SearchExamples.

Import ChatManager.

Lemma searchChats_finds_occurrences_witness :
  let c := mkChat (js "a") (js "Sorting in OCaml") (js "llama3") 1000 []
                  (JNum 0) (JNum 4096) in
  In c (searchChats OllamaClient.asciiLower (js " OCAML ")
          (mk [c] (Some (js "a")))).
Proof.
  intros c.
  apply (proj1 (searchChats_finds_occurrences OllamaClient.asciiLower (js " OCAML ")
                  (mk [c] (Some (js "a"))) c eq_refl)).
  split; [left; reflexivity|]. left.
  exists (js "sorting in "), []. reflexivity.
Defined.

Lemma searchChats_finds_own_text_witness :
  let c := mkChat (js "a") (js "  Sorting ") (js "llama3") 1000 []
                  (JNum 0) (JNum 4096) in
  In c (searchChats OllamaClient.asciiLower (js "  Sorting ")
          (mk [c] (Some (js "a")))).
Proof.
  intros c.
  apply (proj1 (searchChats_finds_own_text OllamaClient.asciiLower
                  (mk [c] (Some (js "a"))) c
                  (mkMessage user [] None None 0)
                  (or_introl eq_refl))).
Defined.

End SearchExamples.

(* ===================================================================== *)
(** * More on the context tracker                                         *)
(* ===================================================================== *)

Section TrackerOperations.

Import ContextTracker.

(** X12 (chats are tracked apart): [update], [setTotal] and [reset] for
    one chat leave what [getUsage] and [formatDisplay] return for every
    other chat as it was. *)
Theorem tracker_isolation (chatId other : jsstring) (p e total : jsval) (m : t) :
  other <> chatId ->
  (forall m', update chatId p e total m = Normal m' ->
              getUsage other m' = getUsage other m
              /\ formatDisplay other m' = formatDisplay other m)
  /\ getUsage other (setTotal chatId total m) = getUsage other m
  /\ formatDisplay other (setTotal chatId total m) = formatDisplay other m
  /\ getUsage other (reset chatId m) = getUsage other m
  /\ formatDisplay other (reset chatId m) = formatDisplay other m.
Proof.
  intros Hne.
  assert (Hset : getUsage other (setTotal chatId total m) = getUsage other m).
  { unfold getUsage, setTotal.
    destruct (m !! chatId); rewrite lookup_insert_ne by congruence; reflexivity. }
  assert (Hreset : getUsage other (reset chatId m) = getUsage other m).
  { unfold getUsage, reset. rewrite lookup_delete_ne by congruence. reflexivity. }
  split; [|unfold formatDisplay; rewrite Hset, Hreset; auto].
  intros m' H. unfold update in H.
  destruct (Js.add p e) as [u|err]; cbn [mbind Completion_bind] in H;
    [|discriminate].
  injection H as <-.
  assert (Hup : getUsage other (<[chatId := mkCounts u total]> m) = getUsage other m).
  { unfold getUsage. rewrite lookup_insert_ne by congruence. reflexivity. }
  unfold formatDisplay. rewrite Hup. auto.
Qed.

Lemma tracker_isolation_witness :
  formatDisplay (js "b")
    (setTotal (js "a") (JNum 8192)
       (<[js "b" := mkCounts (JNum 1536) (JNum 4096)]> ∅))
  = Normal (js "37.5% " ++ [183; 32] ++ js "1.5K / 4.1K context used").
Proof.
  destruct (tracker_isolation (js "a") (js "b") (JNum 1) (JNum 2) (JNum 8192)
              (<[js "b" := mkCounts (JNum 1536) (JNum 4096)]> ∅))
    as (_ & _ & H & _).
  - discriminate.
  - rewrite H. vm_compute. reflexivity.
Defined.

(** X13 (reset): after [reset] the chat reads as one never tracked, with
    the usage [{percent: 0, used: 0, total: 4096}], shown as
    ["0% · 0 / 4.1K context used"]; and [reset] after the first [update]
    of a chat gives back the tracker as it was before. *)
Theorem reset_restores_defaults (chatId : jsstring) (p e total : jsval) (m : t) :
  getUsage chatId (reset chatId m) = Normal (mkUsage 0 (JNum 0) (JNum 4096))
  /\ formatDisplay chatId (reset chatId m)
     = Normal (js "0% " ++ [183; 32] ++ js "0 / 4.1K context used")
  /\ (m !! chatId = None ->
      forall m', update chatId p e total m = Normal m' -> reset chatId m' = m).
Proof.
  assert (H : getUsage chatId (reset chatId m)
              = Normal (mkUsage 0 (JNum 0) (JNum 4096))).
  { unfold getUsage, reset. rewrite lookup_delete_eq. reflexivity. }
  split; [exact H|]. split.
  - unfold formatDisplay. rewrite H. vm_compute. reflexivity.
  - intros Hnone m' Hup. unfold update in Hup.
    destruct (Js.add p e) as [u|err]; cbn [mbind Completion_bind] in Hup;
      [|discriminate].
    injection Hup as <-. unfold reset. apply delete_insert_id. exact Hnone.
Qed.

Lemma reset_restores_defaults_witness :
  reset (js "a") (<[js "a" := mkCounts (JNum 15) (JNum 4096)]> ∅) = ∅.
Proof.
  destruct (reset_restores_defaults (js "a") (JNum 10) (JNum 5) (JNum 4096) ∅)
    as (_ & _ & H).
  apply H; reflexivity.
Defined.

(** X14 (the last write wins): an [update] replaces whatever snapshot the
    chat had, so that of two updates only the second one counts; a
    [setTotal] after an [update] changes the total alone, as if the update
    had been made with that total; and a [setTotal] on a chat never
    tracked starts it at [used: 0]. *)
Theorem tracker_last_write_wins (chatId : jsstring) (p e total p' e' total' : jsval)
        (m m1 : t) :
  update chatId p e total m = Normal m1 ->
  update chatId p' e' total' m1 = update chatId p' e' total' m
  /\ Normal (setTotal chatId total' m1) = update chatId p e total' m
  /\ (m !! chatId = None ->
      setTotal chatId total' m = <[chatId := mkCounts (JNum 0) total']> m).
Proof.
  intros H. unfold update in *.
  destruct (Js.add p e) as [u|err]; cbn [mbind Completion_bind] in *;
    [|discriminate].
  injection H as <-. split; [|split].
  - destruct (Js.add p' e'); cbn [mbind Completion_bind]; [|reflexivity].
    rewrite insert_insert_eq. reflexivity.
  - unfold setTotal. rewrite lookup_insert_eq. cbn [used].
    rewrite insert_insert_eq. reflexivity.
  - intros Hnone. unfold setTotal. rewrite Hnone. reflexivity.
Qed.

Lemma tracker_last_write_wins_witness :
  Normal (setTotal (js "a") (JNum 8192)
            (<[js "a" := mkCounts (JNum 15) (JNum 4096)]> ∅))
  = update (js "a") (JNum 10) (JNum 5) (JNum 8192) ∅.
Proof.
  refine (proj1 (proj2 (tracker_last_write_wins (js "a") (JNum 10) (JNum 5)
                          (JNum 4096) (JNum 1) (JNum 2) (JNum 8192) ∅
                          (<[js "a" := mkCounts (JNum 15) (JNum 4096)]> ∅) _))).
  vm_compute. reflexivity.
Defined.

End TrackerOperations.

(* ===================================================================== *)
(** * More on the client                                                  *)
(* ===================================================================== *)

Section ClientOperations.

Import OllamaClient.

Lemma processLine_length line :
  (length (processLine line)
   <= if JsString.nonEmpty (JsString.trim line) then 1 else 0)%nat.
Proof.
  unfold processLine, tryLine.
  destruct (JsString.nonEmpty _); [|simpl; lia].
  destruct (JSON.parse line) as [v|]; [|simpl; lia].
  destruct (toChunk v); simpl; lia.
Qed.

Lemma flat_map_processLine_length lines :
  (length (flat_map processLine lines)
   <= length (List.filter (fun l => JsString.nonEmpty (JsString.trim l)) lines))%nat.
Proof.
  induction lines as [|l r IH]; simpl; [lia|].
  rewrite length_app. pose proof (processLine_length l) as H.
  destruct (JsString.nonEmpty _); simpl; lia.
Qed.

Lemma filter_removelast_length {A} (p : A -> bool) (l : list A) :
  (length (List.filter p (List.removelast l)) <= length (List.filter p l))%nat.
Proof.
  induction l as [|x r IH]; [simpl; lia|].
  destruct r as [|y r]; [simpl; lia|].
  change (List.removelast (x :: y :: r)) with (x :: List.removelast (y :: r)).
  cbn [List.filter]. destruct (p x); simpl in *; lia.
Qed.

Lemma readLoop_failed reads e :
  readLoop TextDecoder.create [] reads (ReadFailed e)
  = mkStream (flat_map processLine
                (List.removelast
                   (JsString.split 10
                      (snd (TextDecoder.decode TextDecoder.create (concat reads))))))
             (Some e).
Proof.
  rewrite readLoop_merge by (simpl; tauto). rewrite readLoop_single.
  cbn [app]. rewrite app_nil_r. reflexivity.
Qed.

(** X15 (a read that fails): when [reader.read()] rejects after some
    reads, [chatStream] has yielded the records of every complete line
    received, in order, and then throws the error of the read; against a
    stream that ends there instead, only the record of the unterminated
    last line is missing, however the bytes were grouped into reads. *)
Theorem read_failure_keeps_complete_lines (reads : list (list byte)) (e : JsError) :
  let lines := JsString.split 10
                 (snd (TextDecoder.decode TextDecoder.create (concat reads))) in
  readLoop TextDecoder.create [] reads (ReadFailed e)
  = mkStream (flat_map processLine (List.removelast lines)) (Some e)
  /\ yielded (readLoop TextDecoder.create [] reads EndOfStream)
     = yielded (readLoop TextDecoder.create [] reads (ReadFailed e))
       ++ processLine (List.last lines []).
Proof.
  intros lines. subst lines. rewrite readLoop_failed. split; [reflexivity|].
  rewrite readLoop_lines. cbn [yielded].
  set (lines := JsString.split 10 _).
  assert (Hne : lines <> []) by apply split_nonempty.
  rewrite (app_removelast_last [] Hne) at 1.
  rewrite flat_map_app. simpl. rewrite app_nil_r. reflexivity.
Qed.

(** X16 (no more chunks than lines): whatever the server sends and
    however the stream ends, [chatStream] yields at most one chunk for
    each line of the payload that is not blank. *)
Theorem yields_bounded_by_lines (reads : list (list byte)) (ending : ReadEnd) :
  (length (yielded (readLoop TextDecoder.create [] reads ending))
   <= length (List.filter (fun l => JsString.nonEmpty (JsString.trim l))
                (JsString.split 10
                   (snd (TextDecoder.decode TextDecoder.create (concat reads))))))%nat.
Proof.
  destruct ending as [|e].
  - rewrite readLoop_lines. apply flat_map_processLine_length.
  - rewrite readLoop_failed. cbn [yielded].
    set (lines := JsString.split 10 _).
    pose proof (flat_map_processLine_length (List.removelast lines)) as H.
    pose proof (filter_removelast_length
                  (fun l => JsString.nonEmpty (JsString.trim l)) lines).
    lia.
Qed.

Lemma get_field (v : jsval) (key : jsstring) :
  v <> JNull -> v <> JUndefined -> Js.get v key = Normal (Js.field v key).
Proof. intros H1 H2. destruct v; try contradiction; reflexivity. Qed.

Lemma getOpt_field (v : jsval) (key : jsstring) :
  Js.getOpt v key = Normal (Js.field v key).
Proof. destruct v; reflexivity. Qed.

(** X17 (defaults of a chunk): the record of a line holding any JSON
    value but [null] is yielded; its [content] and [thinking] are the
    values found under [message] if truthy and [''] otherwise, its [done]
    the value found if truthy and [false] otherwise, and its token counts
    are the values found, whatever they are.  A value that is not an object
    (a number, a string, a boolean, an array) gives the chunk of all
    defaults. *)
Theorem toChunk_defaults (v : jsval) :
  v <> JNull -> v <> JUndefined ->
  let message := Js.field v (js "message") in
  let foundContent := Js.field message (js "content") in
  let foundThinking := Js.field message (js "thinking") in
  let foundDone := Js.field v (js "done") in
  exists c, toChunk v = Normal c
    /\ content c = (if Js.truthy foundContent then foundContent else JStr [])
    /\ thinking c = (if Js.truthy foundThinking then foundThinking else JStr [])
    /\ done c = (if Js.truthy foundDone then foundDone else JBool false)
    /\ promptTokens c = Js.field v (js "prompt_eval_count")
    /\ evalTokens c = Js.field v (js "eval_count")
    /\ (content c = JStr [] \/ Js.truthy (content c) = true)
    /\ (thinking c = JStr [] \/ Js.truthy (thinking c) = true)
    /\ (done c = JBool false \/ Js.truthy (done c) = true)
    /\ Js.get v (js "prompt_eval_count") = Normal (promptTokens c)
    /\ Js.get v (js "eval_count") = Normal (evalTokens c)
    /\ ((forall props, v <> JObj props) ->
        c = mkChunk (JStr []) (JStr []) (JBool false) JUndefined JUndefined)
    /\ (forall line, JSON.parse line = Some v -> processLine line = [c]).
Proof.
  intros H1 H2 message foundContent foundThinking foundDone.
  assert (Hor : forall a b, (if Js.truthy a then a else b) = b
                            \/ Js.truthy (if Js.truthy a then a else b) = true).
  { intros a b. destruct (Js.truthy a) eqn:E; auto. }
  assert (Hc : toChunk v
               = Normal (mkChunk
                           (if Js.truthy foundContent then foundContent else JStr [])
                           (if Js.truthy foundThinking then foundThinking else JStr [])
                           (if Js.truthy foundDone then foundDone else JBool false)
                           (Js.field v (js "prompt_eval_count"))
                           (Js.field v (js "eval_count")))).
  { unfold toChunk. rewrite !(get_field v) by assumption.
    cbn [mbind Completion_bind]. rewrite !getOpt_field.
    cbn [mbind Completion_bind]. reflexivity. }
  eexists. split; [exact Hc|]. cbn [content thinking done promptTokens evalTokens].
  do 5 (split; [reflexivity|]).
  do 3 (split; [apply Hor|]).
  split; [apply get_field; assumption|]. split; [apply get_field; assumption|].
  split.
  - intros Hno. subst foundContent foundThinking foundDone message.
    destruct v as [| |x|x|x|x|props]; try reflexivity.
    exfalso. apply (Hno props). reflexivity.
  - intros line Hp.
    destruct (processLine_valid line v Hp H1) as (c & Hc' & Hl).
    rewrite Hl. congruence.
Qed.

Lemma toChunk_defaults_witness :
  processLine (jsq "{'message':{'content':'Hi','thinking':0},'done':1,'eval_count':'7'}")
  = [mkChunk (JStr (js "Hi")) (JStr []) (JNum 1) JUndefined (JStr (js "7"))]
  /\ processLine (js "5")
     = [mkChunk (JStr []) (JStr []) (JBool false) JUndefined JUndefined].
Proof.
  split.
  - destruct (toChunk_defaults
                (JObj [(js "message", JObj [(js "content", JStr (js "Hi"));
                                            (js "thinking", JNum 0)]);
                       (js "done", JNum 1);
                       (js "eval_count", JStr (js "7"))]))
      as (c & Hc & _ & _ & _ & _ & _ & _ & _ & _ & _ & _ & _ & Hline);
      [discriminate|discriminate|].
    rewrite (Hline
               (jsq "{'message':{'content':'Hi','thinking':0},'done':1,'eval_count':'7'}")).
    + vm_compute in Hc. injection Hc as <-. reflexivity.
    + vm_compute. reflexivity.
  - destruct (toChunk_defaults (JNum 5))
      as (c & Hc & _ & _ & _ & _ & _ & _ & _ & _ & _ & _ & H & Hline);
      [discriminate|discriminate|].
    rewrite (Hline (js "5")).
    + rewrite <- H by discriminate. reflexivity.
    + vm_compute. reflexivity.
Defined.

(** X18 (context length of a model): [getModelInfo] returns for every
    answer of [/api/show] but [null]: as context length the
    [llama.context_length] found in [model_info] if truthy, else the
    [context_length] found there if truthy, else 4096, so never a falsy
    value, and 4096 when the answer has no [model_info]; as family the
    [details.family] found if truthy and [''] otherwise. *)
Theorem getModelInfo_contextLength (show : jsstring -> Completion jsval)
        (model : jsstring) (data : jsval) :
  show model = Normal data -> data <> JNull -> data <> JUndefined ->
  let info := Js.field data (js "model_info") in
  let a := Js.field info (js "llama.context_length") in
  let b := Js.field info (js "context_length") in
  let f := Js.field (Js.field data (js "details")) (js "family") in
  exists r, getModelInfo show model = Normal r
    /\ contextLength r
       = (if Js.truthy a then a else if Js.truthy b then b else JNum 4096)
    /\ family r = (if Js.truthy f then f else JStr [])
    /\ Js.truthy (contextLength r) = true
    /\ (family r = JStr [] \/ Js.truthy (family r) = true)
    /\ (Js.get data (js "model_info") = Normal JUndefined ->
        contextLength r = JNum 4096).
Proof.
  intros Hs H1 H2 info a b f.
  assert (Hr : getModelInfo show model
               = Normal (mkModelInfo
                           (if Js.truthy a then a
                            else if Js.truthy b then b else JNum 4096)
                           (if Js.truthy f then f else JStr []))).
  { unfold getModelInfo. rewrite Hs. cbn [mbind Completion_bind].
    rewrite !(get_field data) by assumption.
    cbn [mbind Completion_bind].
    rewrite (getOpt_field (Js.field data (js "model_info"))
                          (js "llama.context_length")).
    cbn [mbind Completion_bind]. fold info a.
    unfold Js.or.
    destruct (Js.truthy a) eqn:Ea; cbn [mbind Completion_bind];
      rewrite ?getOpt_field; cbn [mbind Completion_bind]; fold b f;
      rewrite ?Ea; [reflexivity|].
    destruct (Js.truthy b) eqn:Eb; rewrite ?Eb; reflexivity. }
  eexists. split; [exact Hr|]. cbn [contextLength family].
  split; [reflexivity|]. split; [reflexivity|]. split; [|split].
  - destruct (Js.truthy a) eqn:Ea; [exact Ea|].
    destruct (Js.truthy b) eqn:Eb; [exact Eb|reflexivity].
  - destruct (Js.truthy f) eqn:Ef; auto.
  - intros Hi. rewrite (get_field data) in Hi by assumption.
    injection Hi as Hi. subst a b. fold info in Hi. rewrite Hi. reflexivity.
Qed.

Lemma getModelInfo_contextLength_witness :
  getModelInfo
    (fun _ => Normal (JObj [(js "model_info",
                             JObj [(js "llama.context_length", JNum 0);
                                   (js "context_length", JNum 8192)]);
                            (js "details", JObj [(js "family", JStr (js "llama"))])]))
    (js "llama3")
  = Normal (mkModelInfo (JNum 8192) (JStr (js "llama")))
  /\ getModelInfo
       (fun _ => Normal (JObj [(js "model_info",
                                JObj [(js "context_length", JNum 0)])]))
       (js "llama3")
     = Normal (mkModelInfo (JNum 4096) (JStr [])).
Proof.
  split.
  - destruct (getModelInfo_contextLength
                (fun _ => Normal (JObj [(js "model_info",
                                         JObj [(js "llama.context_length", JNum 0);
                                               (js "context_length", JNum 8192)]);
                                        (js "details",
                                         JObj [(js "family", JStr (js "llama"))])]))
                (js "llama3") _ eq_refl) as (r & Hr & Hc & Hf & _);
      [discriminate|discriminate|].
    rewrite Hr. destruct r as [c f]. cbn [contextLength family] in Hc, Hf.
    rewrite Hc, Hf. vm_compute. reflexivity.
  - destruct (getModelInfo_contextLength
                (fun _ => Normal (JObj [(js "model_info",
                                         JObj [(js "context_length", JNum 0)])]))
                (js "llama3") _ eq_refl) as (r & Hr & Hc & Hf & _);
      [discriminate|discriminate|].
    rewrite Hr. destruct r as [c f]. cbn [contextLength family] in Hc, Hf.
    rewrite Hc, Hf. vm_compute. reflexivity.
Defined.

(** X19 (a turn that cannot be read): [chat] returns no result when the
    stream fails, whatever was received before: it throws the error of
    [fetch], the API error for a status that is not a success, and in
    general some error whenever the stream throws one. *)
Theorem chat_fails_when_stream_fails (fetch : Server) (model : jsstring)
        (messages : list ChatMessage) (think : bool) :
  (forall e, thrown (snd (chatStream fetch model messages think)) = Some e ->
             exists e', chat fetch model messages think = Throw e')
  /\ (forall e, fetch (mkRequest model messages true think) = Throw e ->
                chat fetch model messages think = Throw e)
  /\ (forall res, fetch (mkRequest model messages true think) = Normal res ->
                  ok res = false ->
                  chat fetch model messages think = Throw (apiError res)).
Proof.
  split; [|split].
  - intros e He. unfold chat, forAwait.
    destruct (forEach _ _ _) as [r|e']; cbn [mbind Completion_bind].
    + rewrite He. eauto.
    + eauto.
  - intros e He. unfold chat, chatStream. cbn [snd]. rewrite He. reflexivity.
  - intros res Hres Hok. unfold chat, chatStream, streamOf. cbn [snd].
    rewrite Hres, Hok. reflexivity.
Qed.

Lemma chat_fails_when_stream_fails_witness :
  chat (fun _ => Normal (mkResponse 404 (js "Not Found") None)) (js "llama3") [] false
  = Throw (mkError (js "Error") (js "Ollama API error: 404 Not Found")).
Proof.
  destruct (chat_fails_when_stream_fails
              (fun _ => Normal (mkResponse 404 (js "Not Found") None))
              (js "llama3") [] false) as (_ & _ & H).
  rewrite (H _ eq_refl eq_refl). vm_compute. reflexivity.
Defined.

End ClientOperations.

Section ModelListing.

Import OllamaClient.

Variable toLowerCase : jsstring -> jsstring.

Lemma mapM_Forall2 {A B} (f : A -> Completion B) (l : list A) : forall r,
  Js.mapM f l = Normal r -> Forall2 (fun x y => f x = Normal y) l r.
Proof.
  induction l as [|x l IH]; intros r; simpl.
  - intros [= <-]. constructor.
  - destruct (f x) as [y|e] eqn:E; cbn [mbind Completion_bind]; [|discriminate].
    destruct (Js.mapM f l) as [ys|e]; cbn [mbind Completion_bind]; [|discriminate].
    intros [= <-]. constructor; [exact E|]. apply IH. reflexivity.
Qed.

Lemma someM_true {A} (f : A -> Completion bool) (l : list A) (b : bool) :
  Js.someM f l = Normal b ->
  (b = true <-> exists x, In x l /\ f x = Normal true).
Proof.
  induction l as [|x l IH]; simpl.
  - intros [= <-]. split; [discriminate|]. intros (x & [] & _).
  - destruct (f x) as [[|]|e] eqn:E; cbn [mbind Completion_bind];
      [| |discriminate].
    + intros [= <-]. split; [|reflexivity]. intros _. exists x. auto.
    + intros H. rewrite (IH H). split.
      * intros (y & Hy & Hf). exists y. auto.
      * intros (y & [<-|Hy] & Hf); [congruence|]. exists y. auto.
Qed.

Lemma sameValueZero_string (v : jsval) (s : jsstring) :
  Js.sameValueZero v (JStr s) = true <-> v = JStr s.
Proof.
  destruct v; simpl; try (split; [discriminate|discriminate]).
  unfold JsString.eqb. rewrite bool_decide_eq_true. split; congruence.
Qed.

(** The family recorded in an entry: [m.details?.family]. *)
Lemma inFamily_true (m : jsval) (s f : jsstring) :
  Js.get m (js "name") = Normal (JStr s) ->
  (inFamily toLowerCase m f = Normal true
   <-> JsString.includes (toLowerCase s) f = true
       \/ exists d fam, Js.get m (js "details") = Normal d
                        /\ Js.getOpt d (js "family") = Normal (JStr fam)
                        /\ JsString.includes (toLowerCase fam) f = true).
Proof.
  intros Hn. unfold inFamily. rewrite Hn. cbn [mbind Completion_bind Js.lower].
  destruct (JsString.includes (toLowerCase s) f) eqn:E; [split; auto|].
  destruct (Js.get m (js "details")) as [d|e] eqn:Ed;
    cbn [mbind Completion_bind].
  2:{ split; [discriminate|].
      intros [H|(d' & fam' & H & _)]; discriminate. }
  destruct (Js.getOpt d (js "family")) as [fam|e] eqn:Ef;
    cbn [mbind Completion_bind].
  2:{ split; [discriminate|].
      intros [H|(d' & fam' & Hd & H & _)]; [discriminate|].
      injection Hd as <-. congruence. }
  assert (Hright : forall fam0, fam = JStr fam0 ->
            (false = true
             \/ exists d0 fam1, Normal d = Normal d0
                  /\ Js.getOpt d0 (js "family") = Normal (JStr fam1)
                  /\ JsString.includes (toLowerCase fam1) f = true)
            <-> JsString.includes (toLowerCase fam0) f = true).
  { intros fam0 ->. split.
    - intros [H|(d0 & fam1 & Hd & Hf & H)]; [discriminate|].
      injection Hd as <-. congruence.
    - intros H. right. eauto. }
  assert (Hother : (forall fam0, fam <> JStr fam0) ->
            ~ (false = true
               \/ exists d0 fam1, Normal d = Normal d0
                    /\ Js.getOpt d0 (js "family") = Normal (JStr fam1)
                    /\ JsString.includes (toLowerCase fam1) f = true)).
  { intros Hno [H|(d0 & fam1 & Hd & Hf & _)]; [discriminate|].
    injection Hd as <-. apply (Hno fam1). congruence. }
  destruct fam as [| |b|x|fs|l|props]; cbn [mbind Completion_bind Js.lower];
    try (split; [discriminate|]; intros H; exfalso; revert H;
         apply Hother; intros fam0; discriminate).
  rewrite (Hright fs eq_refl). split; [intros [= H]; exact H|].
  intros H. rewrite H. reflexivity.
Qed.

Lemma toModel_inv (loadedSet : list jsval) (entry : jsval) (m : Model) :
  toModel toLowerCase loadedSet entry = Normal m ->
  Js.get entry (js "name") = Normal (JStr (name m))
  /\ modelContextLength m = 4096%float
  /\ loaded m = existsb (fun v => Js.sameValueZero v (JStr (name m))) loadedSet
  /\ Js.someM (inFamily toLowerCase entry) thinkingFamilies
     = Normal (supportsThinking m).
Proof.
  unfold toModel.
  destruct (Js.get entry (js "name")) as [n|e]; cbn [mbind Completion_bind];
    [|discriminate].
  destruct (Js.someM _ _) as [sup|e]; cbn [mbind Completion_bind];
    [|discriminate].
  destruct n; try discriminate. intros [= <-]. cbn. auto.
Qed.

Lemma listModels_inv (tags ps tm pm : jsval) (entries loadedEntries : list jsval)
      (models : list Model) :
  Js.get tags (js "models") = Normal tm ->
  Js.or tm (JArr []) = JArr entries ->
  Js.get ps (js "models") = Normal pm ->
  Js.or pm (JArr []) = JArr loadedEntries ->
  listModels toLowerCase (Normal (Normal tags, Normal ps)) = Normal models ->
  exists loadedSet,
    Forall2 (fun l v => Js.get l (js "model") = Normal v) loadedEntries loadedSet
    /\ Forall2 (fun entry m => toModel toLowerCase loadedSet entry = Normal m)
               entries models.
Proof.
  intros Ht Hto Hp Hpo. unfold listModels. cbn [mbind Completion_bind fst snd].
  rewrite Hp, Ht. cbn [mbind Completion_bind]. rewrite Hto, Hpo.
  cbn [mbind Completion_bind Js.elements].
  destruct (Js.mapM _ loadedEntries) as [loadedSet|e] eqn:El;
    cbn [mbind Completion_bind]; [|discriminate].
  intros H. exists loadedSet. split; apply mapM_Forall2; assumption.
Qed.

(** X20 (the models listed): when [tags.models || []] and
    [ps.models || []] are arrays and [listModels] returns, it returns one model
    for each entry of the tags, in their order: its name is the entry's
    [name], a string; its context length is 4096; it is loaded exactly when
    some entry of [/api/ps] has that name as its [model]; and it supports
    thinking exactly when its lower-cased name, or the lower-cased
    [details.family] of the entry, contains one of [deepseek], [qwen] and
    [qwq]. *)
Theorem listModels_entries (tags ps tm pm : jsval) (entries loadedEntries : list jsval)
        (models : list Model) :
  Js.get tags (js "models") = Normal tm ->
  Js.or tm (JArr []) = JArr entries ->
  Js.get ps (js "models") = Normal pm ->
  Js.or pm (JArr []) = JArr loadedEntries ->
  listModels toLowerCase (Normal (Normal tags, Normal ps)) = Normal models ->
  Forall2
    (fun entry m =>
       Js.get entry (js "name") = Normal (JStr (name m))
       /\ modelContextLength m = 4096%float
       /\ (loaded m = true
           <-> exists l, In l loadedEntries
                         /\ Js.get l (js "model") = Normal (JStr (name m)))
       /\ (supportsThinking m = true
           <-> exists f, In f thinkingFamilies
                 /\ (JsString.includes (toLowerCase (name m)) f = true
                     \/ exists d fam,
                          Js.get entry (js "details") = Normal d
                          /\ Js.getOpt d (js "family") = Normal (JStr fam)
                          /\ JsString.includes (toLowerCase fam) f = true)))
    entries models.
Proof.
  intros Ht Hto Hp Hpo H.
  destruct (listModels_inv _ _ _ _ _ _ _ Ht Hto Hp Hpo H) as (loadedSet & Hl & Hm).
  clear H Ht Hto. induction Hm as [|entry m entries' models' Hentry _ IH];
    constructor; [|exact IH].
  destruct (toModel_inv _ _ _ Hentry) as (Hn & Hc & Hload & Hsup).
  split; [exact Hn|]. split; [exact Hc|]. split.
  - rewrite Hload, existsb_exists. clear -Hl. split.
    + intros (v & Hv & Hs). apply sameValueZero_string in Hs. subst v.
      induction Hl as [|l v ls vs Hlv _ IH]; [destruct Hv|].
      destruct Hv as [->|Hv].
      * exists l. split; [left; reflexivity|exact Hlv].
      * destruct (IH Hv) as (l' & Hl' & Hg). exists l'. split; [right|]; assumption.
    + intros (l & Hin & Hg).
      induction Hl as [|l' v ls vs Hlv _ IH]; [destruct Hin|].
      destruct Hin as [->|Hin].
      * exists v. split; [left; reflexivity|].
        apply sameValueZero_string. congruence.
      * destruct (IH Hin) as (v' & Hv' & Hs). exists v'. split; [right|]; assumption.
  - rewrite (someM_true _ _ _ Hsup). split.
    + intros (f & Hf & Hin). exists f. split; [exact Hf|].
      apply (inFamily_true _ _ _ Hn). exact Hin.
    + intros (f & Hf & Hin). exists f. split; [exact Hf|].
      apply (inFamily_true _ _ _ Hn). exact Hin.
Qed.

(** X21 (an entry without a name): [listModels] returns no list at all
    when one entry of the tags has a [name] that is not a string, whatever
    the other entries are. *)
Theorem listModels_needs_names (tags ps tm pm : jsval) (entries loadedEntries : list jsval)
        (entry : jsval) :
  Js.get tags (js "models") = Normal tm ->
  Js.or tm (JArr []) = JArr entries ->
  Js.get ps (js "models") = Normal pm ->
  Js.or pm (JArr []) = JArr loadedEntries ->
  In entry entries ->
  (forall s, Js.get entry (js "name") <> Normal (JStr s)) ->
  exists e, listModels toLowerCase (Normal (Normal tags, Normal ps)) = Throw e.
Proof.
  intros Ht Hto Hp Hpo Hin Hname.
  destruct (listModels toLowerCase _) as [models|e] eqn:H; [|eauto].
  exfalso.
  destruct (listModels_inv _ _ _ _ _ _ _ Ht Hto Hp Hpo H) as (loadedSet & _ & Hm).
  clear H Ht Hto. induction Hm as [|x m entries' models' Hx _ IH]; [destruct Hin|].
  destruct Hin as [->|Hin]; [|auto].
  destruct (toModel_inv _ _ _ Hx) as (Hn & _). exact (Hname _ Hn).
Qed.

End ModelListing.

Section ModelListingExamples.

Import OllamaClient.

(** Two installed models, the second one loaded. *)
Lemma listModels_entries_witness :
  Forall2
    (fun entry m =>
       Js.get entry (js "name") = Normal (JStr (name m))
       /\ modelContextLength m = 4096%float
       /\ (loaded m = true
           <-> exists l, In l [JObj [(js "model", JStr (js "Qwen3:4b"))]]
                         /\ Js.get l (js "model") = Normal (JStr (name m)))
       /\ (supportsThinking m = true
           <-> exists f, In f thinkingFamilies
                 /\ (JsString.includes (asciiLower (name m)) f = true
                     \/ exists d fam,
                          Js.get entry (js "details") = Normal d
                          /\ Js.getOpt d (js "family") = Normal (JStr fam)
                          /\ JsString.includes (asciiLower fam) f = true)))
    [JObj [(js "name", JStr (js "llama3:8b"))];
     JObj [(js "name", JStr (js "Qwen3:4b"))]]
    [mkModel (js "llama3:8b") false 4096 false;
     mkModel (js "Qwen3:4b") true 4096 true].
Proof.
  apply (listModels_entries asciiLower tagsExample psExample
           (JArr [JObj [(js "name", JStr (js "llama3:8b"))];
                  JObj [(js "name", JStr (js "Qwen3:4b"))]])
           (JArr [JObj [(js "model", JStr (js "Qwen3:4b"))]])).
  - reflexivity.
  - reflexivity.
  - reflexivity.
  - reflexivity.
  - vm_compute. reflexivity.
Defined.

(** Without [models] in the answer of [/api/ps], and with an entry that
    has no name. *)
Lemma listModels_needs_names_witness :
  exists e,
    listModels asciiLower
      (Normal (Normal (JObj [(js "models", JArr [JObj []])]), Normal (JObj [])))
    = Throw e.
Proof.
  apply (listModels_needs_names asciiLower
           (JObj [(js "models", JArr [JObj []])]) (JObj [])
           (JArr [JObj []]) JUndefined [JObj []] [] (JObj [])).
  - reflexivity.
  - reflexivity.
  - reflexivity.
  - reflexivity.
  - left. reflexivity.
  - intros s. discriminate.
Defined.

End ModelListingExamples.

(* ===================================================================== *)
(** * More on a turn of the conversation                                  *)
(* ===================================================================== *)

Section TurnOperations.

Import SidebarProvider.

Variable env : Env.

Lemma getModelInfo_truthy (show : jsstring -> Completion jsval) (m : jsstring)
      (info : OllamaClient.ModelInfo) :
  OllamaClient.getModelInfo show m = Normal info ->
  Js.truthy (OllamaClient.contextLength info) = true.
Proof.
  unfold OllamaClient.getModelInfo.
  destruct (show m) as [data|e]; cbn [mbind Completion_bind]; [|discriminate].
  destruct (Js.get data (js "model_info")) as [i|e]; cbn [mbind Completion_bind];
    [|discriminate].
  destruct (Js.getOpt i (js "llama.context_length")) as [a|e];
    cbn [mbind Completion_bind]; [|discriminate].
  destruct (if Js.truthy a then _ else _) as [b|e]; cbn [mbind Completion_bind];
    [|discriminate].
  destruct (Js.get data (js "details")) as [d|e]; cbn [mbind Completion_bind];
    [|discriminate].
  destruct (Js.getOpt d (js "family")) as [f|e]; cbn [mbind Completion_bind];
    [|discriminate].
  intros [= <-]. cbn [OllamaClient.contextLength]. unfold Js.or.
  destruct (Js.truthy a) eqn:Ea; cbv iota; rewrite ?Ea; cbv iota;
    [first [exact Ea|reflexivity]|].
  destruct (Js.truthy b) eqn:Eb; cbv iota; rewrite ?Eb; cbv iota;
    first [exact Eb|reflexivity].
Qed.

(** X22 (tracker and store move together): for a chat of the store, the
    context update on the final record either fails before writing
    anything, or writes one snapshot, the sum of the two token counts and
    the (never falsy) context length of the model, to both places: the
    tracker then holds it under the chat's id and [getById] returns the
    chat with it as its [contextUsed] and [contextTotal]; the other
    entries of the tracker and the chats under other ids stay. *)
Theorem reportUsage_updates_together (chat c0 : ChatManager.Chat)
        (chunk : OllamaClient.ChatChunk) (p : t) :
  ChatManager.getById (ChatManager.id chat) (chatManager p) = Some c0 ->
  (snd (reportUsage env chat chunk p) <> None
   /\ fst (reportUsage env chat chunk p) = p)
  \/ exists used info,
       OllamaClient.getModelInfo (show env) (ChatManager.model chat) = Normal info
       /\ Js.add (OllamaClient.promptTokens chunk) (OllamaClient.evalTokens chunk)
          = Normal used
       /\ Js.truthy (OllamaClient.contextLength info) = true
       /\ contextTracker (fst (reportUsage env chat chunk p))
          = <[ChatManager.id chat
              := ContextTracker.mkCounts used (OllamaClient.contextLength info)]>
              (contextTracker p)
       /\ chatManager (fst (reportUsage env chat chunk p))
          = ChatManager.updateContext (ChatManager.id chat) used
              (OllamaClient.contextLength info) (chatManager p)
       /\ contextTracker (fst (reportUsage env chat chunk p)) !! ChatManager.id chat
          = Some (ContextTracker.mkCounts used (OllamaClient.contextLength info))
       /\ ChatManager.getById (ChatManager.id chat)
            (chatManager (fst (reportUsage env chat chunk p)))
          = Some (ChatManager.mkChat (ChatManager.id c0) (ChatManager.title c0)
                    (ChatManager.model c0) (ChatManager.createdAt c0)
                    (ChatManager.messages c0) used
                    (OllamaClient.contextLength info))
       /\ (forall other, other <> ChatManager.id chat ->
             contextTracker (fst (reportUsage env chat chunk p)) !! other
             = contextTracker p !! other
             /\ ChatManager.getById other
                  (chatManager (fst (reportUsage env chat chunk p)))
                = ChatManager.getById other (chatManager p)).
Proof.
  intros Hin.
  assert (Hcases :
    (snd (reportUsage env chat chunk p) <> None
     /\ fst (reportUsage env chat chunk p) = p)
    \/ exists used info,
         OllamaClient.getModelInfo (show env) (ChatManager.model chat) = Normal info
         /\ Js.add (OllamaClient.promptTokens chunk) (OllamaClient.evalTokens chunk)
            = Normal used
         /\ contextTracker (fst (reportUsage env chat chunk p))
            = <[ChatManager.id chat
                := ContextTracker.mkCounts used (OllamaClient.contextLength info)]>
                (contextTracker p)
         /\ chatManager (fst (reportUsage env chat chunk p))
            = ChatManager.updateContext (ChatManager.id chat) used
                (OllamaClient.contextLength info) (chatManager p)).
  { unfold reportUsage.
    destruct (OllamaClient.getModelInfo _ _) as [info|e] eqn:Ei;
      [|left; split; [discriminate|reflexivity]].
    unfold ContextTracker.update.
    destruct (Js.add _ _) as [used|e] eqn:Ea; cbn [mbind Completion_bind];
      [|left; split; [discriminate|reflexivity]].
    right. exists used, info.
    split; [reflexivity|]. split; [reflexivity|].
    destruct (ContextTracker.formatDisplay _ _) as [display|e];
      [|split; reflexivity].
    destruct (ContextTracker.getUsage _ _) as [usage|e]; [|split; reflexivity].
    unfold postMessage. cbn [view withManager withTracker].
    destruct (view p); split; reflexivity. }
  destruct Hcases as [H|(used & info & Hi & Ha & Ht & Hm)]; [left; exact H|].
  right. exists used, info.
  split; [exact Hi|]. split; [exact Ha|].
  split; [exact (getModelInfo_truthy _ _ _ Hi)|].
  split; [exact Ht|]. split; [exact Hm|]. rewrite Ht, Hm.
  split; [apply lookup_insert_eq|]. split.
  - unfold ChatManager.getById, ChatManager.updateContext in *.
    cbn [ChatManager.chats]. rewrite find_modifyFirst by reflexivity.
    rewrite Hin. reflexivity.
  - intros other Hother. split.
    + apply lookup_insert_ne. congruence.
    + unfold ChatManager.getById, ChatManager.updateContext.
      cbn [ChatManager.chats].
      apply find_modifyFirst_other; [reflexivity|exact Hother].
Qed.

(** What no step of a turn changes after the request is made: a property
    of the provider kept by posting and by the two writes of the context
    update is kept by the whole loop. *)
Section LoopInvariant.

Variable chat : ChatManager.Chat.
Variable P : t -> Prop.
Hypothesis P_post : forall msg p, P p -> P (postMessage msg p).
Hypothesis P_tracker : forall c p, P p -> P (withTracker c p).
Hypothesis P_manager : forall u x p,
  P p ->
  P (withManager (ChatManager.updateContext (ChatManager.id chat) u x
                    (chatManager p)) p).

Lemma reportUsage_invariant chunk p :
  P p -> P (fst (reportUsage env chat chunk p)).
Proof.
  intros Hp. unfold reportUsage.
  destruct (OllamaClient.getModelInfo _ _) as [info|e]; [|exact Hp].
  destruct (ContextTracker.update _ _ _ _ _) as [tracker|e]; [|exact Hp].
  destruct (Js.add _ _) as [used|e]; [|apply P_tracker; exact Hp].
  destruct (ContextTracker.formatDisplay _ _) as [display|e];
    [|apply P_manager, P_tracker; exact Hp].
  destruct (ContextTracker.getUsage _ _) as [usage|e];
    [|apply P_manager, P_tracker; exact Hp].
  apply P_post, P_manager, P_tracker. exact Hp.
Qed.

Lemma onChunk_invariant i chunk l p :
  P p -> P (snd (fst (onChunk env chat i chunk (l, p)))).
Proof.
  intros Hp. unfold onChunk.
  destruct (if Js.truthy (OllamaClient.thinking chunk) then _ else _) as [l1|e];
    [|exact Hp].
  destruct (if Js.truthy (OllamaClient.content chunk) then _ else _) as [l2|e];
    [|exact Hp].
  destruct (_ && _ && _).
  - pose proof (reportUsage_invariant chunk _ (P_post (streamUpdate (thinking l2) (content l2) (lastThinkingTime l2)) p Hp)) as H.
    destruct (reportUsage _ _ _ _) as [p' e]. exact H.
  - apply P_post. exact Hp.
Qed.

Lemma forAwait_invariant chunks : forall i l p,
  P p -> P (snd (fst (forAwait env chat i chunks (l, p)))).
Proof.
  induction chunks as [|chunk rest IH]; intros i l p Hp; [exact Hp|].
  cbn [forAwait]. pose proof (onChunk_invariant i chunk l p Hp) as H.
  destruct (onChunk env chat i chunk (l, p)) as [[l' p'] [e|]]; [exact H|].
  apply IH. exact H.
Qed.

End LoopInvariant.

Lemma getActive_getById (s : ChatManager.t) (active : ChatManager.Chat) :
  ChatManager.getActive s = Some active ->
  ChatManager.getById (ChatManager.id active) s = Some active.
Proof.
  intros H. destruct (getActive_In _ _ H) as [_ Ha].
  unfold ChatManager.getActive in H. rewrite Ha in H. exact H.
Qed.

(** X23 (the request of a turn): a turn with no active chat or with blank
    text changes nothing; any other turn sends exactly one request, for
    the model of the active chat, streaming, whose messages are the roles
    and contents of the chat's messages followed by the new user message
    with the trimmed text, and which asks for thinking exactly when the
    first listed model of that name supports it. *)
Theorem turn_sends_history (text : jsstring) (p : t) :
  (ChatManager.getActive (chatManager p) = None
   \/ JsString.nonEmpty (JsString.trim text) = false ->
   handleSendMessage env text p = p)
  /\ (forall active,
        ChatManager.getActive (chatManager p) = Some active ->
        JsString.nonEmpty (JsString.trim text) = true ->
        sent (handleSendMessage env text p)
        = sent p
          ++ [OllamaClient.mkRequest (ChatManager.model active)
                (List.map toChatMessage (ChatManager.messages active)
                 ++ [OllamaClient.mkChatMessage OllamaClient.user
                       (JsString.trim text)])
                true
                match List.find (fun m => JsString.eqb (OllamaClient.name m)
                                            (ChatManager.model active))
                                (models p) with
                | Some m => OllamaClient.supportsThinking m
                | None => false
                end]).
Proof.
  split.
  - intros [H|H]; unfold handleSendMessage.
    + rewrite H. reflexivity.
    + rewrite H. destruct (ChatManager.getActive _); reflexivity.
  - intros active Ha Ht. unfold handleSendMessage. rewrite Ha, Ht. cbn [negb].
    set (userMsg := ChatManager.mkMessage ChatManager.user (JsString.trim text)
                      None None (userTime env)).
    assert (Hpost : forall msg q, chatManager (postMessage msg q) = chatManager q
                                  /\ models (postMessage msg q) = models q
                                  /\ sent (postMessage msg q) = sent q).
    { intros msg q. unfold postMessage. destruct (view q); auto. }
    rewrite !(proj1 (Hpost _ _)), !(proj1 (proj2 (Hpost _ _))).
    cbn [chatManager models withManager].
    unfold ChatManager.getById, ChatManager.addMessage. cbn [ChatManager.chats].
    rewrite find_modifyFirst by reflexivity.
    pose proof (getActive_getById _ _ Ha) as Hg.
    unfold ChatManager.getById in Hg. rewrite Hg.
    cbn [option_map]. change (default active (Some ?x)) with x.
    unfold OllamaClient.chatStream.
    set (request := OllamaClient.mkRequest _ _ _ _).
    set (p1 := withSent [request] _).
    pose proof (forAwait_invariant (ChatManager.pushMessage userMsg active)
                  (fun q => sent q = sent p ++ [request])) as Hinv.
    specialize (Hinv (fun msg q H => eq_trans (proj2 (proj2 (Hpost msg q))) H)
                     (fun c q H => H) (fun u x q H => H)
                     (OllamaClient.yielded
                        (OllamaClient.streamOf (fetch env request)))
                     0%nat (mkLocals [] [] 0) p1).
    destruct (forAwait _ _ _ _ _) as [[l p2] e]. cbn [fst snd] in Hinv.
    assert (H2 : sent p2 = sent p ++ [request]).
    { apply Hinv. unfold p1, withSent. cbn [sent].
      rewrite !(proj2 (proj2 (Hpost _ _))). reflexivity. }
    assert (Hreq : request
                   = OllamaClient.mkRequest (ChatManager.model active)
                       (List.map toChatMessage (ChatManager.messages active)
                        ++ [OllamaClient.mkChatMessage OllamaClient.user
                              (JsString.trim text)])
                       true
                       match List.find (fun m => JsString.eqb (OllamaClient.name m)
                                                   (ChatManager.model active))
                                       (models p) with
                       | Some m => OllamaClient.supportsThinking m
                       | None => false
                       end).
    { unfold request, ChatManager.pushMessage.
      cbn [ChatManager.messages ChatManager.model].
      rewrite List.map_app. reflexivity. }
    rewrite <- Hreq.
    destruct (match e with Some _ => e | None => _ end);
      rewrite !(proj2 (proj2 (Hpost _ _))); exact H2.
Qed.

End TurnOperations.

Section TurnEffects.

Import SidebarProvider.

Variable env : Env.

Lemma postMessage_chatManager msg q : chatManager (postMessage msg q) = chatManager q.
Proof. unfold postMessage. destruct (view q); reflexivity. Qed.

(** X24 (what a turn does to the store): a turn on the active chat with
    text that is not blank appends the user message to that chat and after
    it at most one message, the assistant's; it leaves the chats under
    other ids, the ids and the order of the chats and the active pointer as
    they were. *)
Theorem turn_grows_active_chat (text : jsstring) (p : t) (active : ChatManager.Chat) :
  ChatManager.getActive (chatManager p) = Some active ->
  JsString.nonEmpty (JsString.trim text) = true ->
  let s' := chatManager (handleSendMessage env text p) in
  let userMsg := ChatManager.mkMessage ChatManager.user (JsString.trim text)
                                       None None (userTime env) in
  (exists chat' tail,
      ChatManager.getById (ChatManager.id active) s' = Some chat'
      /\ ChatManager.messages chat'
         = ChatManager.messages active ++ userMsg :: tail
      /\ (tail = []
          \/ exists c th tt,
               tail = [ChatManager.mkMessage ChatManager.assistant c th tt
                                             (endTime env)]))
  /\ (forall j, j <> ChatManager.id active ->
                ChatManager.getById j s' = ChatManager.getById j (chatManager p))
  /\ List.map ChatManager.id (ChatManager.chats s')
     = List.map ChatManager.id (ChatManager.chats (chatManager p))
  /\ ChatManager.activeId s' = ChatManager.activeId (chatManager p).
Proof.
  intros Ha Ht s' userMsg. subst s'.
  set (i := ChatManager.id active).
  set (P := fun q : t =>
              (exists c, ChatManager.getById i (chatManager q) = Some c
                         /\ ChatManager.messages c
                            = ChatManager.messages active ++ [userMsg])
              /\ (forall j, j <> i ->
                    ChatManager.getById j (chatManager q)
                    = ChatManager.getById j (chatManager p))
              /\ List.map ChatManager.id (ChatManager.chats (chatManager q))
                 = List.map ChatManager.id (ChatManager.chats (chatManager p))
              /\ ChatManager.activeId (chatManager q)
                 = ChatManager.activeId (chatManager p)).
  pose proof (getActive_getById _ _ Ha) as Hg. fold i in Hg.
  assert (Hpost : forall msg q, P q -> P (postMessage msg q)).
  { intros msg q H. unfold P. rewrite postMessage_chatManager. exact H. }
  assert (Hframe : forall f q,
             (forall c, ChatManager.id (f c) = ChatManager.id c) ->
             (forall j, j <> i ->
                ChatManager.getById j (chatManager q)
                = ChatManager.getById j (chatManager p))
             /\ List.map ChatManager.id (ChatManager.chats (chatManager q))
                = List.map ChatManager.id (ChatManager.chats (chatManager p))
             /\ ChatManager.activeId (chatManager q)
                = ChatManager.activeId (chatManager p) ->
             (forall j, j <> i ->
                List.find (ChatManager.hasId j)
                  (ChatManager.modifyFirst (ChatManager.hasId i) f
                     (ChatManager.chats (chatManager q)))
                = ChatManager.getById j (chatManager p))
             /\ List.map ChatManager.id
                  (ChatManager.modifyFirst (ChatManager.hasId i) f
                     (ChatManager.chats (chatManager q)))
                = List.map ChatManager.id (ChatManager.chats (chatManager p))
             /\ ChatManager.activeId (chatManager q)
                = ChatManager.activeId (chatManager p)).
  { intros f q Hf (H1 & H2 & H3). split; [|split; [|exact H3]].
    - intros j Hj. rewrite find_modifyFirst_other by assumption.
      apply H1. exact Hj.
    - rewrite map_id_modifyFirst by exact Hf. exact H2. }
  assert (Hstart : P (withManager
                        (ChatManager.addMessage i userMsg (chatManager p)) p)).
  { unfold P. cbn [chatManager withManager]. split.
    - exists (ChatManager.pushMessage userMsg active).
      unfold ChatManager.getById, ChatManager.addMessage. cbn [ChatManager.chats].
      rewrite find_modifyFirst by reflexivity.
      unfold ChatManager.getById in Hg. rewrite Hg. split; reflexivity.
    - apply (Hframe _ p); [reflexivity|auto]. }
  unfold handleSendMessage. rewrite Ha, Ht. cbn [negb]. fold userMsg i.
  rewrite !postMessage_chatManager. cbn [chatManager models withManager].
  replace (ChatManager.getById i
             (ChatManager.addMessage i userMsg (chatManager p)))
    with (Some (ChatManager.pushMessage userMsg active)).
  2:{ unfold ChatManager.getById, ChatManager.addMessage. cbn [ChatManager.chats].
      rewrite find_modifyFirst by reflexivity.
      unfold ChatManager.getById in Hg. rewrite Hg. reflexivity. }
  change (default active (Some ?x)) with x.
  set (chat := ChatManager.pushMessage userMsg active).
  assert (Hid : ChatManager.id chat = i) by reflexivity.
  unfold OllamaClient.chatStream.
  set (request := OllamaClient.mkRequest _ _ _ _).
  set (stream := OllamaClient.streamOf _).
  set (p1 := withSent [request] _).
  assert (Hp1 : P p1).
  { unfold p1, withSent, P. cbn [chatManager].
    rewrite !postMessage_chatManager. exact Hstart. }
  pose proof (forAwait_invariant env chat P Hpost (fun c q H => H)) as Hinv.
  assert (Hman : forall u x q,
            P q ->
            P (withManager (ChatManager.updateContext (ChatManager.id chat) u x
                              (chatManager q)) q)).
  { intros u x q ((c & Hc & Hm) & Hrest). unfold P.
    cbn [chatManager withManager]. rewrite Hid. split.
    - eexists. unfold ChatManager.getById, ChatManager.updateContext.
      cbn [ChatManager.chats]. rewrite find_modifyFirst by reflexivity.
      unfold ChatManager.getById in Hc. rewrite Hc. split; [reflexivity|].
      exact Hm.
    - apply (Hframe _ q); [reflexivity|exact Hrest]. }
  specialize (Hinv Hman (OllamaClient.yielded stream) 0%nat (mkLocals [] [] 0)
                   p1 Hp1).
  destruct (forAwait _ _ _ _ _) as [[l p2] e]. cbn [fst snd] in Hinv.
  destruct Hinv as ((c & Hc & Hm) & Hrest).
  destruct (match e with Some _ => e | None => _ end) as [err|].
  - rewrite !postMessage_chatManager. split; [|exact Hrest].
    exists c, []. split; [exact Hc|]. split; [exact Hm|]. left. reflexivity.
  - rewrite postMessage_chatManager. cbn [chatManager withManager].
    rewrite Hid. split.
    + eexists. eexists. unfold ChatManager.getById, ChatManager.addMessage.
      cbn [ChatManager.chats]. rewrite find_modifyFirst by reflexivity.
      unfold ChatManager.getById in Hc. rewrite Hc. cbn [option_map].
      split; [reflexivity|]. split.
      * unfold ChatManager.pushMessage at 1. cbn [ChatManager.messages].
        rewrite Hm, <- app_assoc. reflexivity.
      * right. eauto.
    + apply (Hframe _ p2); [reflexivity|exact Hrest].
Qed.

Lemma onChunk_text (chat : ChatManager.Chat) (i : nat)
      (chunk : OllamaClient.ChatChunk) (l l' : Locals) (p p' : t) :
  (OllamaClient.content chunk = JStr []
   \/ Js.truthy (OllamaClient.content chunk) = true) ->
  (OllamaClient.thinking chunk = JStr []
   \/ Js.truthy (OllamaClient.thinking chunk) = true) ->
  onChunk env chat i chunk (l, p) = (l', p', None) ->
  exists c x,
    Js.toString (OllamaClient.content chunk) = Normal c
    /\ Js.toString (OllamaClient.thinking chunk) = Normal x
    /\ content l' = content l ++ c
    /\ thinking l' = thinking l ++ x.
Proof.
  intros Hc Hx. unfold onChunk.
  assert (Hstep : forall (v : jsval) (s : jsstring) (mk' : jsstring -> Locals)
                         (l0 : Locals) (r : Locals),
            (v = JStr [] \/ Js.truthy v = true) ->
            (if Js.truthy v then y ← Js.append s v; Normal (mk' y) else Normal l0)
            = Normal r ->
            exists t, Js.toString v = Normal t
                      /\ ((Js.truthy v = true /\ r = mk' (s ++ t))
                          \/ (t = [] /\ r = l0))).
  { intros v s mk' l0 r [->|Hv]; cbn [Js.truthy JsString.nonEmpty].
    - intros [= <-]. exists []. split; [reflexivity|]. right. auto.
    - rewrite Hv, append_toString.
      destruct (Js.toString v) as [t|e]; cbn [mbind Completion_bind];
        [|discriminate].
      intros [= <-]. exists t. split; [reflexivity|]. left. auto. }
  destruct (if Js.truthy (OllamaClient.thinking chunk) then _ else _)
    as [l1|e] eqn:E1; [|discriminate].
  destruct (if Js.truthy (OllamaClient.content chunk) then _ else _)
    as [l2|e] eqn:E2; [|discriminate].
  apply Hstep in E1; [|exact Hx]. apply Hstep in E2; [|exact Hc].
  destruct E1 as (x & Hx' & E1). destruct E2 as (c & Hc' & E2).
  intros H.
  assert (Hl : l' = l2).
  { destruct (_ && _ && _).
    - destruct (reportUsage _ _ _ _) as [q e]. congruence.
    - congruence. }
  subst l'. exists c, x. split; [exact Hc'|]. split; [exact Hx'|].
  destruct E1 as [[_ ->]|[-> ->]]; destruct E2 as [[_ ->]|[-> ->]];
    cbn [content thinking]; rewrite ?app_nil_r; auto.
Qed.

(** X25 (what the loop collects): over chunks as [chatStream] makes them
    (content and thinking truthy or ['']), when no step of the loop throws,
    the loop has added to [content] the contents of the chunks in order,
    and to [thinking] their thinking: what [chat] collects from the same
    chunks. *)
Theorem loop_collects_text (chat : ChatManager.Chat)
        (chunks : list OllamaClient.ChatChunk) :
  forall (i : nat) (l l' : Locals) (p p' : t),
  Forall (fun chunk =>
            (OllamaClient.content chunk = JStr []
             \/ Js.truthy (OllamaClient.content chunk) = true)
            /\ (OllamaClient.thinking chunk = JStr []
                \/ Js.truthy (OllamaClient.thinking chunk) = true)) chunks ->
  forAwait env chat i chunks (l, p) = (l', p', None) ->
  exists cs xs,
    OllamaClient.concatenation OllamaClient.content chunks = Normal cs
    /\ OllamaClient.concatenation OllamaClient.thinking chunks = Normal xs
    /\ content l' = content l ++ cs
    /\ thinking l' = thinking l ++ xs.
Proof.
  induction chunks as [|chunk rest IH]; intros i l l' p p' Hall H.
  - cbn in H. injection H as <- <-. exists [], []. rewrite !app_nil_r. auto.
  - inversion Hall as [|? ? [Hc Hx] Hrest]; subst.
    cbn [forAwait] in H.
    destruct (onChunk env chat i chunk (l, p)) as [[l1 p1] [e|]] eqn:E;
      [discriminate|].
    destruct (onChunk_text _ _ _ _ _ _ _ Hc Hx E) as (c & x & Tc & Tx & Lc & Lx).
    destruct (IH _ _ _ _ _ Hrest H) as (cs & xs & Cc & Cx & Rc & Rx).
    exists (c ++ cs), (x ++ xs).
    cbn [OllamaClient.concatenation]. rewrite Tc, Tx, Cc, Cx.
    cbn [mbind Completion_bind].
    rewrite Rc, Rx, Lc, Lx, <- !app_assoc. auto.
Qed.

End TurnEffects.

Section TurnExamples.

Import SidebarProvider.

(** A turn on a store with one chat, answered in two chunks. *)
Lemma turn_sends_history_witness :
  let env := mkEnv (OllamaClient.respond
                      [bytesq "{'message':{'content':'Hel'}}"; LF;
                       bytesq "{'message':{'content':'lo'},'done':true}"; LF])
                   (fun _ => Normal JNull) 2000 2001 (fun _ => 2002) 2003 in
  sent (handleSendMessage env (js " hi ") (mk (Some []) [] ChatManager.oneChat ∅ []))
  = [OllamaClient.mkRequest (js "llama3")
       [OllamaClient.mkChatMessage OllamaClient.user (js "hi")] true false].
Proof.
  intros env.
  apply (proj2 (turn_sends_history env (js " hi ")
                  (mk (Some []) [] ChatManager.oneChat ∅ []))
               (ChatManager.mkChat (js "a") (js "New Chat") (js "llama3") 1000 []
                                   (JNum 0) (JNum 4096))
               eq_refl eq_refl).
Defined.

Lemma turn_grows_active_chat_witness :
  let env := mkEnv (OllamaClient.respond
                      [bytesq "{'message':{'content':'Hel'}}"; LF;
                       bytesq "{'message':{'content':'lo'},'done':true}"; LF])
                   (fun _ => Normal JNull) 2000 2001 (fun _ => 2002) 2003 in
  ChatManager.activeId
    (chatManager (handleSendMessage env (js " hi ")
                    (mk (Some []) [] ChatManager.oneChat ∅ [])))
  = Some (js "a").
Proof.
  intros env.
  destruct (turn_grows_active_chat env (js " hi ")
              (mk (Some []) [] ChatManager.oneChat ∅ [])
              (ChatManager.mkChat (js "a") (js "New Chat") (js "llama3") 1000 []
                                  (JNum 0) (JNum 4096))
              eq_refl eq_refl) as (_ & _ & _ & H).
  rewrite H. reflexivity.
Defined.

Lemma loop_collects_text_witness :
  let env := mkEnv (OllamaClient.respond []) (fun _ => Normal JNull)
                   2000 2001 (fun _ => 2002) 2003 in
  let chat := ChatManager.mkChat (js "a") (js "New Chat") (js "llama3") 1000 []
                                 (JNum 0) (JNum 4096) in
  let chunks := [OllamaClient.mkChunk (JStr (js "Hel")) (JStr []) (JBool false)
                                      JUndefined JUndefined;
                 OllamaClient.mkChunk (JStr (js "lo")) (JStr []) (JBool false)
                                      JUndefined JUndefined] in
  exists cs xs,
    OllamaClient.concatenation OllamaClient.content chunks = Normal cs
    /\ OllamaClient.concatenation OllamaClient.thinking chunks = Normal xs
    /\ js "Hello" = [] ++ cs
    /\ [] = [] ++ xs.
Proof.
  intros env chat chunks.
  apply (loop_collects_text env chat chunks 0%nat (mkLocals [] [] 0)
           (mkLocals [] (js "Hello") 0)
           (mk (Some []) [] ChatManager.oneChat ∅ [])
           (mk (Some [streamUpdate [] (js "Hel") 0; streamUpdate [] (js "Hello") 0])
               [] ChatManager.oneChat ∅ [])).
  - constructor; [split; [right; reflexivity|left; reflexivity]|].
    constructor; [split; [right; reflexivity|left; reflexivity]|].
    constructor.
  - vm_compute. reflexivity.
Defined.

(** The final record of a turn on the one chat of a store, with 10 prompt
    tokens and 5 generated ones, for a model without [model_info]. *)
Lemma reportUsage_updates_together_witness :
  let env := mkEnv (OllamaClient.respond []) (fun _ => Normal (JObj []))
                   2000 2001 (fun _ => 2002) 2003 in
  let chat := ChatManager.mkChat (js "a") (js "New Chat") (js "llama3") 1000 []
                                 (JNum 0) (JNum 4096) in
  let chunk := OllamaClient.mkChunk (JStr []) (JStr []) (JBool true)
                                    (JNum 10) (JNum 5) in
  let p' := fst (reportUsage env chat chunk
                   (mk (Some []) [] ChatManager.oneChat ∅ [])) in
  contextTracker p' !! js "a" = Some (ContextTracker.mkCounts (JNum 15) (JNum 4096))
  /\ ChatManager.getById (js "a") (chatManager p')
     = Some (ChatManager.mkChat (js "a") (js "New Chat") (js "llama3") 1000 []
                                (JNum 15) (JNum 4096)).
Proof.
  intros env chat chunk p'.
  destruct (reportUsage_updates_together env chat chat chunk
              (mk (Some []) [] ChatManager.oneChat ∅ []) eq_refl)
    as [[Hfail _]|(used & info & Hi & Ha & _ & _ & _ & Ht & Hg & _)].
  - exfalso. apply Hfail. vm_compute. reflexivity.
  - vm_compute in Hi. injection Hi as <-.
    vm_compute in Ha. injection Ha as <-.
    change (js "a") with (ChatManager.id chat).
    fold p' in Ht, Hg. rewrite Ht, Hg. split; reflexivity.
Defined.

End TurnExamples.
